(** * process_messages.py: the message extraction pipeline

    A shallow embedding of [src/process_messages.py] and the properties of
    it that the specification states.

    Python strings are sequences of Unicode code points; they are modelled
    as lists of code points ([N]).  The regular expressions of the source
    are all concatenations of quantified character sets, and are modelled
    by a small backtracking matcher for that fragment, with the priorities
    of Python's [re] (greedy: longest repetition first; lazy: shortest
    first; leftmost match wins). *)

From Stdlib Require Import Ascii String.
From Stdlib Require Import List NArith ZArith Lia Bool.
From Stdlib Require Import Permutation Sorted.
From Stdlib Require Floats Uint63.
Import ListNotations.

Set Implicit Arguments.

(** ** Strings *)

Definition char := N.
Definition str := list char.

(** An ASCII literal as a Python string. *)
Definition lit (s : string) : str := map N_of_ascii (list_ascii_of_string s).

Definition code (a : ascii) : char := N_of_ascii a.

Definition in_range (lo hi c : N) : bool := (lo <=? c)%N && (c <=? hi)%N.

(** [str.strip()] and the pattern [\s]: Python's Unicode white space. *)
Definition is_space (c : char) : bool :=
  in_range 9 13 c || in_range 28 32 c ||
  (c =? 0x85)%N || (c =? 0xA0)%N || (c =? 0x1680)%N ||
  in_range 0x2000 0x200A c || (c =? 0x2028)%N || (c =? 0x2029)%N ||
  (c =? 0x202F)%N || (c =? 0x205F)%N || (c =? 0x3000)%N.

Definition not_space (c : char) : bool := negb (is_space c).

(** The pattern [.] (no DOTALL flag): anything but a line feed. *)
Definition dot (c : char) : bool := negb (c =? 10)%N.

Definition is_chr (a : ascii) (c : char) : bool := (c =? code a)%N.

Definition ascii_digit (c : char) : bool := in_range 48 57 c.

Definition ascii_word (c : char) : bool :=
  in_range 48 57 c || in_range 65 90 c || in_range 97 122 c || (c =? 95)%N.

Definition ascii_lower (c : char) : char :=
  if in_range 65 90 c then (c + 32)%N else c.

Fixpoint lstrip (s : str) : str :=
  match s with
  | c :: s' => if is_space c then lstrip s' else s
  | [] => []
  end.

Definition rstrip (s : str) : str := rev (lstrip (rev s)).

Definition strip (s : str) : str := rstrip (lstrip s).

Fixpoint starts_with (p s : str) : bool :=
  match p, s with
  | [], _ => true
  | a :: p', b :: s' => (a =? b)%N && starts_with p' s'
  | _ :: _, [] => false
  end.

(** [needle in hay] *)
Fixpoint contains (needle hay : str) : bool :=
  starts_with needle hay ||
  match hay with
  | [] => false
  | _ :: hay' => contains needle hay'
  end.

(** ** The Python runtime

    What the source takes from the interpreter and its platform and what
    no file of the repository fixes: the Unicode character database
    outside ASCII, and the C library's rendering of [%Y].  Every theorem
    below holds for all of them. *)

Record runtime := Runtime {
  (** [str.isalnum] of a code point above 127 ([\w] is that or [_]) *)
  uni_alnum : char -> bool;
  (** the value of a decimal digit above 127 (category Nd: [\d], [int]) *)
  uni_decimal : char -> option Z;
  (** the lower-case mapping of a code point above 127, which can be
      several code points, and for capital sigma depends on the text
      before (given reversed) and after it *)
  uni_lower : str -> char -> str -> str;
  (** [strftime]'s [%Y], zero-padded or not below 1000 by platform *)
  strftime_Y : Z -> str
}.

(** ** Regular expressions *)

(** A character set with a repetition count: [rmax = None] is unbounded. *)
Record atom := Atom {
  cls : char -> bool;
  rmin : nat;
  rmax : option nat;
  greedy : bool
}.

Definition regex := list atom.

Definition one (p : char -> bool) : atom := Atom p 1 (Some 1) true.
Definition opt (p : char -> bool) : atom := Atom p 0 (Some 1) true.
Definition plus (p : char -> bool) : atom := Atom p 1 None true.
Definition plus_lazy (p : char -> bool) : atom := Atom p 1 None false.
Definition star_lazy (p : char -> bool) : atom := Atom p 0 None false.
Definition at_least (n : nat) (p : char -> bool) : atom := Atom p n None true.
Definition exactly (n : nat) (p : char -> bool) : atom := Atom p n (Some n) true.

(** A literal string as a pattern. *)
Definition lits (s : string) : regex :=
  map (fun c => one (N.eqb c)) (lit s).

(** The length of the longest prefix of [s] within [p], [bound] at most. *)
Fixpoint span (p : char -> bool) (bound : option nat) (s : str) : nat :=
  match s with
  | c :: s' =>
      if p c then
        match bound with
        | Some 0 => 0
        | Some (S b) => S (span p (Some b) s')
        | None => S (span p None s')
        end
      else 0
  | [] => 0
  end.

(** The repetition counts to try when [k] characters are available, in
    the matcher's order. *)
Definition counts (a : atom) (k : nat) : list nat :=
  let up := seq (rmin a) (S k - rmin a) in
  if greedy a then rev up else up.

Section FirstSome.
Variables (A B : Type) (f : A -> option B).

Fixpoint first_some (l : list A) : option B :=
  match l with
  | [] => None
  | x :: l' =>
      match f x with
      | Some y => Some y
      | None => first_some l'
      end
  end.
End FirstSome.

(** A match of [r] at the start of [s]: the text each atom took. *)
Fixpoint match_here (r : regex) (s : str) : option (list str) :=
  match r with
  | [] => Some []
  | a :: r' =>
      first_some
        (fun n => option_map (cons (firstn n s)) (match_here r' (skipn n s)))
        (counts a (span (cls a) (rmax a) s))
  end.

(** The text of a capture group that spans [n] atoms from atom [lo]. *)
Definition group_text (lo n : nat) (pieces : list str) : str :=
  concat (firstn n (skipn lo pieces)).

(** [re.search]: the leftmost match, as the offset and the pieces. *)
Fixpoint re_search (r : regex) (s : str) : option (nat * list str) :=
  match match_here r s with
  | Some ps => Some (0, ps)
  | None =>
      match s with
      | [] => None
      | _ :: s' =>
          match re_search r s' with
          | Some (i, ps) => Some (S i, ps)
          | None => None
          end
      end
  end.

(** [re.sub(r, repl, s)] for a pattern that matches no empty string (all
    of the source's are such, see [patterns_consume]): [skip] counts the
    characters of the current match still to drop. *)
Fixpoint sub_from (r : regex) (repl : str) (skip : nat) (s : str) : str :=
  match s with
  | [] => []
  | c :: s' =>
      match skip with
      | S k => sub_from r repl k s'
      | 0 =>
          match match_here r s with
          | Some ps =>
              match length (concat ps) with
              | S k => repl ++ sub_from r repl k s'
              | 0 => c :: sub_from r repl 0 s'
              end
          | None => c :: sub_from r repl 0 s'
          end
      end
  end.

Definition re_sub (r : regex) (repl s : str) : str := sub_from r repl 0 s.

(** [re.split(r, s)], same patterns; [grp] is the pattern's capture
    group, whose text [re.split] puts between the pieces.  [cur] is the
    current piece, reversed. *)
Fixpoint split_from (r : regex) (grp : option (nat * nat)) (skip : nat)
    (cur : str) (s : str) : list str :=
  match s with
  | [] => [rev cur]
  | c :: s' =>
      match skip with
      | S k => split_from r grp k cur s'
      | 0 =>
          match match_here r s with
          | Some ps =>
              match length (concat ps) with
              | S k =>
                  rev cur ::
                  match grp with
                  | Some (lo, n) => [group_text lo n ps]
                  | None => []
                  end ++ split_from r grp k [] s'
              | 0 => split_from r grp 0 (c :: cur) s'
              end
          | None => split_from r grp 0 (c :: cur) s'
          end
      end
  end.

Definition re_split (r : regex) (grp : option (nat * nat)) (s : str) : list str :=
  split_from r grp 0 [] s.

(** ** Dates and times (Python's [datetime]) *)

Record datetime := Datetime {
  year : Z; month : Z; day : Z; hour : Z; minute : Z; second : Z
}.

Definition is_leap (y : Z) : bool :=
  ((y mod 4 =? 0) && (negb (y mod 100 =? 0) || (y mod 400 =? 0)))%Z.

Definition days_in_month (y m : Z) : Z :=
  if (m =? 2)%Z then (if is_leap y then 29 else 28)%Z
  else if ((m =? 4) || (m =? 6) || (m =? 9) || (m =? 11))%Z then 30%Z
  else 31%Z.

(** What the constructor [datetime(y, m, d, H, M, S)] accepts; it raises
    [ValueError] otherwise. *)
Definition valid_datetime (d : datetime) : bool :=
  ((1 <=? year d) && (year d <=? 9999) &&
   (1 <=? month d) && (month d <=? 12) &&
   (1 <=? day d) && (day d <=? days_in_month (year d) (month d)) &&
   (0 <=? hour d) && (hour d <=? 23) &&
   (0 <=? minute d) && (minute d <=? 59) &&
   (0 <=? second d) && (second d <=? 59))%Z.

(** The order of [datetime] values: by field, most significant first. *)
Definition dt_key (d : datetime) : list Z :=
  [year d; month d; day d; hour d; minute d; second d].

Fixpoint lex_ltb (a b : list Z) : bool :=
  match a, b with
  | x :: a', y :: b' => (x <? y)%Z || ((x =? y)%Z && lex_ltb a' b')
  | _, _ => false
  end.

Definition dt_ltb (a b : datetime) : bool := lex_ltb (dt_key a) (dt_key b).

(** [toordinal]: days since 0001-01-01, that day being 1. *)
Definition days_before_year (y : Z) : Z :=
  ((y - 1) * 365 + (y - 1) / 4 - (y - 1) / 100 + (y - 1) / 400)%Z.

Fixpoint days_before_month_from (y : Z) (m : nat) : Z :=
  match m with
  | O => 0%Z
  | S k => (days_before_month_from y k + days_in_month y (Z.of_nat m))%Z
  end.

Definition days_before_month (y m : Z) : Z :=
  days_before_month_from y (Z.to_nat (m - 1)).

Definition toordinal (d : datetime) : Z :=
  (days_before_year (year d) + days_before_month (year d) (month d) + day d)%Z.

(** [(b - a).total_seconds()], before its conversion to a float. *)
Definition seconds_of (d : datetime) : Z :=
  (toordinal d * 86400 + hour d * 3600 + minute d * 60 + second d)%Z.

Definition seconds_between (a b : datetime) : Z := (seconds_of b - seconds_of a)%Z.

Definition digit (n : Z) : char := (48 + Z.to_N n)%N.

(** ["%02d" % n] and ["%04d" % n] for the fields of a valid date. *)
Definition zpad2 (n : Z) : str := [digit (n / 10); digit (n mod 10)]%Z.

Definition zpad4 (n : Z) : str :=
  [digit (n / 1000); digit (n / 100 mod 10); digit (n / 10 mod 10); digit (n mod 10)]%Z.

(** [isoformat()] of a datetime without microseconds or time zone. *)
Definition isoformat (d : datetime) : str :=
  zpad4 (year d) ++ lit "-" ++ zpad2 (month d) ++ lit "-" ++ zpad2 (day d) ++
  lit "T" ++ zpad2 (hour d) ++ lit ":" ++ zpad2 (minute d) ++ lit ":" ++
  zpad2 (second d).

Definition ascii_value (c : char) : option Z :=
  if ascii_digit c then Some (Z.of_N c - 48)%Z else None.

Definition checked (d : datetime) : option datetime :=
  if valid_datetime d then Some d else None.

(** [datetime.fromisoformat] on the layout [isoformat] writes, the only
    strings the pipeline gives it; [None] is [ValueError].  Any other
    layout is taken to raise, the cautious choice for a claim that nothing
    is raised. *)
Definition fromisoformat (s : str) : option datetime :=
  match map ascii_value s, s with
  | [Some y1; Some y2; Some y3; Some y4; _; Some m1; Some m2; _;
     Some d1; Some d2; _; Some h1; Some h2; _; Some n1; Some n2; _;
     Some s1; Some s2],
    [_; _; _; _; 45; _; _; 45; _; _; 84; _; _; 58; _; _; 58; _; _]%N =>
      checked (Datetime (1000 * y1 + 100 * y2 + 10 * y3 + y4) (10 * m1 + m2)
                 (10 * d1 + d2) (10 * h1 + h2) (10 * n1 + n2) (10 * s1 + s2))%Z
  | _, _ => None
  end.

(** [strftime('%Y-%m-%d %H:%M:%S')] *)
Definition strftime (py : runtime) (d : datetime) : str :=
  strftime_Y py (year d) ++ lit "-" ++ zpad2 (month d) ++ lit "-" ++
  zpad2 (day d) ++ lit " " ++ zpad2 (hour d) ++ lit ":" ++ zpad2 (minute d) ++
  lit ":" ++ zpad2 (second d).

(** ** The functions of [process_messages.py] *)

Definition is_emoji (c : char) : bool :=
  in_range 0x1F600 0x1F64F c ||
  in_range 0x1F300 0x1F5FF c ||
  in_range 0x1F680 0x1F6FF c ||
  in_range 0x1F1E0 0x1F1FF c ||
  in_range 0x2702 0x27B0 c ||
  in_range 0x24C2 0x1F251 c ||
  in_range 0x1F900 0x1F9FF c ||
  in_range 0x1FA00 0x1FAFF c.

Definition emoji_pattern : regex := [plus is_emoji].

Definition remove_emojis (text : str) : str := re_sub emoji_pattern [] text.

Definition excluded_terms : list str :=
  map lit
    ["israel"; "israeli"; "idf"; "gaza"; "hamas"; "iran"; "iranian";
     "tel aviv"; "tehran"; "netanyahu"; "hezbollah"; "palestine";
     "palestinian"; "west bank"; "jerusalem"]%string.

Definition promotional_phrases : list str :=
  map lit ["subscribe"; "donate"; "follow us"; "join us"; "advertising"]%string.

Record message := Message {
  timestamp : option str;
  group : str;
  text : str;
  original_length : nat
}.

Section Pipeline.

Variable py : runtime.

(** [\w] *)
Definition is_word (c : char) : bool :=
  if (c <? 128)%N then ascii_word c else uni_alnum py c.

Definition digit_value (c : char) : option Z :=
  if (c <? 128)%N then ascii_value c else uni_decimal py c.

(** [\d] *)
Definition is_digit (c : char) : bool :=
  match digit_value c with Some _ => true | None => false end.

(** [str.lower()]: character by character, [before] being the text
    already passed, reversed. *)
Fixpoint lower_from (before s : str) : str :=
  match s with
  | [] => []
  | c :: s' =>
      (if (c <? 128)%N then [ascii_lower c] else uni_lower py before c s')
      ++ lower_from (c :: before) s'
  end.

Definition lower (s : str) : str := lower_from [] s.

Definition mention_re : regex := [one (is_chr "@"); plus is_word].

Definition markdown_link_re : regex :=
  [one (is_chr "["); star_lazy dot; one (is_chr "]");
   one (is_chr "("); star_lazy dot; one (is_chr ")")].

Definition url_re : regex :=
  lits "http" ++ [opt (is_chr "s")] ++ lits "://" ++ [plus not_space].

Definition telegram_re : regex := lits "t.me/" ++ [plus not_space].

Definition dashes_re : regex := [at_least 3 (is_chr "-")].
Definition equals_re : regex := [at_least 3 (is_chr "=")].
Definition newlines_re : regex := [at_least 3 (N.eqb 10)].
Definition spaces_re : regex := [at_least 2 (is_chr " ")].

Definition clean_text (text : str) : str :=
  let text := remove_emojis text in
  let text := re_sub mention_re [] text in
  let text := re_sub markdown_link_re [] text in
  let text := re_sub url_re [] text in
  let text := re_sub telegram_re [] text in
  let text := re_sub dashes_re [] text in
  let text := re_sub equals_re [] text in
  let text := re_sub newlines_re [10; 10]%N text in
  let text := re_sub spaces_re (lit " ") text in
  strip text.

Definition contains_excluded_content (text : str) : bool :=
  let text_lower := lower text in
  existsb (fun term => contains term text_lower) excluded_terms.

(** The pattern of [parse_timestamp]; its group is atoms 1 to 11. *)
Definition timestamp_re : regex :=
  [one (is_chr "["); exactly 4 is_digit; one (is_chr "-");
   exactly 2 is_digit; one (is_chr "-"); exactly 2 is_digit;
   one (is_chr " "); exactly 2 is_digit; one (is_chr ":");
   exactly 2 is_digit; one (is_chr ":"); exactly 2 is_digit;
   one (is_chr "]")].

Definition two (a b : option Z) : option Z :=
  match a, b with
  | Some x, Some y => Some (10 * x + y)%Z
  | _, _ => None
  end.

Definition four (a b c d : option Z) : option Z :=
  match two a b, two c d with
  | Some x, Some y => Some (100 * x + y)%Z
  | _, _ => None
  end.

Definition among (lo hi : Z) (v : option Z) : option Z :=
  match v with
  | Some x => if ((lo <=? x) && (x <=? hi))%Z then v else None
  | None => None
  end.

(** [datetime.strptime(s, '%Y-%m-%d %H:%M:%S')] on the strings the group
    of [timestamp_re] captures; [None] is [ValueError].  The format's
    directives read: [%Y] four digits of any script; [%m] [1[0-2]|0[1-9]];
    [%d] [3[0-1]|[1-2]\d|0[1-9]]; [%H] [2[0-3]|[0-1]\d]; [%M] [[0-5]\d];
    [%S] [6[0-1]|[0-5]\d] (their one-character forms cannot apply to two
    digits before a separator).  A digit written as a range is an ASCII
    digit, [\d] a digit of any script.  The constructor then refuses what
    is no date or time, seconds 60 and 61 among it. *)
Definition strptime (s : str) : option datetime :=
  match s with
  | [y1; y2; y3; y4; c1; m1; m2; c2; d1; d2; c3; h1; h2; c4; n1; n2; c5; s1; s2] =>
      if (c1 =? 45)%N && (c2 =? 45)%N && is_space c3 &&
         (c4 =? 58)%N && (c5 =? 58)%N then
        match four (digit_value y1) (digit_value y2)
                   (digit_value y3) (digit_value y4),
              among 1 12 (two (ascii_value m1) (ascii_value m2)),
              among 1 31 (two (among 0 3 (ascii_value d1))
                (if (d1 =? 49)%N || (d1 =? 50)%N then digit_value d2
                 else ascii_value d2)),
              among 0 23 (two (among 0 2 (ascii_value h1))
                (if (h1 =? 50)%N then ascii_value h2 else digit_value h2)),
              two (among 0 5 (ascii_value n1)) (digit_value n2),
              among 0 61 (two (among 0 6 (ascii_value s1))
                (if (s1 =? 54)%N then ascii_value s2 else digit_value s2))
        with
        | Some y, Some m, Some d, Some h, Some n, Some sec =>
            checked (Datetime y m d h n sec)
        | _, _, _, _, _, _ => None
        end
      else None
  | _ => None
  end.

Definition parse_timestamp (timestamp_str : str) : option datetime :=
  match re_search timestamp_re timestamp_str with
  | Some (_, pieces) => strptime (group_text 1 11 pieces)
  | None => None
  end.

(** The pattern of the group headers; its group is atom 9, the name. *)
Definition group_re : regex := lits "**Group: " ++ [plus_lazy dot] ++ lits "**".

Definition separator_re : regex := [at_least 70 (is_chr "-")].

(** The body of the loop over the blocks of a group: the message the
    block gives, if it gives one. *)
Definition process_block (current_group block : str) : option message :=
  let block := strip block in
  if (length block =? 0) || (length block <? 50) then None
  else
    let timestamp := parse_timestamp block in
    let cleaned_text := clean_text block in
    if contains_excluded_content cleaned_text then None
    else if existsb (fun phrase => contains phrase (lower cleaned_text))
              promotional_phrases then None
    else if negb (length cleaned_text =? 0) && (100 <? length cleaned_text) then
      Some {| timestamp := option_map isoformat timestamp;
              group := current_group;
              text := cleaned_text;
              original_length := length block |}
    else None.

Fixpoint block_loop (current_group : str) (message_blocks : list str)
    : list message :=
  match message_blocks with
  | [] => []
  | block :: rest =>
      match process_block current_group block with
      | Some m => m :: block_loop current_group rest
      | None => block_loop current_group rest
      end
  end.

(** The loop [for i in range(1, len(group_sections), 2)] over the
    sections from index 1 on: a name without a section after it
    ([i + 1 = len]) is passed over. *)
Fixpoint group_loop (sections : list str) : list message :=
  match sections with
  | name :: group_content :: rest =>
      block_loop (strip name) (re_split separator_re None group_content)
      ++ group_loop rest
  | _ => []
  end.

Definition extract_messages (news_content : str) : list message :=
  let group_sections := re_split group_re (Some (9, 1)) news_content in
  group_loop (tl group_sections).

End Pipeline.

(** ** Sorting, the time window and the run *)

(** [a < b] on strings: by code point, a proper prefix first. *)
Fixpoint str_ltb (a b : str) : bool :=
  match a, b with
  | _, [] => false
  | [], _ :: _ => true
  | x :: a', y :: b' => (x <? y)%N || ((x =? y)%N && str_ltb a' b')
  end.

(** [list.sort(key=...)].  Python's sort is stable and compares keys with
    [<] alone; the result of a stable sort is fixed by the keys and the
    order of the input, and insertion from the right computes it: an
    element goes before the first one whose key is not smaller. *)
Section Sort.
Variables (A : Type) (key : A -> str).

Fixpoint insert (x : A) (l : list A) : list A :=
  match l with
  | [] => [x]
  | y :: l' => if str_ltb (key y) (key x) then y :: insert x l' else x :: l
  end.

Definition list_sort (l : list A) : list A := fold_right insert [] l.

(** [x] may stand before [y]: the key of [y] is not smaller. *)
Definition key_le (x y : A) : Prop := str_ltb (key y) (key x) = false.

(** The elements of key [k]. *)
Definition has_key (k : str) (x : A) : bool :=
  if list_eq_dec N.eq_dec (key x) k then true else false.
End Sort.

(** [lambda x: x['timestamp'] if x['timestamp'] else ''] *)
Definition sort_key (x : message) : str :=
  match timestamp x with
  | Some (c :: ts) => c :: ts
  | _ => []
  end.

Inductive exn := ValueError | KeyError (key : string).

Inductive result (A : Type) := Ok (a : A) | Raise (e : exn).
Arguments Ok {A} a.
Arguments Raise {A} e.

Definition bind {A B : Type} (r : result A) (k : A -> result B) : result B :=
  match r with
  | Ok a => k a
  | Raise e => Raise e
  end.

Notation "x <- r ;; k" := (bind r (fun x => k))
  (at level 61, r at next level, right associativity).

(** The list comprehension of [calculate_time_window]. *)
Fixpoint timestamps_of (messages : list message) : result (list datetime) :=
  match messages with
  | [] => Ok []
  | msg :: rest =>
      match timestamp msg with
      | Some (c :: ts) =>
          match fromisoformat (c :: ts) with
          | Some d => ds <- timestamps_of rest ;; Ok (d :: ds)
          | None => Raise ValueError
          end
      | _ => timestamps_of rest
      end
  end.

(** [min] and [max] of a list that is not empty: the first least and the
    first greatest element. *)
Fixpoint min_from (best : datetime) (l : list datetime) : datetime :=
  match l with
  | [] => best
  | d :: l' => min_from (if dt_ltb d best then d else best) l'
  end.

Fixpoint max_from (best : datetime) (l : list datetime) : datetime :=
  match l with
  | [] => best
  | d :: l' => max_from (if dt_ltb best d then d else best) l'
  end.

(** *** Floating point: [total_seconds() / 3600] and [round(x, 2)]

    Python's floats are IEEE 754 binary64, as are Rocq's primitive floats.
    [total_seconds()] is a whole number of seconds, exact as a float. *)
Definition float_of_Z (z : Z) : PrimFloat.float :=
  if (z <? 0)%Z then PrimFloat.opp (PrimFloat.of_uint63 (Uint63.of_Z (- z)))
  else PrimFloat.of_uint63 (Uint63.of_Z z).

Definition round_half_even (num den : Z) : Z :=
  let q := (num / den)%Z in
  match (2 * (num mod den) ?= den)%Z with
  | Lt => q
  | Gt => (q + 1)%Z
  | Eq => if Z.even q then q else (q + 1)%Z
  end.

(** [round(x, 2)]: the float's exact value is rounded to a whole number
    of hundredths, a tie to the even one, and the result is the float
    nearest to that decimal. *)
Definition py_round2 (x : PrimFloat.float) : PrimFloat.float :=
  match FloatOps.Prim2SF x with
  | SpecFloat.S754_finite s m e =>
      let h := if (0 <=? e)%Z then (Zpos m * 2 ^ e * 100)%Z
               else round_half_even (Zpos m * 100) (2 ^ (- e)) in
      PrimFloat.div (float_of_Z (if s then (- h)%Z else h)) (float_of_Z 100)
  | _ => x
  end.

Definition hours_rounded (seconds : Z) : PrimFloat.float :=
  py_round2 (PrimFloat.div (float_of_Z seconds) (float_of_Z 3600)).

(** The dictionary [calculate_time_window] returns: the key
    [duration_hours] may be absent. *)
Record time_window := TimeWindow {
  start : str;
  end_ : str;
  duration_hours : option PrimFloat.float
}.

Record output_document := OutputDocument {
  total_messages : nat;
  window : time_window;
  processed_at : str;
  messages : list message
}.

Section Run.

Variable py : runtime.

Definition calculate_time_window (messages : list message) : result time_window :=
  timestamps <- timestamps_of messages ;;
  match timestamps with
  | [] => Ok {| start := lit "Unknown"; end_ := lit "Unknown";
                duration_hours := None |}
  | d :: rest =>
      let start_time := min_from d rest in
      let end_time := max_from d rest in
      Ok {| start := strftime py start_time;
            end_ := strftime py end_time;
            duration_hours :=
              Some (hours_rounded (seconds_between start_time end_time)) |}
  end.

(** [preprocess_messages] once [news_content] has been found: the
    document given to [json.dump], if that point is reached, and how the
    run ends when [json.dump] writes it ([preprocess_messages_from] below
    has the write that fails).  [now] is [datetime.now().isoformat()].
    After the file is written the report reads
    [time_window['duration_hours']]. *)
Definition preprocess_messages (now news_content : str)
    : option output_document * result unit :=
  let messages := list_sort sort_key (extract_messages py news_content) in
  match calculate_time_window messages with
  | Raise e => (None, Raise e)
  | Ok time_window =>
      let output_data :=
        {| total_messages := length messages;
           window := time_window;
           processed_at := now;
           messages := messages |} in
      (Some output_data,
       match duration_hours time_window with
       | Some _ => Ok tt
       | None => Raise (KeyError "duration_hours")
       end)
  end.

End Run.

(** ** The report at the end of [preprocess_messages] *)

Definition str_eqb (a b : str) : bool :=
  if list_eq_dec N.eq_dec a b then true else false.

(** [groups[g] = groups.get(g, 0) + 1]: a dict, its items in the order
    in which the keys were first inserted. *)
Fixpoint bump (g : str) (groups : list (str * nat)) : list (str * nat) :=
  match groups with
  | [] => [(g, 0 + 1)]
  | (k, n) :: rest =>
      if str_eqb k g then (k, n + 1) :: rest else (k, n) :: bump g rest
  end.

(** The loop [for msg in messages] over the dict. *)
Definition count_groups (messages : list message) : list (str * nat) :=
  fold_left (fun groups msg => bump (group msg) groups) messages [].

(** [sorted(items, key=lambda x: x[1], reverse=True)]: stable as well,
    the greater count first; an item goes before the first one whose
    count is not greater. *)
Fixpoint insert_desc (x : str * nat) (l : list (str * nat)) : list (str * nat) :=
  match l with
  | [] => [x]
  | y :: l' => if snd x <? snd y then y :: insert_desc x l' else x :: l
  end.

Definition sorted_desc (items : list (str * nat)) : list (str * nat) :=
  fold_right insert_desc [] items.

(** The lines of "Messages by group": the pairs the last loop prints. *)
Definition group_report (messages : list message) : list (str * nat) :=
  firstn 10 (sorted_desc (count_groups messages)).

(** [groups.get(g, 0)] *)
Fixpoint get_count (g : str) (groups : list (str * nat)) : nat :=
  match groups with
  | [] => 0
  | (k, n) :: rest => if str_eqb k g then n else get_count g rest
  end.

(** ** The envelope around [news_content]

    Lines 150 to 193 of [preprocess_messages]: where the text is looked
    for in what [json.load] returned. *)

(** A value read from JSON.  The items of a dict have distinct keys. *)
#[warnings="-register-all"] Inductive json :=
| JNull
| JBool (b : bool)
| JInt (n : Z)
| JFloat (x : PrimFloat.float)
| JStr (s : str)
| JList (elements : list json)
| JDict (items : list (str * json)).

(** [bool(v)], the test of [if v] and [not v]. *)
Definition truthy (v : json) : bool :=
  match v with
  | JNull => false
  | JBool b => b
  | JInt n => negb (n =? 0)%Z
  | JFloat x => negb (PrimFloat.eqb x PrimFloat.zero)
  | JStr s => match s with [] => false | _ :: _ => true end
  | JList elements => match elements with [] => false | _ :: _ => true end
  | JDict items => match items with [] => false | _ :: _ => true end
  end.

Fixpoint lookup (key : str) (items : list (str * json)) : option json :=
  match items with
  | [] => None
  | (k, v) :: rest => if str_eqb k key then Some v else lookup key rest
  end.

(** [v.get(key, default)].  Only a dict has [get]: on any other value
    the call raises AttributeError, which is [None] here. *)
Definition get (v : json) (key : string) (default : json) : option json :=
  match v with
  | JDict items =>
      Some (match lookup (lit key) items with
            | Some x => x
            | None => default
            end)
  | _ => None
  end.

Definition and_then {A B : Type} (o : option A) (k : A -> option B) : option B :=
  match o with
  | Some a => k a
  | None => None
  end.

Notation "x <~ o ;; k" := (and_then o (fun x => k))
  (at level 61, o at next level, right associativity).

(** [try: ... except Exception: print(...)]: what [news_content] is
    after the statement, [None] standing for an exception in the body. *)
Definition except (body : option json) (news_content : json) : json :=
  match body with
  | Some v => v
  | None => news_content
  end.

Section Envelope.

(** [json.loads]; [None] when it raises. *)
Variable json_loads : str -> option json.

(** [if body: ...] of lines 157-159 and 168-170. *)
Definition from_body (body news_content : json) : option json :=
  if truthy body then
    body_data <~ match body with
                 | JStr s => json_loads s
                 | _ => Some body
                 end ;;
    get body_data "news_content" JNull
  else Some news_content.

(** The bodies of the three [try] statements, each giving the value of
    [news_content] after it. *)
Definition structure_1 (raw_data news_content : json) : option json :=
  match raw_data with
  | JDict items =>
      match lookup (lit "result") items with
      | Some _ =>
          result <~ get raw_data "result" (JDict []) ;;
          body <~ get result "body" JNull ;;
          from_body body news_content
      | None => Some news_content
      end
  | _ => Some news_content
  end.

Definition structure_2 (raw_data news_content : json) : option json :=
  match raw_data with
  | JList (first :: _) =>
      result <~ get first "result" (JDict []) ;;
      body <~ get result "body" JNull ;;
      from_body body news_content
  | _ => Some news_content
  end.

Definition structure_3 (raw_data news_content : json) : option json :=
  match raw_data with
  | JDict _ => get raw_data "news_content" JNull
  | _ => Some news_content
  end.

(** Lines 150-180: the value of [news_content] at line 182. *)
Definition find_news_content (raw_data : json) : json :=
  let news_content := JNull in
  let news_content := except (structure_1 raw_data news_content) news_content in
  let news_content :=
    if negb (truthy news_content)
    then except (structure_2 raw_data news_content) news_content
    else news_content in
  let news_content :=
    if negb (truthy news_content)
    then except (structure_3 raw_data news_content) news_content
    else news_content in
  news_content.

(** *** The whole of [preprocess_messages]

    The output file is opened as UTF-8, which has no encoding of a
    surrogate: [json.dump], which with [ensure_ascii=False] writes
    the characters of a string as they are, raises UnicodeEncodeError on
    a string that holds one.  The console is taken to be UTF-8 as well;
    of the prints only the one of line 188 shows a text of the input as
    it is, and it raises on a surrogate in the same way (the keys of a
    dict are shown by [repr], which escapes a surrogate, and the names
    of the groups are printed after the file is written). *)

Definition is_surrogate (c : char) : bool := in_range 0xD800 0xDFFF c.

Definition encodable (s : str) : bool :=
  forallb (fun c => negb (is_surrogate c)) s.

(** The strings of the document. *)
Definition writable (output_data : output_document) : bool :=
  forallb
    (fun m =>
       match timestamp m with Some t => encodable t | None => true end &&
       encodable (group m) && encodable (text m))
    (messages output_data) &&
  encodable (start (window output_data)) &&
  encodable (end_ (window output_data)) &&
  encodable (processed_at output_data).

Inductive failure :=
| IndexError
| TypeError
| UnicodeEncodeError
| Uncaught (e : exn).

Inductive ending := Returns | Fails (e : failure).

Definition ending_of (r : result unit) : ending :=
  match r with
  | Ok _ => Returns
  | Raise e => Fails (Uncaught e)
  end.

Variable py : runtime.

(** [preprocess_messages] from line 150 on: the document given to
    [json.dump], if that point is reached, and how the run ends.  With
    nothing found the run prints what it has and returns: the first 500
    characters of a string (line 188), and otherwise what [json.dumps]
    makes of the value, where [raw_data[0]] of an empty list raises
    IndexError (line 190).  A number or a boolean has no [len] (line
    193) and [re.split] takes no list and no dict (line 70):
    TypeError. *)
Definition preprocess_messages_from (now : str) (raw_data : json)
    : option output_document * ending :=
  let news_content := find_news_content raw_data in
  if negb (truthy news_content) then
    match raw_data with
    | JStr s =>
        (None,
         if encodable (firstn 500 s) then Returns else Fails UnicodeEncodeError)
    | JList [] => (None, Fails IndexError)
    | _ => (None, Returns)
    end
  else
    match news_content with
    | JStr s =>
        match preprocess_messages py now s with
        | (Some output_data, r) =>
            (Some output_data,
             if writable output_data then ending_of r
             else Fails UnicodeEncodeError)
        | (None, r) => (None, ending_of r)
        end
    | _ => (None, Fails TypeError)
    end.

End Envelope.

(** ** Inputs used below *)

(** A runtime for closed examples: nothing outside ASCII is alphanumeric,
    a digit or changed by [lower]; [%Y] is zero-padded. *)
Definition ascii_runtime : runtime :=
  Runtime (fun _ => false) (fun _ => None) (fun _ c _ => [c]) zpad4.

Definition newline : str := [10%N].

(** The blob of the specification's round trip. *)
Definition round_trip_blob : str :=
  lit "**Group: A**" ++ newline ++ repeat (code "x") 60 ++
  lit "[2024-01-01 10:00:00] " ++ repeat (code "y") 90 ++ newline ++
  repeat (code "-") 71 ++ newline.

Definition round_trip_message : message :=
  {| timestamp := Some (lit "2024-01-01T10:00:00");
     group := lit "A";
     text := repeat (code "x") 60 ++ lit "[2024-01-01 10:00:00] " ++
             repeat (code "y") 90;
     original_length := 172 |}.

(** The order of timestamps the specification speaks of: a missing one
    is below every other. *)
Definition ts_leb (a b : option str) : bool :=
  match a, b with
  | None, _ => true
  | Some _, None => false
  | Some x, Some y => negb (str_ltb y x)
  end.

(** The timestamps of the messages that have one. *)
Definition dated_strings (messages : list message) : list str :=
  flat_map (fun m => match timestamp m with Some t => [t] | None => [] end)
    messages.

(** A timestamp as [extract_messages] writes it: none, or the ISO form of
    a date and time that exists. *)
Definition written_timestamp (t : option str) : Prop :=
  t = None \/ exists d, valid_datetime d = true /\ t = Some (isoformat d).

(** One for a leap year: the day it has more. *)
Definition leap_day (y : Z) : Z := if is_leap y then 1%Z else 0%Z.

(** A block whose timestamp names month 13. *)
Definition C7_block : str :=
  lit "[2024-13-01 10:00:00] " ++ repeat (code "z") 120.

(** A block that names Israel only in a mention, and a blob with it. *)

Definition C5_block : str := lit "@Israel " ++ repeat (code "n") 120.
Definition C5_blob : str := lit "**Group: G**" ++ newline ++ C5_block.
Definition C5_message : message :=
  {| timestamp := None; group := lit "G"; text := repeat (code "n") 120;
     original_length := 128 |}.

(** A block in which removing a link and a run of dashes leaves a
    mention and a URL. *)
Definition C6_block : str :=
  lit "@[x](y)channel https:---//example.org " ++ repeat (code "n") 120.
Definition C6_blob : str := lit "**Group: G**" ++ newline ++ C6_block.
Definition C6_message : message :=
  {| timestamp := None; group := lit "G";
     text := lit "@channel https://example.org " ++ repeat (code "n") 120;
     original_length := 158 |}.

(** A group of two dated blocks, the later one first. *)
Definition two_dates_blob : str :=
  lit "**Group: News**" ++ newline ++
  lit "[2024-03-01 12:00:00] " ++ repeat (code "a") 110 ++ newline ++
  repeat (code "-") 70 ++ newline ++
  lit "[2024-01-15 08:30:00] " ++ repeat (code "b") 110 ++ newline.

(** Envelopes: the response of the Lambda around a body, a dict with the
    text at [news_content], and the blob of the round trip in an
    envelope of the second shape. *)
Definition lambda_response (body : json) : json :=
  JDict [(lit "statusCode", JInt 200);
         (lit "result", JDict [(lit "body", body)])].

Definition content_dict (s : string) : json :=
  JDict [(lit "news_content", JStr (lit s))].

(** A parser that knows one text. *)
Definition loads_one (text : str) (v : json) (s : str) : option json :=
  if str_eqb s text then Some v else None.

Definition round_trip_raw : json :=
  JList [JDict [(lit "result",
                 JDict [(lit "body",
                         JDict [(lit "news_content", JStr round_trip_blob)])])]].

(** The blob of the round trip with a surrogate in the name of the group. *)
Definition surrogate_blob : str :=
  lit "**Group: A" ++ [0xD800%N] ++ lit "**" ++ newline ++ repeat (code "x") 60 ++
  lit "[2024-01-01 10:00:00] " ++ repeat (code "y") 90 ++ newline ++
  repeat (code "-") 71 ++ newline.

(** A block where what is removed stands directly after an [@] and after
    a [:], and is followed by white space: nothing is joined. *)
Definition C6_unjoined_block : str :=
  lit "mail @--- home, see http:---- then " ++ repeat (code "n") 120.

(** ** Notions used in the proofs *)

(** The text ["YYYY-MM-DD HH:MM:SS"] of a date and time. *)
Definition stamp (d : datetime) : str :=
  zpad4 (year d) ++ lit "-" ++ zpad2 (month d) ++ lit "-" ++ zpad2 (day d) ++
  lit " " ++ zpad2 (hour d) ++ lit ":" ++ zpad2 (minute d) ++ lit ":" ++
  zpad2 (second d).

(** The least number of characters a match of [r] takes. *)
Definition min_len (r : regex) : nat := fold_right (fun a n => rmin a + n) 0 r.

(** A piece of text that an atom can take. *)
Definition fits (a : atom) (piece : str) : Prop :=
  forallb (cls a) piece = true /\ rmin a <= length piece /\
  match rmax a with Some b => length piece <= b | None => True end.

(** A text that has just lost a match ending in a run of [p]: it is
    empty or starts outside [p]. *)
Definition junction (p : char -> bool) (out : str) : Prop :=
  match out with [] => True | z :: _ => p z = false end.

(** The output of a substitution agrees with its input up to a junction. *)
Definition agree (p : char -> bool) (s out : str) : Prop :=
  exists x rest,
    s = x ++ rest /\
    (out = x \/ exists t, out = x ++ t /\ t <> [] /\ junction p t).

(** A table as the loop keeps it: no key twice, no count of zero. *)
Definition table_ok (groups : list (str * nat)) : Prop :=
  NoDup (map fst groups) /\ Forall (fun e => 1 <= snd e) groups.

(** [a] may stand before [b] in the report. *)
Definition count_ge (a b : str * nat) : Prop := snd b <= snd a.

(** Where [news_content] can be in what was loaded. *)
Section Found.
Variable json_loads : str -> option json.

(** [v] is at the key [news_content] of a body: of the dict, or of the
    dict that the text of the body parses to. *)
Definition in_body (body v : json) : Prop :=
  match body with
  | JDict items => lookup (lit "news_content") items = Some v
  | JStr s =>
      s <> [] /\
      exists items, json_loads s = Some (JDict items) /\
                    lookup (lit "news_content") items = Some v
  | _ => False
  end.

(** [v] is at [x['result']['body']['news_content']]. *)
Definition in_result (x v : json) : Prop :=
  exists items inner body,
    x = JDict items /\
    lookup (lit "result") items = Some (JDict inner) /\
    lookup (lit "body") inner = Some body /\
    in_body body v.

(** What the lines that go through [result] and [body] leave (lines
    156-159 and 167-170). *)
Definition through_result (x old : json) : option json :=
  result <~ get x "result" (JDict []) ;;
  body <~ get result "body" JNull ;;
  from_body json_loads body old.
End Found.

(** The second after [d] on the calendar: the fields run over from the
    right, a day into the next month after the last of its month. *)
Definition next_second (d : datetime) : datetime :=
  if (second d <? 59)%Z then
    Datetime (year d) (month d) (day d) (hour d) (minute d) (second d + 1)
  else if (minute d <? 59)%Z then
    Datetime (year d) (month d) (day d) (hour d) (minute d + 1) 0
  else if (hour d <? 23)%Z then
    Datetime (year d) (month d) (day d) (hour d + 1) 0 0
  else if (day d <? days_in_month (year d) (month d))%Z then
    Datetime (year d) (month d) (day d + 1) 0 0 0
  else if (month d <? 12)%Z then
    Datetime (year d) (month d + 1) 1 0 0 0
  else
    Datetime (year d + 1) 1 1 0 0 0.

(** [h] is the whole number nearest to [num / den], the even one of two
    that are as near. *)
Definition nearest_even (num den h : Z) : Prop :=
  (Z.abs (2 * (num - h * den)) <= den)%Z /\
  (Z.abs (2 * (num - h * den)) = den -> Z.even h = true).

(** [r] is [x] rounded to two places: for a finite [x], of sign [sg],
    mantissa [m] and exponent [e], the float nearest to [h / 100], where
    [h] is the number of hundredths nearest to [x]; a zero is left as it
    is. *)
Definition rounded_to_two_places (x r : PrimFloat.float) : Prop :=
  match FloatOps.Prim2SF x with
  | SpecFloat.S754_finite sg m e =>
      exists h,
        nearest_even ((if sg then - Zpos m else Zpos m) * 100 * 2 ^ Z.max e 0)
          (2 ^ Z.max (- e) 0) h /\
        r = PrimFloat.div (float_of_Z h) (float_of_Z 100)
  | _ => r = x
  end.

(** The texts between the steps of [clean_text]. *)
Definition after_mentions (py : runtime) (t : str) : str :=
  re_sub (mention_re py) [] (remove_emojis t).
Definition after_links (py : runtime) (t : str) : str :=
  re_sub markdown_link_re [] (after_mentions py t).
Definition after_urls (py : runtime) (t : str) : str :=
  re_sub url_re [] (after_links py t).
Definition after_telegram (py : runtime) (t : str) : str :=
  re_sub telegram_re [] (after_urls py t).
Definition after_dashes (py : runtime) (t : str) : str :=
  re_sub dashes_re [] (after_telegram py t).

(** A character of [http://] or [https://]. *)
Definition url_prefix_char (c : char) : bool :=
  existsb (N.eqb c) (lit "htps:/").

(** [s] starts with a character of [q]. *)
Definition starts_in (q : char -> bool) (s : str) : bool :=
  match s with
  | c :: _ => q c
  | [] => false
  end.

(** The removal of the matches of [r] joins a character of [left] to a
    character of [right]: somewhere in [t] a match stands directly after
    a character of [left], and what is left of the text after it starts
    with a character of [right]. *)
Fixpoint joins (left right : char -> bool) (r : regex) (t : str) : bool :=
  match t with
  | [] => false
  | c :: t' =>
      (left c &&
       match match_here r t' with Some _ => true | None => false end &&
       starts_in right (re_sub r [] t')) ||
      joins left right r t'
  end.

(** [r] matches nowhere in [t]. *)
Definition free (r : regex) (t : str) : Prop :=
  forall j, match_here r (skipn j t) = None.

(** A character that an atom of [f] takes. *)
Definition in_classes (f : regex) (c : char) : bool :=
  existsb (fun a => cls a c) f.

(** Two texts are parted for a pattern: a match that starts in the first
    cannot go on in the second, because the first ends with no character
    of [f], the part of the pattern before its last atom, or the second
    starts with no character of [next], those that can follow. *)
Definition parted (f : regex) (next : char -> bool) (x y : str) : Prop :=
  x = [] \/ in_classes f (last x 0%N) = false \/ starts_in next y = false.

(** * Properties *)

Unset Implicit Arguments.

(** ** The matcher *)

Lemma first_some_In (A B : Type) (f : A -> option B) (l : list A) (y : B) :
  first_some f l = Some y -> exists x, In x l /\ f x = Some y.
Proof.
  induction l as [|x l IH]; simpl; [discriminate|].
  destruct (f x) eqn:E.
  - intros [= <-]. exists x. auto.
  - intros H. destruct (IH H) as (x' & Hin & Hx'). exists x'. auto.
Qed.

Lemma first_some_None (A B : Type) (f : A -> option B) (l : list A) :
  first_some f l = None -> forall x, In x l -> f x = None.
Proof.
  induction l as [|x l IH]; simpl; [tauto|].
  destruct (f x) eqn:E; [discriminate|].
  intros H x' [<-|Hin]; auto.
Qed.

Lemma first_some_all_None (A B : Type) (f : A -> option B) (l : list A) :
  (forall x, In x l -> f x = None) -> first_some f l = None.
Proof.
  induction l as [|x l IH]; simpl; [reflexivity|].
  intros H. rewrite (H x) by auto. apply IH. auto.
Qed.

Lemma counts_In (a : atom) (k n : nat) :
  In n (counts a k) <-> rmin a <= n <= k.
Proof.
  unfold counts. destruct (greedy a).
  - rewrite <- in_rev, in_seq. lia.
  - rewrite in_seq. lia.
Qed.

Lemma span_le_length (p : char -> bool) (b : option nat) (s : str) :
  span p b s <= length s.
Proof.
  revert b. induction s as [|c s IH]; intros b; simpl; [lia|].
  destruct (p c); [|lia].
  destruct b as [[|b]|]; [lia| |]; specialize (IH (Some b)) + specialize (IH None); lia.
Qed.

Lemma span_forallb (p : char -> bool) (b : option nat) (s : str) (n : nat) :
  n <= span p b s -> forallb p (firstn n s) = true.
Proof.
  revert b n. induction s as [|c s IH]; intros b n; simpl.
  - intros H. replace n with 0 by lia. reflexivity.
  - destruct n as [|n]; [reflexivity|]. simpl.
    destruct (p c); [|lia]. simpl.
    destruct b as [[|b]|]; [lia| |]; intros H; eapply IH with (b := _); apply le_S_n, H.
Qed.

Lemma span_head (p : char -> bool) (b : option nat) (c : char) (s : str) :
  p c = false -> span p b (c :: s) = 0.
Proof. intros H. simpl. rewrite H. reflexivity. Qed.

(** The text after the longest run is not in the set, when the run is
    unbounded. *)
Lemma span_stops (p : char -> bool) (s : str) :
  match skipn (span p None s) s with
  | c :: _ => p c = false
  | [] => True
  end.
Proof.
  induction s as [|c s IH]; simpl; [exact I|].
  destruct (p c) eqn:E; simpl; [exact IH | exact E].
Qed.

(** What a match is: a piece per atom, each within the atom's set and
    counts, together a prefix of the text. *)
Lemma match_here_pieces (r : regex) (s : str) (ps : list str) :
  match_here r s = Some ps ->
  Forall2 (fun a piece => forallb (cls a) piece = true /\ rmin a <= length piece) r ps /\
  s = concat ps ++ skipn (length (concat ps)) s.
Proof.
  revert s ps. induction r as [|a r IH]; intros s ps; simpl.
  - intros [= <-]. split; [constructor | reflexivity].
  - intros H. apply first_some_In in H. destruct H as (n & Hn & H).
    apply counts_In in Hn.
    destruct (match_here r (skipn n s)) as [ps'|] eqn:E; [|discriminate].
    simpl in H. injection H as <-.
    destruct (IH _ _ E) as [HF Hs].
    assert (Hlen : n <= length s) by (pose proof (span_le_length (cls a) (rmax a) s); lia).
    split.
    + constructor; [|exact HF]. split.
      * eapply span_forallb. apply Hn.
      * rewrite length_firstn. lia.
    + simpl. rewrite length_app, length_firstn, Nat.min_l by exact Hlen.
      rewrite (Nat.add_comm n), <- skipn_skipn, <- app_assoc, <- Hs.
      symmetry. apply firstn_skipn.
Qed.

Lemma match_here_length (r : regex) (s : str) (ps : list str) :
  match_here r s = Some ps ->
  min_len r <= length (concat ps) <= length s.
Proof.
  intros H. destruct (match_here_pieces _ _ _ H) as [HF Hs]. split.
  - clear Hs H. induction HF as [|a piece r ps [_ Hp] _ IH]; simpl; [lia|].
    rewrite length_app. lia.
  - apply (f_equal (@length char)) in Hs. rewrite length_app in Hs. lia.
Qed.


(** No pattern of the source matches the empty string. *)
Lemma patterns_consume (py : runtime) :
  Forall (fun r => 1 <= min_len r)
    [emoji_pattern; mention_re py; markdown_link_re; url_re; telegram_re;
     dashes_re; equals_re; newlines_re; spaces_re; group_re; separator_re;
     timestamp_re py].
Proof. repeat constructor; apply Nat.leb_le; reflexivity. Qed.

(** A substitution shortens the text when the replacement is no longer
    than the shortest match. *)
Lemma sub_from_length (r : regex) (repl : str) :
  length repl <= min_len r ->
  forall s skip, skip <= length s ->
  length (sub_from r repl skip s) + skip <= length s.
Proof.
  intros Hrepl. induction s as [|c s IH]; intros skip Hskip; simpl in *; [lia|].
  destruct skip as [|k].
  - destruct (match_here r (c :: s)) as [ps|] eqn:E.
    + apply match_here_length in E. simpl in E.
      destruct (length (concat ps)) as [|k].
      * simpl. specialize (IH 0). lia.
      * rewrite length_app. specialize (IH k). lia.
    + simpl. specialize (IH 0). lia.
  - specialize (IH k). lia.
Qed.

Lemma re_sub_length (r : regex) (repl s : str) :
  length repl <= min_len r -> length (re_sub r repl s) <= length s.
Proof.
  intros H. pose proof (@sub_from_length r repl H s 0). unfold re_sub. lia.
Qed.

(** A substitution adds no character but those of the replacement. *)
Lemma sub_from_Forall (P : char -> Prop) (r : regex) (repl : str) :
  Forall P repl ->
  forall s skip, Forall P s -> Forall P (sub_from r repl skip s).
Proof.
  intros Hrepl. induction s as [|c s IH]; intros skip Hs; simpl; [constructor|].
  inversion Hs as [|? ? Hc Hs']; subst.
  destruct skip as [|k]; [|auto].
  destruct (match_here r (c :: s)) as [ps|]; [|constructor; auto].
  destruct (length (concat ps)); [constructor; auto|].
  apply Forall_app. auto.
Qed.

Lemma lstrip_suffix (s : str) : exists pre, s = pre ++ lstrip s.
Proof.
  induction s as [|c s [pre IH]]; simpl.
  - exists []. reflexivity.
  - destruct (is_space c).
    + exists (c :: pre). simpl. f_equal. exact IH.
    + exists []. reflexivity.
Qed.

Lemma strip_infix (s : str) : exists pre post, s = pre ++ strip s ++ post.
Proof.
  unfold strip, rstrip.
  destruct (lstrip_suffix s) as [pre Hpre].
  destruct (lstrip_suffix (rev (lstrip s))) as [post Hpost].
  exists pre, (rev post).
  rewrite <- rev_app_distr, <- Hpost, rev_involutive. exact Hpre.
Qed.

Lemma strip_length (s : str) : length (strip s) <= length s.
Proof.
  destruct (strip_infix s) as (pre & post & H).
  apply (f_equal (@length char)) in H. rewrite !length_app in H. lia.
Qed.

Lemma strip_Forall (P : char -> Prop) (s : str) :
  Forall P s -> Forall P (strip s).
Proof.
  destruct (strip_infix s) as (pre & post & H).
  intros HF. rewrite H in HF. apply Forall_app in HF. destruct HF as [_ HF].
  apply Forall_app in HF. tauto.
Qed.

(** A stripped text neither starts nor ends with white space. *)
Lemma lstrip_head (s : str) :
  match lstrip s with c :: _ => is_space c = false | [] => True end.
Proof.
  induction s as [|c s IH]; simpl; [exact I|].
  destruct (is_space c) eqn:E; [exact IH | exact E].
Qed.

(** ** The cleaner and the block loop *)

Section PipelineFacts.

Variable py : runtime.

Lemma clean_text_length (s : str) : length (clean_text py s) <= length s.
Proof.
  unfold clean_text, remove_emojis.
  repeat match goal with
  | |- length (strip ?t) <= _ =>
      apply Nat.le_trans with (length t); [apply strip_length|]
  | |- length (re_sub ?r ?repl ?t) <= _ =>
      apply Nat.le_trans with (length t);
      [apply re_sub_length; vm_compute; lia|]
  end.
  apply Nat.le_refl.
Qed.

(** What a block that gives a message went through. *)
Lemma process_block_Some (g block : str) (m : message) :
  process_block py g block = Some m ->
  let b := strip block in
  m = {| timestamp := option_map isoformat (parse_timestamp py b);
         group := g;
         text := clean_text py b;
         original_length := length b |} /\
  50 <= length b /\
  contains_excluded_content py (clean_text py b) = false /\
  existsb (fun phrase => contains phrase (lower py (clean_text py b)))
    promotional_phrases = false /\
  100 < length (clean_text py b).
Proof.
  unfold process_block. cbv zeta.
  destruct (length (strip block) =? 0) eqn:E0; [discriminate|].
  destruct (length (strip block) <? 50) eqn:E50; [discriminate|]. cbn [orb].
  destruct (contains_excluded_content py _) eqn:Ex; [discriminate|].
  match goal with
  | |- context [existsb ?f promotional_phrases] =>
      destruct (existsb f promotional_phrases) eqn:Ep; [discriminate|]
  end.
  destruct (length (clean_text py (strip block)) =? 0) eqn:Ec; [discriminate|].
  cbn [negb andb].
  destruct (100 <? length (clean_text py (strip block))) eqn:E100; [|discriminate].
  intros [= <-].
  apply Nat.ltb_ge in E50. apply Nat.ltb_lt in E100. auto.
Qed.

Lemma block_loop_In (g : str) (blocks : list str) (m : message) :
  In m (block_loop py g blocks) <->
  exists block, In block blocks /\ process_block py g block = Some m.
Proof.
  induction blocks as [|b blocks IH]; simpl.
  - split; [tauto | intros (? & [] & _)].
  - destruct (process_block py g b) as [m'|] eqn:E; simpl; rewrite IH; split.
    + intros [<-|(b' & Hin & H)]; eauto.
    + intros (b' & [<-|Hin] & H); [left; congruence | eauto].
    + intros (b' & Hin & H); eauto.
    + intros (b' & [<-|Hin] & H); [congruence | eauto].
Qed.

Lemma group_loop_In (sections : list str) (m : message) :
  In m (group_loop py sections) ->
  exists g block, process_block py g block = Some m.
Proof.
  remember (length sections) as n eqn:Hn.
  revert sections Hn. induction n as [n IH] using lt_wf_ind.
  intros [|name [|content rest]] Hn; simpl; try tauto.
  rewrite in_app_iff. intros [H|H].
  - apply block_loop_In in H. destruct H as (block & _ & H). eauto.
  - eapply (IH (length rest)); [|reflexivity|exact H]. subst n. simpl. lia.
Qed.

Lemma extract_messages_In (news_content : str) (m : message) :
  In m (extract_messages py news_content) ->
  exists g block, process_block py g block = Some m.
Proof. unfold extract_messages. apply group_loop_In. Qed.

End PipelineFacts.

(** ** Claims on the text of a message *)

(** C1. For the blob ["**Group: A**\n" + "x"*60 + "[2024-01-01 10:00:00] "
    + "y"*90 + "\n" + "-"*71 + "\n"] the extraction gives exactly one
    message, of group ["A"], timestamp ["2024-01-01T10:00:00"], and with
    the run of 90 [y] in its text. *)
Theorem C1_round_trip : forall py : runtime,
  extract_messages py round_trip_blob = [round_trip_message] /\
  group round_trip_message = lit "A" /\
  timestamp round_trip_message = Some (lit "2024-01-01T10:00:00") /\
  contains (repeat (code "y") 90) (text round_trip_message) = true.
Proof.
  intros py. split; [|split; [|split]]; vm_compute; reflexivity.
Qed.

(** C2. A block becomes a message only if its cleaned text is not empty
    and longer than 100 characters: every message of the output is the
    cleaned text of a block, not empty, of length above 100. *)
Theorem C2_text_longer_than_100 :
  forall (py : runtime) (blob : str) (m : message),
  In m (extract_messages py blob) ->
  (exists g block, process_block py g block = Some m /\
                   text m = clean_text py (strip block)) /\
  text m <> [] /\ 100 < length (text m).
Proof.
  intros py blob m Hin.
  destruct (extract_messages_In _ _ _ Hin) as (g & block & H).
  pose proof (process_block_Some _ _ _ _ H) as (Hm & _ & _ & _ & Hlen).
  cbv zeta in Hm, Hlen. subst m. simpl. split; [|split].
  - exists g, block. split; [exact H | reflexivity].
  - intros E. rewrite E in Hlen. simpl in Hlen. lia.
  - exact Hlen.
Qed.

Lemma C2_text_longer_than_100_witness :
  (exists g block,
     process_block ascii_runtime g block = Some round_trip_message /\
     text round_trip_message = clean_text ascii_runtime (strip block)) /\
  text round_trip_message <> [] /\ 100 < length (text round_trip_message).
Proof.
  apply (C2_text_longer_than_100 ascii_runtime round_trip_blob).
  vm_compute. left. reflexivity.
Defined.

(** C10. Cleaning never lengthens a text; so the [original_length] of a
    message of the output is at least the length of its text, and above
    100. *)
Theorem C10_clean_text_shortens : forall py : runtime,
  (forall s, length (clean_text py s) <= length s) /\
  (forall blob m, In m (extract_messages py blob) ->
     length (text m) <= original_length m /\ 100 < original_length m).
Proof.
  intros py. split; [apply clean_text_length|].
  intros blob m Hin.
  destruct (extract_messages_In _ _ _ Hin) as (g & block & H).
  pose proof (process_block_Some _ _ _ _ H) as (Hm & _ & _ & _ & Hlen).
  cbv zeta in Hm, Hlen. subst m. simpl.
  pose proof (clean_text_length py (strip block)). lia.
Qed.

Lemma C10_clean_text_shortens_witness :
  length (text round_trip_message) <= original_length round_trip_message /\
  100 < original_length round_trip_message.
Proof.
  apply (proj2 (C10_clean_text_shortens ascii_runtime) round_trip_blob).
  vm_compute. left. reflexivity.
Defined.

(** ** The order of strings and the sort *)

Lemma str_ltb_cons (x y : char) (a b : str) :
  str_ltb (x :: a) (y :: b) = true <->
  (x < y)%N \/ (x = y /\ str_ltb a b = true).
Proof.
  simpl. rewrite orb_true_iff, andb_true_iff, N.ltb_lt, N.eqb_eq. tauto.
Qed.

Lemma str_ltb_irrefl (a : str) : str_ltb a a = false.
Proof.
  induction a as [|x a IH]; [reflexivity|].
  apply not_true_is_false. rewrite str_ltb_cons. intros [H|[_ H]]; [lia|congruence].
Qed.

Lemma str_ltb_asym (a b : str) : str_ltb a b = true -> str_ltb b a = false.
Proof.
  revert b. induction a as [|x a IH]; intros [|y b] H; try reflexivity; try discriminate.
  apply not_true_is_false. rewrite str_ltb_cons in *.
  intros [H'|[-> H']]; destruct H as [H|[E H]]; try lia.
  apply IH in H. congruence.
Qed.

(** If [a < c] then every [b] is above [a] or below [c]. *)
Lemma str_ltb_between (a b c : str) :
  str_ltb a c = true -> str_ltb a b = true \/ str_ltb b c = true.
Proof.
  revert b c. induction a as [|x a IH]; intros [|y b] [|z c] H;
    try discriminate; auto.
  rewrite !str_ltb_cons in *.
  destruct (N.lt_total x y) as [L|[E|L]]; auto.
  - subst y. destruct H as [H|[-> H]]; auto.
    destruct (IH b c H); auto.
  - destruct H as [H|[-> H]]; right; left; lia.
Qed.

Section SortFacts.

Variables (A : Type) (key : A -> str).

Lemma key_le_trans (x y z : A) : key_le key x y -> key_le key y z -> key_le key x z.
Proof.
  unfold key_le. intros Hxy Hyz. apply not_true_is_false. intros H.
  destruct (str_ltb_between _ (key y) _ H); congruence.
Qed.

Lemma insert_perm (x : A) (l : list A) : Permutation (x :: l) (insert key x l).
Proof.
  induction l as [|y l IH]; simpl; [reflexivity|].
  destruct (str_ltb (key y) (key x)); [|reflexivity].
  rewrite perm_swap. constructor. exact IH.
Qed.

Lemma list_sort_perm (l : list A) : Permutation l (list_sort key l).
Proof.
  induction l as [|x l IH]; simpl; [constructor|].
  rewrite <- insert_perm. constructor. exact IH.
Qed.

Lemma insert_sorted (x : A) (l : list A) :
  StronglySorted (key_le key) l -> StronglySorted (key_le key) (insert key x l).
Proof.
  induction 1 as [|y l Hs IH Hy]; simpl.
  - constructor; constructor.
  - destruct (str_ltb (key y) (key x)) eqn:E.
    + constructor; [exact IH|].
      rewrite <- insert_perm. constructor; [|exact Hy].
      apply str_ltb_asym, E.
    + constructor; [constructor; assumption|].
      constructor; [exact E|].
      eapply Forall_impl; [|exact Hy]. intros z. apply key_le_trans. exact E.
Qed.

Lemma list_sort_sorted (l : list A) : StronglySorted (key_le key) (list_sort key l).
Proof.
  induction l as [|x l IH]; simpl; [constructor|]. apply insert_sorted, IH.
Qed.

(** Stability: the elements of one key keep their order. *)
Lemma insert_stable (k : str) (x : A) (l : list A) :
  filter (has_key key k) (insert key x l) = filter (has_key key k) (x :: l).
Proof.
  induction l as [|y l IH]; [reflexivity|].
  cbn [insert]. destruct (str_ltb (key y) (key x)) eqn:E; [|reflexivity].
  cbn [filter] in *. rewrite IH. unfold has_key.
  destruct (list_eq_dec N.eq_dec (key x) k) as [Ex|]; [|reflexivity].
  destruct (list_eq_dec N.eq_dec (key y) k) as [Ey|]; [|reflexivity].
  rewrite Ex, Ey, str_ltb_irrefl in E. discriminate.
Qed.

Lemma list_sort_stable (k : str) (l : list A) :
  filter (has_key key k) (list_sort key l) = filter (has_key key k) l.
Proof.
  induction l as [|x l IH]; [reflexivity|].
  cbn [list_sort fold_right]. fold (list_sort key l).
  rewrite insert_stable. cbn [filter]. rewrite IH. reflexivity.
Qed.

Lemma sorted_nth (R : A -> A -> Prop) (l : list A) :
  StronglySorted R l ->
  forall i j a b, i < j -> nth_error l i = Some a -> nth_error l j = Some b ->
  R a b.
Proof.
  induction 1 as [|x l Hs IH Hx]; intros i j a b Hij Hi Hj.
  - destruct i; discriminate.
  - destruct j as [|j]; [lia|]. destruct i as [|i]; simpl in *.
    + injection Hi as <-. rewrite Forall_forall in Hx.
      apply Hx. eapply nth_error_In, Hj.
    + eapply IH; [|exact Hi|exact Hj]. lia.
Qed.

End SortFacts.

(** ** Dates, times and timestamps *)

Lemma checked_Some (d d' : datetime) :
  checked d = Some d' -> d' = d /\ valid_datetime d = true.
Proof.
  unfold checked. destruct (valid_datetime d); [|discriminate].
  intros [= <-]. auto.
Qed.

Lemma ascii_value_digit (x : Z) :
  (0 <= x <= 9)%Z -> ascii_value (digit x) = Some x.
Proof.
  intros H. unfold ascii_value, ascii_digit, in_range, digit.
  replace ((48 <=? 48 + Z.to_N x)%N && (48 + Z.to_N x <=? 57)%N) with true.
  - f_equal. lia.
  - symmetry. rewrite andb_true_iff, !N.leb_le. lia.
Qed.

Lemma fromisoformat_digits (y1 y2 y3 y4 m1 m2 d1 d2 h1 h2 n1 n2 s1 s2 : Z) :
  Forall (fun x => 0 <= x <= 9)%Z [y1; y2; y3; y4; m1; m2; d1; d2; h1; h2; n1; n2; s1; s2] ->
  fromisoformat
    ([digit y1; digit y2; digit y3; digit y4] ++ lit "-" ++ [digit m1; digit m2] ++
     lit "-" ++ [digit d1; digit d2] ++ lit "T" ++ [digit h1; digit h2] ++ lit ":" ++
     [digit n1; digit n2] ++ lit ":" ++ [digit s1; digit s2]) =
  checked (Datetime (1000 * y1 + 100 * y2 + 10 * y3 + y4) (10 * m1 + m2)
             (10 * d1 + d2) (10 * h1 + h2) (10 * n1 + n2) (10 * s1 + s2))%Z.
Proof.
  intros H. repeat (apply Forall_cons_iff in H; destruct H as [? H]).
  unfold fromisoformat. cbn [app lit map list_ascii_of_string N_of_ascii].
  rewrite !ascii_value_digit by assumption.
  reflexivity.
Qed.

Lemma days_in_month_le (y m : Z) : (28 <= days_in_month y m <= 31)%Z.
Proof.
  unfold days_in_month.
  destruct (m =? 2)%Z; [destruct (is_leap y); lia|].
  destruct ((m =? 4) || (m =? 6) || (m =? 9) || (m =? 11))%Z; lia.
Qed.

Lemma valid_datetime_spec (d : datetime) :
  valid_datetime d = true <->
  (1 <= year d <= 9999 /\ 1 <= month d <= 12 /\
   1 <= day d <= days_in_month (year d) (month d) /\
   0 <= hour d <= 23 /\ 0 <= minute d <= 59 /\ 0 <= second d <= 59)%Z.
Proof.
  unfold valid_datetime. rewrite !andb_true_iff, !Z.leb_le. tauto.
Qed.

Lemma fromisoformat_isoformat (d : datetime) :
  valid_datetime d = true -> fromisoformat (isoformat d) = Some d.
Proof.
  intros Hv. pose proof Hv as H. apply valid_datetime_spec in H.
  destruct d as [y m dd h n s]. cbn [year month day hour minute second] in H.
  pose proof (days_in_month_le y m).
  unfold isoformat, zpad4, zpad2. cbn [year month day hour minute second].
  rewrite fromisoformat_digits.
  - replace (Datetime _ _ _ _ _ _) with (Datetime y m dd h n s).
    + unfold checked. rewrite Hv. reflexivity.
    + f_equal; Z.div_mod_to_equations; lia.
  - repeat constructor; Z.div_mod_to_equations; lia.
Qed.

Lemma isoformat_length (d : datetime) : length (isoformat d) = 19.
Proof. reflexivity. Qed.

Section TimestampFacts.

Variable py : runtime.

Lemma strptime_valid (s : str) (d : datetime) :
  strptime py s = Some d -> valid_datetime d = true.
Proof.
  unfold strptime.
  do 19 (destruct s as [|? s]; [discriminate|]).
  destruct s; [|discriminate].
  repeat match goal with
  | |- match ?x with _ => _ end = Some _ -> _ =>
      destruct x; try discriminate
  | |- (if ?x then _ else _) = Some _ -> _ =>
      destruct x; try discriminate
  end.
  intros H. apply checked_Some in H. destruct H as [-> H]. exact H.
Qed.

Lemma parse_timestamp_valid (s : str) (d : datetime) :
  parse_timestamp py s = Some d -> valid_datetime d = true.
Proof.
  unfold parse_timestamp.
  destruct (re_search (timestamp_re py) s) as [[i ps]|]; [|discriminate].
  apply strptime_valid.
Qed.

Lemma extract_messages_timestamp (blob : str) (m : message) :
  In m (extract_messages py blob) -> written_timestamp (timestamp m).
Proof.
  intros Hin. destruct (extract_messages_In _ _ _ Hin) as (g & block & H).
  pose proof (process_block_Some _ _ _ _ H) as (Hm & _). cbv zeta in Hm.
  subst m. cbn [timestamp].
  destruct (parse_timestamp py (strip block)) as [d|] eqn:E; [right|left; reflexivity].
  exists d. split; [eapply parse_timestamp_valid, E | reflexivity].
Qed.

End TimestampFacts.

Lemma sort_key_written (m : message) :
  written_timestamp (timestamp m) ->
  sort_key m = match timestamp m with Some t => t | None => [] end /\
  match timestamp m with Some t => t <> [] | None => True end.
Proof.
  unfold sort_key. intros [->|(d & _ & ->)]; [auto|].
  split; [reflexivity | discriminate].
Qed.

(** On written timestamps the order of the keys is the order of the
    timestamps. *)
Lemma key_le_ts_leb (a b : message) :
  written_timestamp (timestamp a) -> written_timestamp (timestamp b) ->
  (key_le sort_key a b <-> ts_leb (timestamp a) (timestamp b) = true).
Proof.
  intros Ha Hb. unfold key_le.
  destruct (sort_key_written a Ha) as [-> Na], (sort_key_written b Hb) as [-> Nb].
  destruct (timestamp a) as [x|], (timestamp b) as [y|]; cbn [ts_leb].
  - rewrite negb_true_iff. tauto.
  - destruct x; [congruence|]. simpl. split; discriminate.
  - destruct y; simpl; tauto.
  - simpl. tauto.
Qed.

Lemma ts_leb_refl (t : option str) : ts_leb t t = true.
Proof. destruct t; simpl; [rewrite str_ltb_irrefl|]; reflexivity. Qed.

(** *** The order of dates and times *)

Lemma lex_ltb_cons (x y : Z) (a b : list Z) :
  lex_ltb (x :: a) (y :: b) = true <->
  (x < y)%Z \/ (x = y /\ lex_ltb a b = true).
Proof.
  simpl. rewrite orb_true_iff, andb_true_iff, Z.ltb_lt, Z.eqb_eq. tauto.
Qed.

Lemma lex_ltb_irrefl (a : list Z) : lex_ltb a a = false.
Proof.
  induction a as [|x a IH]; [reflexivity|].
  apply not_true_is_false. rewrite lex_ltb_cons. intros [H|[_ H]]; [lia|congruence].
Qed.

Lemma lex_ltb_asym (a b : list Z) : lex_ltb a b = true -> lex_ltb b a = false.
Proof.
  revert b. induction a as [|x a IH]; intros [|y b] H; try reflexivity; try discriminate.
  apply not_true_is_false. rewrite lex_ltb_cons in *.
  intros [H'|[-> H']]; destruct H as [H|[E H]]; try lia.
  apply IH in H. congruence.
Qed.

Lemma lex_ltb_between (a b c : list Z) :
  length a = length b ->
  lex_ltb a c = true -> lex_ltb a b = true \/ lex_ltb b c = true.
Proof.
  revert b c. induction a as [|x a IH]; intros [|y b] [|z c] Hl H;
    try discriminate.
  rewrite !lex_ltb_cons in *. injection Hl as Hl.
  destruct (Z.lt_total x y) as [L|[E|L]]; auto.
  - subst y. destruct H as [H|[-> H]]; auto.
    destruct (IH b c Hl H); auto.
  - destruct H as [H|[-> H]]; right; left; lia.
Qed.

Lemma lex_ltb_total (a b : list Z) :
  length a = length b ->
  lex_ltb b a = false -> lex_ltb a b = true \/ a = b.
Proof.
  revert b. induction a as [|x a IH]; intros [|y b] Hl H; try discriminate; auto.
  injection Hl as Hl. rewrite lex_ltb_cons.
  assert (N : ~ ((y < x)%Z \/ y = x /\ lex_ltb b a = true))
    by (rewrite <- lex_ltb_cons; congruence).
  destruct (Z.lt_total x y) as [L|[E|L]]; [tauto| |tauto].
  subst y. destruct (lex_ltb b a) eqn:Eb; [tauto|].
  destruct (IH b Hl Eb) as [?| ->]; auto.
Qed.

Lemma dt_ltb_irrefl (d : datetime) : dt_ltb d d = false.
Proof. apply lex_ltb_irrefl. Qed.

Lemma dt_ltb_asym (a b : datetime) : dt_ltb a b = true -> dt_ltb b a = false.
Proof. apply lex_ltb_asym. Qed.

Lemma dt_ltb_between (a b c : datetime) :
  dt_ltb a c = true -> dt_ltb a b = true \/ dt_ltb b c = true.
Proof. apply lex_ltb_between. reflexivity. Qed.

Lemma dt_ltb_total (a b : datetime) :
  dt_ltb b a = false -> dt_ltb a b = true \/ a = b.
Proof.
  intros H. destruct (lex_ltb_total (dt_key a) (dt_key b) eq_refl H) as [L|E]; auto.
  right. destruct a, b. unfold dt_key in E. simpl in E. congruence.
Qed.

(** [min] and [max] give an element of the list, below and above the rest. *)
Lemma min_from_spec (l : list datetime) (best : datetime) :
  In (min_from best l) (best :: l) /\
  forall d, In d (best :: l) -> dt_ltb d (min_from best l) = false.
Proof.
  revert best. induction l as [|x l IH]; intros best.
  - simpl. split; [auto|]. intros d [<-|[]]. apply dt_ltb_irrefl.
  - cbn [min_from]. destruct (IH (if dt_ltb x best then x else best)) as [Hin Hle].
    split.
    + destruct Hin as [E|Hin]; [|right; right; exact Hin].
      rewrite <- E. destruct (dt_ltb x best); simpl; auto.
    + intros d Hd. apply not_true_is_false. intros Hlt.
      assert (Hb : dt_ltb (if dt_ltb x best then x else best)
                     (min_from (if dt_ltb x best then x else best) l) = false)
        by (apply Hle; left; reflexivity).
      destruct Hd as [<-|[<-|Hd]].
      * destruct (dt_ltb x best) eqn:E.
        -- destruct (dt_ltb_between _ x _ Hlt) as [H|H]; [|congruence].
           apply dt_ltb_asym in H. congruence.
        -- congruence.
      * destruct (dt_ltb x best) eqn:E.
        -- congruence.
        -- destruct (dt_ltb_between _ best _ Hlt) as [H|H]; congruence.
      * rewrite Hle in Hlt by (right; exact Hd). discriminate.
Qed.

Lemma max_from_spec (l : list datetime) (best : datetime) :
  In (max_from best l) (best :: l) /\
  forall d, In d (best :: l) -> dt_ltb (max_from best l) d = false.
Proof.
  revert best. induction l as [|x l IH]; intros best.
  - simpl. split; [auto|]. intros d [<-|[]]. apply dt_ltb_irrefl.
  - cbn [max_from]. destruct (IH (if dt_ltb best x then x else best)) as [Hin Hle].
    split.
    + destruct Hin as [E|Hin]; [|right; right; exact Hin].
      rewrite <- E. destruct (dt_ltb best x); simpl; auto.
    + intros d Hd. apply not_true_is_false. intros Hlt.
      assert (Hb : dt_ltb (max_from (if dt_ltb best x then x else best) l)
                     (if dt_ltb best x then x else best) = false)
        by (apply Hle; left; reflexivity).
      destruct Hd as [<-|[<-|Hd]].
      * destruct (dt_ltb best x) eqn:E.
        -- destruct (dt_ltb_between _ x _ Hlt) as [H|H]; [congruence|].
           apply dt_ltb_asym in H. congruence.
        -- congruence.
      * destruct (dt_ltb best x) eqn:E.
        -- congruence.
        -- destruct (dt_ltb_between _ best _ Hlt) as [H|H]; congruence.
      * rewrite Hle in Hlt by (right; exact Hd). discriminate.
Qed.

(** *** The ordinal of a date grows with the date *)



Lemma days_before_year_succ (y : Z) :
  days_before_year (y + 1) = (days_before_year y + 365 + leap_day y)%Z.
Proof.
  unfold days_before_year, leap_day, is_leap.
  replace (y + 1 - 1)%Z with y by lia.
  destruct (y mod 4 =? 0)%Z eqn:E4; destruct (y mod 100 =? 0)%Z eqn:E100;
    destruct (y mod 400 =? 0)%Z eqn:E400; cbn [andb orb negb];
    rewrite ?Z.eqb_eq, ?Z.eqb_neq in *; Z.div_mod_to_equations; lia.
Qed.

Lemma days_before_year_mono (y y' : Z) :
  (y <= y')%Z -> (days_before_year y <= days_before_year y')%Z.
Proof.
  unfold days_before_year. intros H. Z.div_mod_to_equations. lia.
Qed.

Ltac month_cases m H :=
  let E := fresh in
  assert (E : (m = 1 \/ m = 2 \/ m = 3 \/ m = 4 \/ m = 5 \/ m = 6 \/ m = 7 \/
              m = 8 \/ m = 9 \/ m = 10 \/ m = 11 \/ m = 12)%Z) by lia;
  clear H;
  repeat (destruct E as [E|E]); subst m.

Lemma days_before_month_step (y m : Z) :
  (1 <= m <= 12)%Z ->
  (0 <= days_before_month y m /\
   days_before_month y m + days_in_month y m = days_before_month y (m + 1) /\
   days_before_month y (m + 1) <= 365 + leap_day y)%Z.
Proof.
  intros H. unfold leap_day.
  month_cases m H; cbv - [is_leap Z.le]; destruct (is_leap y);
    cbv - [Z.le]; lia.
Qed.

Lemma days_before_month_mono (y m m' : Z) :
  (1 <= m <= m')%Z -> (m' <= 13)%Z ->
  (days_before_month y m <= days_before_month y m')%Z.
Proof.
  intros H H'.
  replace m' with (m + Z.of_nat (Z.to_nat (m' - m)))%Z by lia.
  assert (Hk : (m + Z.of_nat (Z.to_nat (m' - m)) <= 13)%Z) by lia.
  induction (Z.to_nat (m' - m)) as [|k IH]; [rewrite Z.add_0_r; lia|].
  replace (m + Z.of_nat (S k))%Z with (m + Z.of_nat k + 1)%Z in * by lia.
  pose proof (@days_before_month_step y (m + Z.of_nat k)%Z).
  pose proof (days_in_month_le y (m + Z.of_nat k)%Z). lia.
Qed.

Lemma toordinal_bounds (d : datetime) :
  valid_datetime d = true ->
  (days_before_year (year d) < toordinal d <= days_before_year (year d + 1))%Z /\
  (0 <= hour d * 3600 + minute d * 60 + second d < 86400)%Z.
Proof.
  intros H. apply valid_datetime_spec in H. unfold toordinal.
  rewrite days_before_year_succ.
  pose proof (@days_before_month_step (year d) (month d)).
  lia.
Qed.

(** A later date and time is more seconds from the epoch. *)
Lemma seconds_of_mono (a b : datetime) :
  valid_datetime a = true -> valid_datetime b = true ->
  dt_ltb a b = true -> (seconds_of a < seconds_of b)%Z.
Proof.
  intros Ha Hb H.
  pose proof (@toordinal_bounds a Ha) as [Oa Ta].
  pose proof (@toordinal_bounds b Hb) as [Ob Tb].
  apply valid_datetime_spec in Ha, Hb.
  unfold dt_ltb, dt_key in H. rewrite !lex_ltb_cons in H.
  unfold seconds_of.
  destruct H as [H|[Ey [H|[Em [H|[Ed H]]]]]].
  - pose proof (@days_before_year_mono (year a + 1) (year b)). lia.
  - assert (toordinal a < toordinal b)%Z; [|lia].
    unfold toordinal. rewrite <- Ey.
    pose proof (@days_before_month_step (year a) (month a)).
    pose proof (@days_before_month_mono (year a) (month a + 1) (month b)).
    lia.
  - assert (toordinal a < toordinal b)%Z; [|lia].
    unfold toordinal. rewrite <- Ey, <- Em. lia.
  - assert (toordinal a = toordinal b)%Z
      by (unfold toordinal; rewrite <- Ey, <- Em, <- Ed; reflexivity).
    destruct H as [H|[Eh [H|[En [H|[Es H]]]]]]; [lia..|discriminate H].
Qed.

Lemma seconds_between_nonneg (a b : datetime) :
  valid_datetime a = true -> valid_datetime b = true ->
  dt_ltb b a = false -> (0 <= seconds_between a b)%Z.
Proof.
  intros Ha Hb H. unfold seconds_between.
  destruct (@dt_ltb_total a b H) as [L| ->]; [|lia].
  pose proof (@seconds_of_mono a b Ha Hb L). lia.
Qed.

(** C3. The messages are sorted by timestamp, a missing timestamp first,
    and stably: the output is a rearrangement of the extracted messages;
    of two messages in it the earlier has the timestamp that is not
    greater, so a message with a smaller timestamp stands before one with
    a greater (one without a timestamp before every dated one); and the
    messages of one key are in the order of extraction. *)
Theorem C3_sorted_by_timestamp : forall (py : runtime) (blob : str),
  let emitted := extract_messages py blob in
  let out := list_sort sort_key emitted in
  Permutation emitted out /\
  (forall i j a b, nth_error out i = Some a -> nth_error out j = Some b ->
     (i < j -> ts_leb (timestamp a) (timestamp b) = true) /\
     (ts_leb (timestamp b) (timestamp a) = false -> i < j)) /\
  (forall k, filter (has_key sort_key k) out = filter (has_key sort_key k) emitted).
Proof.
  intros py blob emitted out.
  assert (Hperm : Permutation emitted out) by apply list_sort_perm.
  assert (Hw : forall i a, nth_error out i = Some a -> written_timestamp (timestamp a)).
  { intros i a Hi. apply (extract_messages_timestamp py blob).
    eapply Permutation_in; [symmetry; exact Hperm|]. eapply nth_error_In, Hi. }
  assert (Hlt : forall i j a b, nth_error out i = Some a -> nth_error out j = Some b ->
                i < j -> ts_leb (timestamp a) (timestamp b) = true).
  { intros i j a b Hi Hj Hij. apply key_le_ts_leb; eauto.
    eapply sorted_nth; [apply list_sort_sorted|exact Hij|exact Hi|exact Hj]. }
  split; [exact Hperm|]. split; [|intros k; apply list_sort_stable].
  intros i j a b Hi Hj. split; [eauto|].
  intros Hba. destruct (Nat.lt_trichotomy i j) as [L|[E|L]]; [exact L| |].
  - subst j. rewrite Hi in Hj. injection Hj as <-.
    rewrite ts_leb_refl in Hba. discriminate.
  - rewrite (Hlt _ _ _ _ Hj Hi L) in Hba. discriminate.
Qed.

(** ** The time window *)

Lemma timestamps_of_cons (m : message) (msgs : list message) (d : datetime) :
  timestamp m = Some (isoformat d) -> valid_datetime d = true ->
  timestamps_of (m :: msgs) = (ds <- timestamps_of msgs ;; Ok (d :: ds)).
Proof.
  intros Ht Hv. cbn [timestamps_of]. rewrite Ht.
  pose proof (fromisoformat_isoformat d Hv) as Hf.
  pose proof (isoformat_length d) as Hl.
  destruct (isoformat d) as [|c ts]; [discriminate|].
  rewrite Hf. reflexivity.
Qed.

Lemma timestamps_of_written (msgs : list message) :
  Forall (fun m => written_timestamp (timestamp m)) msgs ->
  exists ds, timestamps_of msgs = Ok ds /\
             Forall (fun d => valid_datetime d = true) ds /\
             map isoformat ds = dated_strings msgs.
Proof.
  induction 1 as [|m msgs Hm _ (ds & Hds & Hv & Hiso)].
  - exists []. repeat split; constructor.
  - destruct Hm as [Hm|(d & Hd & Hm)].
    + exists ds. cbn [timestamps_of dated_strings flat_map]. rewrite Hm. auto.
    + exists (d :: ds). rewrite (timestamps_of_cons m msgs d Hm Hd), Hds.
      cbn [bind dated_strings flat_map map]. rewrite Hm.
      repeat split; [constructor; assumption|].
      cbn [app]. f_equal. exact Hiso.
Qed.

Lemma timestamps_of_undated (msgs : list message) :
  (forall m, In m msgs -> timestamp m = None) -> timestamps_of msgs = Ok [].
Proof.
  induction msgs as [|m msgs IH]; intros H; [reflexivity|].
  cbn [timestamps_of]. rewrite (H m) by (left; reflexivity).
  apply IH. intros m' Hm'. apply H. right. exact Hm'.
Qed.

Lemma sorted_messages_written (py : runtime) (blob : str) :
  Forall (fun m => written_timestamp (timestamp m))
    (list_sort sort_key (extract_messages py blob)).
Proof.
  apply Forall_forall. intros m Hm.
  apply (extract_messages_timestamp py blob).
  eapply Permutation_in; [symmetry; apply list_sort_perm|exact Hm].
Qed.

(** The rounding on some durations: 450 s is 0.125 h, a tie, and goes to
    the even 0.12; 18 s is 0.005 h, whose float lies above the tie, and
    goes to 0.01; 9630 s is 2.675 h, whose float lies below, and goes to
    2.67. *)
Example hours_rounded_values :
  map hours_rounded [0; 18; 450; 3600; 9630]%Z =
  map (fun h => PrimFloat.div (float_of_Z h) (float_of_Z 100))
    [0; 1; 12; 100; 267]%Z.
Proof. vm_compute. reflexivity. Qed.

Example round_trip_window :
  calculate_time_window ascii_runtime
    (list_sort sort_key (extract_messages ascii_runtime round_trip_blob)) =
  Ok {| start := lit "2024-01-01 10:00:00"; end_ := lit "2024-01-01 10:00:00";
        duration_hours := Some (float_of_Z 0) |}.
Proof. vm_compute. reflexivity. Qed.

(** ** The seconds between two dates *)

Lemma days_in_year (y : Z) : days_before_month y 13 = (365 + leap_day y)%Z.
Proof.
  unfold leap_day. cbv - [is_leap]. destruct (is_leap y); reflexivity.
Qed.

Lemma next_second_seconds (d : datetime) :
  valid_datetime d = true -> seconds_of (next_second d) = (seconds_of d + 1)%Z.
Proof.
  intros Hv. apply valid_datetime_spec in Hv.
  pose proof (days_before_month_step (year d) (month d)) as Hm.
  unfold next_second, seconds_of, toordinal.
  destruct (second d <? 59)%Z eqn:Es; [cbn [year month day hour minute second]; lia|].
  destruct (minute d <? 59)%Z eqn:En; [cbn [year month day hour minute second]; lia|].
  destruct (hour d <? 23)%Z eqn:Eh; [cbn [year month day hour minute second]; lia|].
  destruct (day d <? days_in_month (year d) (month d))%Z eqn:Ed;
    [cbn [year month day hour minute second]; lia|].
  apply Z.ltb_ge in Es, En, Eh, Ed.
  destruct (month d <? 12)%Z eqn:Em; cbn [year month day hour minute second].
  - lia.
  - apply Z.ltb_ge in Em. assert (E12 : month d = 12%Z) by lia.
    rewrite E12 in *. rewrite days_before_year_succ.
    pose proof (days_in_year (year d)) as Hy.
    change (days_before_month (year d + 1) 1) with 0%Z.
    change (12 + 1)%Z with 13%Z in Hm. lia.
Qed.

Lemma next_second_valid (d b : datetime) :
  valid_datetime d = true -> valid_datetime b = true -> dt_ltb d b = true ->
  valid_datetime (next_second d) = true.
Proof.
  intros Hv Hb Hlt. apply valid_datetime_spec in Hv, Hb.
  pose proof (days_in_month_le (year b) (month b)) as Hdb.
  pose proof (days_in_month_le (year d) (month d + 1)) as Hd1.
  pose proof (days_in_month_le (year d + 1) 1) as Hd2.
  unfold dt_ltb, dt_key in Hlt. rewrite !lex_ltb_cons in Hlt.
  apply valid_datetime_spec. unfold next_second.
  destruct (second d <? 59)%Z eqn:Es; [cbn [year month day hour minute second]; lia|].
  destruct (minute d <? 59)%Z eqn:En; [cbn [year month day hour minute second]; lia|].
  destruct (hour d <? 23)%Z eqn:Eh; [cbn [year month day hour minute second]; lia|].
  destruct (day d <? days_in_month (year d) (month d))%Z eqn:Ed;
    [apply Z.ltb_lt in Ed; cbn [year month day hour minute second]; lia|].
  apply Z.ltb_ge in Es, En, Eh, Ed.
  destruct (month d <? 12)%Z eqn:Em; cbn [year month day hour minute second].
  - apply Z.ltb_lt in Em. lia.
  - apply Z.ltb_ge in Em. assert (E12 : month d = 12%Z) by lia.
    rewrite E12 in *. change (days_in_month (year d) 12) with 31%Z in *.
    assert (year d < 9999)%Z; [|lia].
    destruct Hlt as [H|[Ey [H|[Emo [H|[Eda H]]]]]]; try lia.
    destruct H as [H|[Eh' [H|[En' [H|[Es' H]]]]]]; try lia. discriminate H.
Qed.

(** The seconds from [a] to [b] are the steps of the clock from [a] to
    [b]. *)
Lemma seconds_between_steps (a b : datetime) :
  valid_datetime a = true -> valid_datetime b = true -> dt_ltb b a = false ->
  Nat.iter (Z.to_nat (seconds_between a b)) next_second a = b.
Proof.
  remember (Z.to_nat (seconds_between a b)) as n eqn:En.
  revert a En. induction n as [|n IH]; intros a En Ha Hb Hle.
  - destruct (dt_ltb_total a b Hle) as [Hlt| ->]; [|reflexivity].
    pose proof (seconds_of_mono a b Ha Hb Hlt). unfold seconds_between in En. lia.
  - destruct (dt_ltb_total a b Hle) as [Hlt| ->];
      [|unfold seconds_between in En; lia].
    pose proof (next_second_valid a b Ha Hb Hlt) as Ha'.
    pose proof (next_second_seconds a Ha) as Hs.
    rewrite Nat.iter_succ_r. apply IH.
    + unfold seconds_between in *. lia.
    + exact Ha'.
    + exact Hb.
    + destruct (dt_ltb b (next_second a)) eqn:E; [|reflexivity].
      pose proof (seconds_of_mono b (next_second a) Hb Ha' E).
      unfold seconds_between in En. lia.
Qed.

(** ** Rounding to two places *)

Lemma round_half_even_nearest (num den : Z) :
  (0 < den)%Z -> nearest_even num den (round_half_even num den).
Proof.
  intros Hd. unfold nearest_even, round_half_even.
  pose proof (Z.div_mod num den ltac:(lia)) as Hdm.
  pose proof (Z.mod_pos_bound num den Hd) as Hb.
  set (q := (num / den)%Z) in *. set (m := (num mod den)%Z) in *.
  assert (E0 : (num - q * den = m)%Z) by lia.
  assert (E1 : (num - (q + 1) * den = m - den)%Z) by lia.
  destruct (2 * m ?= den)%Z eqn:E.
  - apply Z.compare_eq in E. destruct (Z.even q) eqn:Ev.
    + rewrite E0. split; [lia|]. intros _. exact Ev.
    + rewrite E1. split; [lia|]. intros _. rewrite Z.even_add, Ev. reflexivity.
  - assert (E' : (2 * m < den)%Z) by (apply Z.compare_lt_iff; exact E).
    rewrite E0. split; [lia|intros H; lia].
  - assert (E' : (den < 2 * m)%Z) by (apply Z.compare_gt_iff; exact E).
    rewrite E1. split; [lia|intros H; lia].
Qed.

Lemma nearest_even_unique (num den h h' : Z) :
  (0 < den)%Z -> nearest_even num den h -> nearest_even num den h' -> h = h'.
Proof.
  intros Hd [H1 T1] [H2 T2].
  assert (Hc : (h = h' \/ h = h' + 1 \/ h' = h + 1)%Z) by nia.
  destruct Hc as [E|[E|E]]; [exact E| |]; exfalso.
  - assert (A1 : Z.abs (2 * (num - h * den)) = den) by nia.
    assert (A2 : Z.abs (2 * (num - h' * den)) = den) by nia.
    specialize (T1 A1). specialize (T2 A2).
    rewrite E, Z.even_add, T2 in T1. discriminate T1.
  - assert (A1 : Z.abs (2 * (num - h * den)) = den) by nia.
    assert (A2 : Z.abs (2 * (num - h' * den)) = den) by nia.
    specialize (T1 A1). specialize (T2 A2).
    rewrite E, Z.even_add, T1 in T2. discriminate T2.
Qed.

Lemma nearest_even_opp (num den h : Z) :
  nearest_even num den h -> nearest_even (- num) den (- h).
Proof.
  unfold nearest_even. intros [H T].
  replace (2 * (- num - - h * den))%Z with (- (2 * (num - h * den)))%Z by lia.
  rewrite Z.abs_opp, Z.even_opp. auto.
Qed.

Lemma py_round2_rounds (x : PrimFloat.float) :
  rounded_to_two_places x (py_round2 x).
Proof.
  unfold rounded_to_two_places, py_round2.
  destruct (FloatOps.Prim2SF x) as [| | |sg m e]; try reflexivity.
  assert (H : nearest_even (Zpos m * 100 * 2 ^ Z.max e 0) (2 ^ Z.max (- e) 0)
                (if (0 <=? e)%Z then (Zpos m * 2 ^ e * 100)%Z
                 else round_half_even (Zpos m * 100) (2 ^ (- e)))).
  { destruct (0 <=? e)%Z eqn:E.
    - apply Z.leb_le in E. rewrite Z.max_l, Z.max_r by lia.
      change (2 ^ 0)%Z with 1%Z. unfold nearest_even.
      replace (2 * (Zpos m * 100 * 2 ^ e - Zpos m * 2 ^ e * 100 * 1))%Z with 0%Z by lia.
      split; [simpl; lia|]. simpl. lia.
    - apply Z.leb_gt in E. rewrite Z.max_r, Z.max_l by lia.
      change (2 ^ 0)%Z with 1%Z. rewrite Z.mul_1_r.
      apply round_half_even_nearest. apply Z.pow_pos_nonneg; lia. }
  destruct sg.
  - eexists. split; [|reflexivity].
    replace (- Zpos m * 100 * 2 ^ Z.max e 0)%Z
      with (- (Zpos m * 100 * 2 ^ Z.max e 0))%Z by lia.
    apply nearest_even_opp, H.
  - eexists. split; [exact H|reflexivity].
Qed.

(** [float_of_Z] gives the float nearest to a whole number that fits in
    63 bits. *)
Lemma float_of_Z_nearest (z : Z) :
  (0 <= z < 2 ^ 63)%Z ->
  FloatOps.Prim2SF (float_of_Z z) =
  SpecFloat.binary_normalize FloatOps.prec FloatOps.emax z 0 false.
Proof.
  intros H. unfold float_of_Z.
  destruct (z <? 0)%Z eqn:E; [apply Z.ltb_lt in E; lia|].
  rewrite FloatAxioms.of_uint63_spec. f_equal.
  rewrite Uint63.of_Z_spec. apply Z.mod_small. exact H.
Qed.

Lemma seconds_of_bounds (d : datetime) :
  valid_datetime d = true -> (0 <= seconds_of d < 2 ^ 40)%Z.
Proof.
  intros Hv. pose proof (toordinal_bounds d Hv) as [Ho Ht].
  apply valid_datetime_spec in Hv.
  pose proof (days_before_year_mono 1 (year d) ltac:(lia)) as H1.
  pose proof (days_before_year_mono (year d + 1) 10000 ltac:(lia)) as H2.
  change (days_before_year 1) with 0%Z in H1.
  change (days_before_year 10000) with 3652059%Z in H2.
  unfold seconds_of. change (2 ^ 40)%Z with 1099511627776%Z. lia.
Qed.


(** ** Splitting, and the timestamp of a block *)

Lemma split_from_tl (r : regex) (grp : option (nat * nat)) (s : str) :
  forall skip cur cur',
  tl (split_from r grp skip cur s) = tl (split_from r grp skip cur' s).
Proof.
  induction s as [|c s IH]; intros skip cur cur'; [reflexivity|].
  cbn [split_from]. destruct skip as [|k]; [|apply IH].
  destruct (match_here r (c :: s)) as [ps|]; [|apply IH].
  destruct (length (concat ps)); [apply IH | reflexivity].
Qed.

Lemma re_search_spec (r : regex) (s : str) :
  match re_search r s with
  | Some (i, ps) =>
      i <= length s /\ match_here r (skipn i s) = Some ps /\
      forall j, j < i -> match_here r (skipn j s) = None
  | None => forall j, j <= length s -> match_here r (skipn j s) = None
  end.
Proof.
  induction s as [|c s IH]; cbn [re_search].
  - destruct (match_here r []) as [ps|] eqn:E.
    + split; [simpl; lia|]. split; [exact E | lia].
    + intros [|j] Hj; [exact E | simpl in Hj; lia].
  - destruct (match_here r (c :: s)) as [ps|] eqn:E.
    + split; [simpl; lia|]. split; [exact E | lia].
    + destruct (re_search r s) as [[i ps]|].
      * destruct IH as (Hi & Hm & Hn).
        split; [simpl; lia|]. split; [exact Hm|].
        intros [|j] Hj; [exact E | apply Hn; lia].
      * intros [|j] Hj; [exact E | apply IH; simpl in Hj; lia].
Qed.

Lemma split_from_unmatched (r : regex) (grp : option (nat * nat)) (s : str) :
  forall i cur, i <= length s ->
  (forall j, j < i -> match_here r (skipn j s) = None) ->
  split_from r grp 0 cur s =
  split_from r grp 0 (rev (firstn i s) ++ cur) (skipn i s).
Proof.
  induction s as [|c s IH]; intros i cur Hi Hn.
  - simpl in Hi. replace i with 0 by lia. reflexivity.
  - destruct i as [|i]; [reflexivity|].
    cbn [split_from firstn skipn rev].
    rewrite (Hn 0 (Nat.lt_0_succ i) : match_here r (c :: s) = None).
    rewrite <- app_assoc. cbn [app].
    apply IH; [simpl in Hi; lia|].
    intros j Hj. apply (Hn (S j)). lia.
Qed.

(** C8. What stands before the first [**Group: ...**] header gives no
    message: the output is that of the blob without it, and a blob with
    no header gives no message at all. *)
Theorem C8_text_before_first_header : forall (py : runtime) (blob : str),
  match re_search group_re blob with
  | Some (i, _) => extract_messages py blob = extract_messages py (skipn i blob)
  | None => extract_messages py blob = []
  end.
Proof.
  intros py blob. pose proof (re_search_spec group_re blob) as H.
  unfold extract_messages, re_split.
  destruct (re_search group_re blob) as [[i ps]|].
  - destruct H as (Hi & _ & Hn).
    rewrite (split_from_unmatched _ _ _ i [] Hi Hn).
    rewrite (split_from_tl _ _ _ 0 _ []). reflexivity.
  - rewrite (split_from_unmatched _ _ _ (length blob) [] (le_n _)).
    + rewrite skipn_all. reflexivity.
    + intros j Hj. apply H. lia.
Qed.

(** C7. When the bracketed pattern matches in a block and what it
    captured is no date and time, [parse_timestamp] gives [None] and the
    block goes on: if it passes the other tests it becomes a message with
    no timestamp. *)
Theorem C7_invalid_timestamp_is_none :
  forall (py : runtime) (g block : str) (i : nat) (pieces : list str),
  let b := strip block in
  re_search (timestamp_re py) b = Some (i, pieces) ->
  strptime py (group_text 1 11 pieces) = None ->
  parse_timestamp py b = None /\
  (50 <= length b ->
   contains_excluded_content py (clean_text py b) = false ->
   existsb (fun phrase => contains phrase (lower py (clean_text py b)))
     promotional_phrases = false ->
   100 < length (clean_text py b) ->
   process_block py g block =
   Some {| timestamp := None; group := g; text := clean_text py b;
           original_length := length b |}).
Proof.
  intros py g block i pieces b Hs Hp.
  assert (Hnone : parse_timestamp py b = None)
    by (unfold parse_timestamp; rewrite Hs; exact Hp).
  split; [exact Hnone|].
  intros H50 Hex Hpromo H100. unfold process_block. fold b.
  replace (length b =? 0) with false by (symmetry; apply Nat.eqb_neq; lia).
  replace (length b <? 50) with false by (symmetry; apply Nat.ltb_ge; lia).
  cbn [orb]. rewrite Hex, Hpromo, Hnone.
  replace (length (clean_text py b) =? 0) with false
    by (symmetry; apply Nat.eqb_neq; lia).
  replace (100 <? length (clean_text py b)) with true
    by (symmetry; apply Nat.ltb_lt; lia).
  reflexivity.
Qed.

Lemma C7_invalid_timestamp_is_none_witness :
  parse_timestamp ascii_runtime (strip C7_block) = None /\
  process_block ascii_runtime (lit "A") C7_block =
  Some {| timestamp := None; group := lit "A";
          text := clean_text ascii_runtime (strip C7_block);
          original_length := length (strip C7_block) |}.
Proof.
  destruct (C7_invalid_timestamp_is_none ascii_runtime (lit "A") C7_block 0
              (map lit ["["; "2024"; "-"; "13"; "-"; "01"; " "; "10"; ":"; "00";
                        ":"; "00"; "]"]%string)) as [H1 H2];
    [vm_compute; reflexivity | vm_compute; reflexivity |].
  split; [exact H1|].
  apply H2; vm_compute; [lia | reflexivity | reflexivity | lia].
Defined.

(** ** The run, and the content filter *)

(** C9 (the code departs from it). A run on a blob that gives no dated
    message writes its document and then raises [KeyError]: the report
    reads [time_window['duration_hours']], which the [Unknown] window
    lacks. *)
Theorem C9_report_raises_without_dates : forall (py : runtime) (now : str),
  preprocess_messages py now (lit "hello") =
  (Some {| total_messages := 0;
           window := {| start := lit "Unknown"; end_ := lit "Unknown";
                        duration_hours := None |};
           processed_at := now;
           messages := [] |},
   Raise (KeyError "duration_hours")).
Proof. intros py now. vm_compute. reflexivity. Qed.

(** How a run ends: with [KeyError] when no message is dated, and
    normally when one is. *)
Lemma preprocess_messages_end (py : runtime) (now news_content : str) :
  ((forall m, In m (extract_messages py news_content) -> timestamp m = None) ->
   snd (preprocess_messages py now news_content) = Raise (KeyError "duration_hours")) /\
  ((exists m, In m (extract_messages py news_content) /\ timestamp m <> None) ->
   snd (preprocess_messages py now news_content) = Ok tt).
Proof.
  unfold preprocess_messages.
  set (msgs := list_sort sort_key (extract_messages py news_content)).
  assert (Hperm : Permutation (extract_messages py news_content) msgs)
    by apply list_sort_perm.
  split.
  - intros H. unfold calculate_time_window.
    rewrite timestamps_of_undated; [reflexivity|].
    intros m Hm. apply H. eapply Permutation_in; [symmetry; exact Hperm|exact Hm].
  - intros (m & Hm & Ht).
    destruct (timestamps_of_written msgs (sorted_messages_written py news_content))
      as (ds & Hds & _ & Hiso).
    unfold calculate_time_window. rewrite Hds. cbn [bind].
    destruct ds as [|d ds]; [exfalso|reflexivity].
    apply (Permutation_in _ Hperm) in Hm.
    apply in_split in Hm. destruct Hm as (l1 & l2 & E).
    rewrite E in Hiso. unfold dated_strings in Hiso.
    rewrite flat_map_app in Hiso. cbn [flat_map] in Hiso.
    destruct (timestamp m); [|congruence].
    symmetry in Hiso. apply app_eq_nil in Hiso. destruct Hiso as [_ Hiso].
    discriminate.
Qed.

(** C5 as stated fails: the raw text of this block holds "Israel", in a
    mention that the cleaner removes before the filter looks, and the
    block gives a message. *)
Lemma C5_counterexample :
  contains (lit "Israel") (strip C5_block) = true /\
  (forall py, process_block py (lit "G") C5_block = Some C5_message) /\
  (forall py, extract_messages py C5_blob = [C5_message]).
Proof. repeat split; intros; vm_compute; reflexivity. Qed.

(** C6 as stated fails: the text of this message holds a mention and a
    URL, put together when the link between [@] and [channel] and the
    dashes inside the URL were removed by later steps. *)
Lemma C6_counterexample :
  (forall py, extract_messages py C6_blob = [C6_message]) /\
  (forall py, re_search (mention_re py) (text C6_message) =
              Some (0, [lit "@"; lit "channel"])) /\
  re_search url_re (text C6_message) =
  Some (9, map lit ["h"; "t"; "t"; "p"; "s"; ":"; "/"; "/"; "example.org"]%string).
Proof. repeat split; intros; vm_compute; reflexivity. Qed.

Lemma starts_with_spec (p s : str) :
  starts_with p s = true <-> exists b, s = p ++ b.
Proof.
  revert s. induction p as [|x p IH]; intros s; simpl.
  - split; [exists s; reflexivity | reflexivity].
  - destruct s as [|y s].
    + split; [discriminate | intros [b Hb]; discriminate].
    + rewrite andb_true_iff, N.eqb_eq, IH. split.
      * intros [-> [b ->]]. exists b. reflexivity.
      * intros [b [= -> ->]]. eauto.
Qed.

Lemma contains_spec (needle hay : str) :
  contains needle hay = true <-> exists a b, hay = a ++ needle ++ b.
Proof.
  induction hay as [|c hay IH]; cbn [contains]; rewrite orb_true_iff, starts_with_spec.
  - split.
    + intros [[b Hb]|H]; [exists [], b; exact Hb | discriminate].
    + intros ([|x a] & b & H); [left; exists b; exact H | discriminate].
  - rewrite IH. split.
    + intros [[b Hb]|(a & b & ->)]; [exists [], b; exact Hb|].
      exists (c :: a), b. reflexivity.
    + intros ([|x a] & b & H); [left; exists b; exact H|].
      right. injection H as -> ->. eauto.
Qed.

Lemma ascii_lower_below (c : char) :
  (ascii_lower c < 128)%N -> (c < 128)%N.
Proof.
  unfold ascii_lower. destruct (in_range 65 90 c); lia.
Qed.

Section LowerFacts.

Variable py : runtime.

Lemma lower_from_skip (a rest before : str) :
  exists x,
    lower_from py before (a ++ rest) = x ++ lower_from py (rev a ++ before) rest.
Proof.
  revert before. induction a as [|c a IH]; intros before.
  - exists []. reflexivity.
  - cbn [app lower_from rev]. destruct (IH (c :: before)) as [x ->].
    rewrite <- app_assoc. cbn [app]. rewrite app_assoc. eauto.
Qed.

Lemma lower_from_ascii (w rest before : str) :
  Forall (fun c => (c < 128)%N) w ->
  lower_from py before (w ++ rest) =
  map ascii_lower w ++ lower_from py (rev w ++ before) rest.
Proof.
  intros H. revert before. induction H as [|c w Hc _ IH]; intros before.
  - reflexivity.
  - cbn [app lower_from rev map]. apply N.ltb_lt in Hc. rewrite Hc.
    rewrite IH, <- app_assoc. reflexivity.
Qed.

(** A text that holds a word in some letter case holds it lower-cased
    once [lower] is applied. *)
Lemma lower_contains (w s : str) :
  Forall (fun c => (ascii_lower c < 128)%N) w ->
  contains w s = true -> contains (map ascii_lower w) (lower py s) = true.
Proof.
  intros Hw H. apply contains_spec in H. destruct H as (a & b & ->).
  apply contains_spec. unfold lower.
  destruct (lower_from_skip a (w ++ b) []) as [x ->].
  rewrite lower_from_ascii.
  - eauto.
  - eapply Forall_impl; [|exact Hw]. apply ascii_lower_below.
Qed.

End LowerFacts.

(** C5, amended. The filter reads the cleaned text: no message of the
    output has an excluded term in its lower-cased text, and so none has
    "israel" in its text in any letter case. *)
Theorem C5_no_israel_in_cleaned_text :
  forall (py : runtime) (blob : str) (m : message),
  In m (extract_messages py blob) ->
  contains_excluded_content py (text m) = false /\
  forall w, map ascii_lower w = lit "israel" -> contains w (text m) = false.
Proof.
  intros py blob m Hin.
  destruct (extract_messages_In _ _ _ Hin) as (g & block & H).
  pose proof (process_block_Some _ _ _ _ H) as (Hm & _ & Hex & _).
  cbv zeta in Hm, Hex. subst m. cbn [text]. split; [exact Hex|].
  intros w Hw. apply not_true_is_false. intros Hc.
  apply (lower_contains py) in Hc.
  - rewrite Hw in Hc. unfold contains_excluded_content in Hex.
    cbn [excluded_terms map existsb] in Hex. rewrite Hc in Hex. discriminate.
  - assert (F : Forall (fun c => (c < 128)%N) (map ascii_lower w))
      by (rewrite Hw; repeat constructor).
    rewrite Forall_map in F. exact F.
Qed.

Lemma C5_no_israel_in_cleaned_text_witness :
  contains_excluded_content ascii_runtime (text round_trip_message) = false /\
  forall w, map ascii_lower w = lit "israel" ->
            contains w (text round_trip_message) = false.
Proof.
  apply (C5_no_israel_in_cleaned_text ascii_runtime round_trip_blob).
  vm_compute. left. reflexivity.
Defined.

(** ** What cleaning leaves in a text *)

Lemma match_here_plus_None (p : char -> bool) (c : char) (s : str) :
  match_here [plus p] (c :: s) = None -> p c = false.
Proof.
  intros H. destruct (p c) eqn:E; [exfalso|reflexivity].
  cbn [match_here] in H.
  pose proof (first_some_None _ _ _ _ H (span p None (c :: s))) as Hn.
  rewrite counts_In in Hn. cbn [plus rmin cls rmax span] in Hn.
  rewrite E in Hn. cbn [option_map] in Hn.
  assert (Some [firstn (S (span p None s)) (c :: s)] = None) by (apply Hn; lia).
  discriminate.
Qed.

(** Removing the runs of a set removes the set. *)
Lemma sub_from_plus (p : char -> bool) (s : str) :
  forall skip, Forall (fun c => p c = false) (sub_from [plus p] [] skip s).
Proof.
  induction s as [|c s IH]; intros skip; cbn [sub_from]; [constructor|].
  destruct skip as [|k]; [|apply IH].
  destruct (match_here [plus p] (c :: s)) as [ps|] eqn:E.
  - apply match_here_length in E. cbn in E.
    destruct (length (concat ps)); [lia|]. apply IH.
  - constructor; [eapply match_here_plus_None, E | apply IH].
Qed.

Lemma clean_text_no_emoji (py : runtime) (s : str) :
  Forall (fun c => is_emoji c = false) (clean_text py s).
Proof.
  unfold clean_text, remove_emojis.
  apply strip_Forall.
  do 8 (apply sub_from_Forall; [repeat constructor|]).
  apply sub_from_plus.
Qed.

(** *** A substitution leaves no match of its own pattern
    (for the patterns that end in a greedy run) *)

Lemma span_le_bound (p : char -> bool) (b : nat) (s : str) :
  span p (Some b) s <= b.
Proof.
  revert b. induction s as [|c s IH]; intros b; simpl; [lia|].
  destruct (p c); [|lia]. destruct b as [|b]; [lia|]. specialize (IH b). lia.
Qed.

Lemma span_ge (p : char -> bool) (x t : str) (bound : option nat) :
  forallb p x = true ->
  match bound with Some b => length x <= b | None => True end ->
  length x <= span p bound (x ++ t).
Proof.
  revert bound. induction x as [|c x IH]; intros bound Hx Hb; simpl; [lia|].
  simpl in Hx. apply andb_true_iff in Hx. destruct Hx as [-> Hx].
  destruct bound as [[|b]|]; simpl in Hb; [lia| |].
  - specialize (IH (Some b) Hx). simpl in IH. lia.
  - specialize (IH None Hx I). lia.
Qed.

Lemma match_here_fits (r : regex) (s : str) (ps : list str) :
  match_here r s = Some ps -> Forall2 fits r ps.
Proof.
  revert s ps. induction r as [|a r IH]; intros s ps; simpl.
  - intros [= <-]. constructor.
  - intros H. apply first_some_In in H. destruct H as (n & Hn & H).
    apply counts_In in Hn.
    destruct (match_here r (skipn n s)) as [ps'|] eqn:E; [|discriminate].
    simpl in H. injection H as <-.
    pose proof (span_le_length (cls a) (rmax a) s).
    constructor; [|eapply IH, E]. unfold fits.
    rewrite length_firstn, Nat.min_l by lia.
    split; [eapply span_forallb; apply Hn|]. split; [lia|].
    destruct (rmax a) as [b|]; [|exact I].
    pose proof (span_le_bound (cls a) b s). lia.
Qed.

(** The search finds a match wherever one exists. *)
Lemma match_here_complete (r : regex) (ps : list str) :
  Forall2 fits r ps ->
  forall t, match_here r (concat ps ++ t) <> None.
Proof.
  induction 1 as [|a piece r ps (Hc & Hmin & Hmax) _ IH]; intros t; simpl.
  - discriminate.
  - intros Hn. rewrite <- app_assoc in Hn.
    pose proof (first_some_None _ _ _ _ Hn (length piece)) as Hf.
    cbv beta in Hf.
    rewrite skipn_app, skipn_all, Nat.sub_diag in Hf. cbn [skipn app] in Hf.
    destruct (match_here r (concat ps ++ t)) eqn:E; [|exact (IH t E)].
    cbn [option_map] in Hf.
    assert (Hin : In (length piece)
                    (counts a (span (cls a) (rmax a) (piece ++ concat ps ++ t)))).
    { apply counts_In. split; [exact Hmin|]. apply span_ge; assumption. }
    specialize (Hf Hin). discriminate.
Qed.

Lemma sub_from_skip (r : regex) (repl : str) (s : str) :
  forall skip, sub_from r repl skip s = sub_from r repl 0 (skipn skip s).
Proof.
  induction s as [|c s IH]; intros [|k]; try reflexivity. simpl. apply IH.
Qed.

Lemma prefix_in_class (p : char -> bool) (m u x t : str) (z : char) :
  m ++ u = x ++ z :: t -> forallb p m = true -> p z = false ->
  exists v, x = m ++ v.
Proof.
  revert x. induction m as [|a m IH]; intros x E Hm Hz.
  - exists x. reflexivity.
  - simpl in Hm. apply andb_true_iff in Hm. destruct Hm as [Ha Hm].
    destruct x as [|b x]; simpl in E; injection E as -> E.
    + congruence.
    + destruct (IH x E Hm Hz) as [v ->]. exists v. reflexivity.
Qed.

Section GreedyTail.

(** A pattern that ends in [p+], takes one character first and then
    only characters of [p]. *)
Variables (first : atom) (middle : regex) (p : char -> bool).

Hypothesis first_one : rmin first = 1 /\ rmax first = Some 1.
Hypothesis middle_in_p :
  Forall (fun a => forall c, cls a c = true -> p c = true) middle.

Let r : regex := first :: middle ++ [plus p].

Lemma match_here_tail (f : regex) (s : str) (ps : list str) :
  match_here (f ++ [plus p]) s = Some ps ->
  junction p (skipn (length (concat ps)) s).
Proof.
  revert s ps. induction f as [|a f IH]; intros s ps H.
  - cbn [app match_here] in H. unfold counts in H.
    cbn [plus rmin rmax cls greedy] in H.
    destruct (span p None s) as [|k] eqn:Ek; cbn [Nat.sub] in H; [discriminate|].
    rewrite seq_S, rev_app_distr in H. cbn [rev app first_some option_map] in H.
    assert (E : ps = [firstn (S k) s]) by (injection H as <-; reflexivity).
    subst ps. clear H.
    pose proof (span_le_length p None s).
    replace (length (concat [firstn (S k) s])) with (span p None s).
    + apply span_stops.
    + cbn [concat]. rewrite app_nil_r, length_firstn. lia.
  - cbn [app match_here] in H. apply first_some_In in H.
    destruct H as (n & Hn & H). apply counts_In in Hn.
    destruct (match_here (f ++ [plus p]) (skipn n s)) as [ps'|] eqn:E; [|discriminate].
    simpl in H. injection H as <-.
    pose proof (span_le_length (cls a) (rmax a) s).
    cbn [concat]. rewrite length_app, length_firstn, Nat.min_l by lia.
    rewrite Nat.add_comm, <- skipn_skipn. eapply IH, E.
Qed.

Lemma match_here_in_p (s : str) (ps : list str) :
  match_here r s = Some ps ->
  exists c m, concat ps = c :: m /\ forallb p m = true.
Proof.
  intros H. apply match_here_fits in H. unfold r in H.
  inversion H as [|a piece r' ps' (Hc & Hmin & Hmax) Hrest]; subst.
  destruct first_one as [E1 E2]. rewrite E1 in Hmin. rewrite E2 in Hmax.
  destruct piece as [|c [|? ?]]; simpl in Hmin, Hmax; try lia.
  exists c, (concat ps'). split; [reflexivity|].
  clear H Hc Hmin Hmax.
  assert (Hall : Forall (fun a => forall c, cls a c = true -> p c = true)
                   (middle ++ [plus p])).
  { apply Forall_app. split; [exact middle_in_p|]. constructor; [|constructor].
    intros c' Hc'. exact Hc'. }
  revert Hall. induction Hrest as [|a piece r' ps' (Hc & _) _ IH]; intros Hall.
  - reflexivity.
  - inversion Hall as [|? ? Ha Hall']; subst. cbn [concat].
    rewrite forallb_app, (IH Hall'), andb_true_r.
    rewrite forallb_forall in *. intros x Hx. apply Ha, Hc, Hx.
Qed.

Lemma r_consumes (s : str) (ps : list str) :
  match_here r s = Some ps -> 1 <= length (concat ps) <= length s.
Proof.
  intros H. apply match_here_length in H. unfold r in H. simpl in H.
  destruct first_one as [E _]. rewrite E in H. lia.
Qed.

Lemma sub_from_junction (n : nat) :
  forall s, length s <= n -> junction p s -> junction p (sub_from r [] 0 s).
Proof.
  induction n as [|n IH]; intros [|z s] Hn Hj; try exact I; simpl in Hn; [lia|].
  cbn [sub_from]. destruct (match_here r (z :: s)) as [ps|] eqn:E; [|exact Hj].
  pose proof (r_consumes _ _ E) as Hl.
  pose proof (match_here_tail (first :: middle) _ _ E) as Ht.
  destruct (length (concat ps)) as [|k]; [lia|].
  cbn [app]. rewrite sub_from_skip. simpl in Ht, Hl.
  apply IH; [rewrite length_skipn; lia | exact Ht].
Qed.

Lemma sub_from_agree (s : str) : agree p s (sub_from r [] 0 s).
Proof.
  induction s as [|c s (x & rest & Hs & Hout)].
  - exists [], []. auto.
  - cbn [sub_from]. destruct (match_here r (c :: s)) as [ps|] eqn:E.
    + pose proof (r_consumes _ _ E) as Hl.
      pose proof (match_here_tail (first :: middle) _ _ E) as Ht.
      destruct (length (concat ps)) as [|k]; [lia|].
      cbn [app]. rewrite sub_from_skip. simpl in Ht, Hl.
      pose proof (sub_from_junction (length (skipn k s)) _ (le_n _) Ht) as Hj.
      exists [], (c :: s). split; [reflexivity|].
      destruct (sub_from r [] 0 (skipn k s)) as [|z t] eqn:Eo; [left; reflexivity|].
      right. exists (z :: t). split; [reflexivity|]. split; [discriminate|exact Hj].
    + exists (c :: x), rest. split; [simpl; congruence|].
      destruct Hout as [->|(t & -> & Ht)]; [left; reflexivity|].
      right. exists t. auto.
Qed.

Lemma no_match_head (c : char) (s out : str) :
  agree p s out -> match_here r (c :: s) = None -> match_here r (c :: out) = None.
Proof.
  intros (x & rest & -> & Hout) Hnone.
  destruct (match_here r (c :: out)) as [ps|] eqn:E; [exfalso|reflexivity].
  pose proof (match_here_fits _ _ _ E) as Hfits.
  destruct (match_here_pieces _ _ _ E) as [_ Hpre].
  destruct (match_here_in_p _ _ E) as (c' & m & Em & Hm).
  rewrite Em in Hpre. simpl in Hpre. injection Hpre as <- Hpre.
  assert (Hx : exists v, x = m ++ v).
  { destruct Hout as [->|(t & -> & Ht & Hj)].
    - eauto.
    - destruct t as [|z t]; [congruence|].
      symmetry in Hpre. exact (prefix_in_class p _ _ _ _ _ Hpre Hm Hj). }
  destruct Hx as [v ->].
  apply (match_here_complete _ _ Hfits (v ++ rest)).
  rewrite Em. simpl. rewrite <- app_assoc in Hnone. exact Hnone.
Qed.

(** After the substitution the pattern matches nowhere. *)
Lemma sub_from_no_match (n : nat) :
  forall s, length s <= n ->
  forall j, match_here r (skipn j (sub_from r [] 0 s)) = None.
Proof.
  assert (Hnil : match_here r [] = None).
  { destruct (match_here r []) as [ps|] eqn:E; [|reflexivity].
    pose proof (r_consumes _ _ E) as Hl. simpl in Hl. lia. }
  induction n as [|n IH]; intros [|c s] Hn j; simpl in Hn; try lia;
    try (cbn [sub_from]; rewrite skipn_nil; exact Hnil).
  cbn [sub_from]. destruct (match_here r (c :: s)) as [ps|] eqn:E.
  - pose proof (r_consumes _ _ E) as Hl.
    destruct (length (concat ps)) as [|k]; [lia|].
    cbn [app]. rewrite sub_from_skip. simpl in Hl.
    apply IH. rewrite length_skipn. lia.
  - destruct j as [|j]; cbn [skipn].
    + apply (no_match_head c s); [apply sub_from_agree | exact E].
    + apply IH. lia.
Qed.

Lemma re_sub_no_match (s : str) : re_search r (re_sub r [] s) = None.
Proof.
  pose proof (re_search_spec r (re_sub r [] s)) as H.
  destruct (re_search r (re_sub r [] s)) as [[i ps]|]; [|reflexivity].
  destruct H as (_ & H & _). unfold re_sub in H.
  rewrite (sub_from_no_match (length s) s (le_n _)) in H. discriminate.
Qed.

End GreedyTail.

Lemma mention_step_no_match (py : runtime) (t : str) :
  re_search (mention_re py) (re_sub (mention_re py) [] t) = None.
Proof.
  apply (re_sub_no_match (one (is_chr "@")) [] (is_word py)).
  - split; reflexivity.
  - constructor.
Qed.

Lemma is_code_not_space (k c : char) :
  not_space k = true -> (k =? c)%N = true -> not_space c = true.
Proof. intros Hk E. apply N.eqb_eq in E. subst c. exact Hk. Qed.

Lemma url_step_no_match (t : str) :
  re_search url_re (re_sub url_re [] t) = None.
Proof.
  apply (re_sub_no_match (one (N.eqb 104))
           (tl (lits "http") ++ [opt (is_chr "s")] ++ lits "://") not_space).
  - split; reflexivity.
  - repeat constructor; cbn [cls one opt]; intros c H;
      try (eapply is_code_not_space; [|exact H]; reflexivity).
    unfold is_chr in H. apply N.eqb_eq in H. subst c. reflexivity.
Qed.

(** ** Mentions and URLs that the later steps put together *)

Lemma match_here_one (q : char -> bool) (r : regex) (s : str) :
  match_here (one q :: r) s =
  match s with
  | c :: s' => if q c then option_map (cons [c]) (match_here r s') else None
  | [] => None
  end.
Proof.
  destruct s as [|c s']; [reflexivity|].
  cbn [match_here one cls rmax span]. destruct (q c); [|reflexivity].
  assert (E : span q (Some 0) s' = 0)
    by (destruct s' as [|c' s'']; [reflexivity|simpl; destruct (q c'); reflexivity]).
  rewrite E. change (counts (one q) 1) with [1].
  cbn [first_some firstn skipn]. destruct (match_here r s'); reflexivity.
Qed.

Lemma free_search (r : regex) (t : str) : re_search r t = None <-> free r t.
Proof.
  pose proof (re_search_spec r t) as H. split.
  - intros E j. rewrite E in H. destruct (Nat.le_gt_cases j (length t)) as [Hj|Hj].
    + apply H, Hj.
    + rewrite skipn_all2 by lia. rewrite <- (skipn_all t). apply H. lia.
  - intros Hf. destruct (re_search r t) as [[i ps]|]; [|reflexivity].
    destruct H as (_ & H & _). rewrite Hf in H. discriminate.
Qed.

Lemma free_suffix (r : regex) (x y : str) : free r (x ++ y) -> free r y.
Proof.
  intros H j. specialize (H (j + length x)).
  rewrite <- skipn_skipn, skipn_app, skipn_all, Nat.sub_diag in H. exact H.
Qed.

Section Windows.

(** A pattern [first middle p+] that takes one character first, all of
    whose characters are no white space. *)
Variables (first : atom) (middle : regex) (p : char -> bool).
Hypothesis first_one : rmin first = 1 /\ rmax first = Some 1.
Hypothesis p_no_space : forall c, p c = true -> is_space c = false.
Hypothesis f_no_space :
  forall c, in_classes (first :: middle) c = true -> is_space c = false.

Let f : regex := first :: middle.
Let R : regex := f ++ [plus p].

Lemma fits_in_classes (g : regex) (ps : list str) :
  Forall2 fits g ps -> forallb (in_classes g) (concat ps) = true.
Proof.
  induction 1 as [|a piece g ps (Hc & _) _ IH]; [reflexivity|].
  cbn [concat]. rewrite forallb_app. apply andb_true_iff. split.
  - rewrite forallb_forall in *. intros c Hin. unfold in_classes. cbn [existsb].
    rewrite (Hc c Hin). reflexivity.
  - rewrite forallb_forall in *. intros c Hin. unfold in_classes in *. cbn [existsb].
    rewrite (IH c Hin). apply orb_true_r.
Qed.

Lemma window_parts (s : str) (ps : list str) :
  match_here R s = Some ps ->
  exists qs m rest,
    Forall2 fits f qs /\ m <> [] /\ forallb p m = true /\
    s = concat qs ++ m ++ rest.
Proof.
  intros H. pose proof (match_here_fits _ _ _ H) as Hf.
  destruct (match_here_pieces _ _ _ H) as [_ Hs].
  unfold R in Hf. apply Forall2_app_inv_l in Hf.
  destruct Hf as (qs & ms & Hq & Hm & ->).
  inversion Hm as [|a m g ms' (Hc & Hmin & _) Hnil]; subst.
  inversion Hnil; subst.
  exists qs, m, (skipn (length (concat (qs ++ [m]))) s).
  split; [exact Hq|]. split; [destruct m; [simpl in Hmin; lia|discriminate]|].
  split; [exact Hc|].
  rewrite concat_app in Hs. cbn [concat] in Hs. rewrite app_nil_r in Hs.
  rewrite concat_app. cbn [concat]. rewrite app_nil_r.
  rewrite <- app_assoc in Hs. exact Hs.
Qed.

Lemma window_found (qs : list str) (m rest : str) :
  Forall2 fits f qs -> m <> [] -> forallb p m = true ->
  match_here R (concat qs ++ m ++ rest) <> None.
Proof.
  intros Hq Hm Hp.
  assert (Hf : Forall2 fits R (qs ++ [m])).
  { apply Forall2_app; [exact Hq|]. constructor; [|constructor].
    split; [exact Hp|]. split; [|exact I].
    destruct m; [contradiction|simpl; lia]. }
  pose proof (match_here_complete _ _ Hf rest) as H.
  rewrite concat_app in H. cbn [concat] in H. rewrite app_nil_r, <- app_assoc in H.
  exact H.
Qed.

Lemma window_grows (a b : str) :
  match_here R a <> None -> match_here R (a ++ b) <> None.
Proof.
  destruct (match_here R a) as [ps|] eqn:E; [intros _|congruence].
  destruct (window_parts _ _ E) as (qs & m & rest & Hq & Hm & Hp & ->).
  rewrite <- !app_assoc. apply window_found; assumption.
Qed.

Lemma window_nil : match_here R [] = None.
Proof.
  destruct (match_here R []) as [ps|] eqn:E; [|reflexivity].
  destruct (window_parts _ _ E) as (qs & m & rest & _ & Hm & _ & Hs).
  destruct (concat qs); destruct m; try contradiction; discriminate.
Qed.

(** A window that starts in [a] and is not within [a] takes all of [a]
    for its first part, and goes on in [b]. *)
Lemma window_split (a b : str) :
  a <> [] -> match_here R (a ++ b) <> None ->
  match_here R a <> None \/
  (forallb (in_classes f) a = true /\
   exists c b', b = c :: b' /\ (in_classes middle c = true \/ p c = true)).
Proof.
  intros Ha H. destruct (match_here R (a ++ b)) as [ps|] eqn:E; [|congruence].
  clear H. destruct (window_parts _ _ E) as (qs & m & rest & Hq & Hm & Hp & Hs).
  pose proof (fits_in_classes _ _ Hq) as Hcl.
  apply app_eq_app in Hs. destruct Hs as (l & [[Hs1 Hs2]|[Hs1 Hs2]]).
  - (* a = concat qs ++ l *)
    destruct l as [|z l].
    + right. rewrite app_nil_r in Hs1. subst a. split; [exact Hcl|].
      cbn [app] in Hs2. destruct m as [|c m]; [contradiction|].
      exists c, (m ++ rest). split; [symmetry; exact Hs2|].
      right. simpl in Hp. apply andb_true_iff in Hp. tauto.
    + left. apply app_eq_app in Hs2. destruct Hs2 as (l' & [[E1 E2]|[E1 E2]]).
      * (* m = (z :: l) ++ l' *)
        rewrite Hs1. rewrite <- (app_nil_r (z :: l)).
        apply window_found; [exact Hq|discriminate|].
        rewrite E1, forallb_app in Hp. apply andb_true_iff in Hp. tauto.
      * (* z :: l = m ++ l' *)
        rewrite Hs1, E1. apply window_found; assumption.
  - (* concat qs = a ++ l *)
    right. pose proof Hcl as Hall.
    rewrite Hs1, forallb_app in Hall. apply andb_true_iff in Hall.
    destruct Hall as [Hca _]. split; [exact Hca|].
    destruct l as [|z l].
    + cbn [app] in Hs2. destruct m as [|c m]; [contradiction|].
      exists c, (m ++ rest). split; [exact Hs2|].
      right. simpl in Hp. apply andb_true_iff in Hp. tauto.
    + exists z, (l ++ m ++ rest). split; [exact Hs2|]. left.
      unfold f in Hq. inversion Hq as [|a0 q0 g qs' (Hc0 & Hmin & Hmax) Hq']; subst.
      destruct first_one as [E1 E2]. rewrite E1 in Hmin. rewrite E2 in Hmax.
      destruct q0 as [|c0 [|? ?]]; simpl in Hmin, Hmax; try lia.
      cbn [concat app] in Hs1. destruct a as [|a0 a']; [contradiction|].
      cbn [app] in Hs1. injection Hs1 as _ Hs1.
      pose proof (fits_in_classes _ _ Hq') as Hm'. rewrite Hs1 in Hm'.
      rewrite forallb_app in Hm'. apply andb_true_iff in Hm'.
      destruct Hm' as [_ Hm']. simpl in Hm'. apply andb_true_iff in Hm'. tauto.
Qed.

Lemma free_prefix (x y : str) : free R (x ++ y) -> free R x.
Proof.
  intros H j. destruct (match_here R (skipn j x)) eqn:E; [exfalso|reflexivity].
  destruct (Nat.le_gt_cases (length x) j) as [Hj|Hj].
  - rewrite skipn_all2, window_nil in E by lia. discriminate.
  - specialize (H j). rewrite skipn_app in H.
    replace (j - length x) with 0 in H by lia. cbn [skipn] in H.
    apply (window_grows (skipn j x) y); congruence.
Qed.

Lemma last_skipn (x : str) (j : nat) :
  j < length x -> last (skipn j x) 0%N = last x 0%N.
Proof.
  revert j. induction x as [|c x IH]; intros j Hj; [simpl in Hj; lia|].
  destruct j as [|j]; [reflexivity|]. cbn [skipn]. simpl in Hj.
  rewrite IH by lia. destruct x; [simpl in Hj; lia|reflexivity].
Qed.

Lemma forallb_last (q : char -> bool) (a : str) :
  a <> [] -> forallb q a = true -> q (last a 0%N) = true.
Proof.
  intros Ha H. rewrite forallb_forall in H. apply H.
  destruct (exists_last Ha) as (a' & z & ->). rewrite last_last.
  apply in_or_app. right. left. reflexivity.
Qed.

Lemma free_app (x y : str) :
  free R x -> free R y -> parted f (fun c => in_classes middle c || p c) x y ->
  free R (x ++ y).
Proof.
  intros Hx Hy Hp j. rewrite skipn_app.
  destruct (Nat.le_gt_cases (length x) j) as [Hj|Hj].
  - rewrite skipn_all2 by lia. apply Hy.
  - replace (j - length x) with 0 by lia. cbn [skipn].
    destruct (match_here R (skipn j x ++ y)) eqn:E; [exfalso|reflexivity].
    assert (Ha : skipn j x <> []).
    { intros En. apply (f_equal (@length char)) in En.
      rewrite length_skipn in En. simpl in En. lia. }
    destruct (window_split (skipn j x) y Ha) as [H|(Hcl & c & b' & -> & Hc)];
      [congruence|specialize (Hx j); congruence|].
    pose proof (forallb_last _ _ Ha Hcl) as Hl. rewrite last_skipn in Hl by lia.
    destruct Hp as [->|[Hp|Hp]].
    + simpl in Hj. lia.
    + congruence.
    + cbn [starts_in] in Hp. apply orb_false_iff in Hp.
      destruct Hc as [Hc|Hc]; destruct Hp; congruence.
Qed.

Lemma space_parts (y : str) :
  y = [] \/ is_space (hd 0%N y) = true ->
  starts_in (fun c => in_classes middle c || p c) y = false.
Proof.
  intros [->|H]; [reflexivity|]. destruct y as [|c y]; [reflexivity|].
  cbn [starts_in hd] in *. apply orb_false_iff. split.
  - destruct (in_classes middle c) eqn:E; [|reflexivity].
    assert (E' : in_classes (first :: middle) c = true)
      by (unfold in_classes in *; cbn [existsb]; rewrite E; apply orb_true_r).
    apply f_no_space in E'. congruence.
  - destruct (p c) eqn:E; [|reflexivity]. apply p_no_space in E. congruence.
Qed.

Lemma free_spaces (w : str) : forallb is_space w = true -> free R w.
Proof.
  intros Hw j. destruct (match_here R (skipn j w)) as [ps|] eqn:E; [exfalso|reflexivity].
  destruct (window_parts _ _ E) as (qs & m & rest & Hq & Hm & Hp & Hs).
  pose proof (fits_in_classes _ _ Hq) as Hcl.
  assert (Hsp : forallb is_space (skipn j w) = true).
  { rewrite forallb_forall in *. intros c Hc. apply Hw.
    rewrite <- (firstn_skipn j w). apply in_or_app. right. exact Hc. }
  rewrite Hs in Hsp. rewrite !forallb_app in Hsp.
  apply andb_true_iff in Hsp. destruct Hsp as [H1 H2].
  apply andb_true_iff in H2. destruct H2 as [H2 _].
  destruct m as [|c m]; [contradiction|].
  simpl in Hp, H2. apply andb_true_iff in Hp, H2.
  rewrite (p_no_space c) in H2 by tauto. destruct H2; discriminate.
Qed.

(** *** A substitution that parts what it leaves *)

Section Step.
Variables (r : regex) (repl : str).

(** What is known of the text at a cut: closed under suffixes. *)
Variable good : str -> Prop.
Hypothesis good_suffix : forall x y, good (x ++ y) -> good y.

(** At each cut the text kept before it is parted from the replacement
    and what follows. *)
Hypothesis cut_parts :
  forall pre s ps k,
  good (pre ++ s) -> match_here r s = Some ps -> length (concat ps) = S k ->
  forall out, free R out ->
  out = sub_from r repl 0 (skipn (S k) s) -> free R pre ->
  free R (pre ++ repl ++ out).

Lemma sub_from_free (n : nat) :
  forall s pre, length s <= n -> good (pre ++ s) -> free R (pre ++ s) ->
  free R (pre ++ sub_from r repl 0 s).
Proof.
  induction n as [|n IH]; intros [|c s] pre Hn Hg Hf; simpl in Hn; try lia;
    try exact Hf.
  cbn [sub_from].
  assert (Hkeep : free R (pre ++ c :: sub_from r repl 0 s)).
  { replace (pre ++ c :: sub_from r repl 0 s)
      with ((pre ++ [c]) ++ sub_from r repl 0 s) by (rewrite <- app_assoc; reflexivity).
    apply IH; [lia| |]; rewrite <- app_assoc; assumption. }
  destruct (match_here r (c :: s)) as [ps|] eqn:E; [|exact Hkeep].
  destruct (length (concat ps)) as [|k] eqn:El; [exact Hkeep|].
  rewrite sub_from_skip.
  apply (cut_parts pre (c :: s) ps k Hg E El).
  - apply (IH (skipn k s) []).
    + rewrite length_skipn. lia.
    + cbn [app]. change (skipn k s) with (skipn (S k) (c :: s)).
      apply (good_suffix (pre ++ firstn (S k) (c :: s))).
      rewrite <- app_assoc, firstn_skipn. exact Hg.
    + cbn [app]. change (skipn k s) with (skipn (S k) (c :: s)).
      apply (free_suffix R (pre ++ firstn (S k) (c :: s))).
      rewrite <- app_assoc, firstn_skipn. exact Hf.
  - reflexivity.
  - apply (free_prefix pre (c :: s)), Hf.
Qed.

Lemma re_sub_free (s : str) :
  good s -> free R s -> free R (re_sub r repl s).
Proof. intros Hg Hf. apply (sub_from_free (length s) s [] (le_n _) Hg Hf). Qed.

End Step.

(** The replacement is white space. *)
Lemma re_sub_free_spaces (r : regex) (repl s : str) :
  repl <> [] -> forallb is_space repl = true ->
  free R s -> free R (re_sub r repl s).
Proof.
  intros Hne Hsp. apply (re_sub_free r repl (fun _ => True)); [auto| |exact I].
  intros pre s0 ps k _ _ _ out Hout _ Hpre.
  apply free_app; [exact Hpre| |].
  - apply free_app; [apply free_spaces, Hsp|exact Hout|].
    right. left. destruct (in_classes f (last repl 0%N)) eqn:E; [|reflexivity].
    unfold f in E. apply f_no_space in E. rewrite (forallb_last _ _ Hne Hsp) in E. discriminate.
  - right. right. apply space_parts. right.
    destruct repl as [|z w]; [contradiction|].
    simpl in Hsp. apply andb_true_iff in Hsp. cbn [app hd]. tauto.
Qed.

(** What is removed ends before white space or at the end, and the
    pattern starts with no white space. *)
Lemma re_sub_free_right (r : regex) (s : str) :
  (forall t ps, match_here r t = Some ps ->
     junction not_space (skipn (length (concat ps)) t)) ->
  (forall z t, is_space z = true -> match_here r (z :: t) = None) ->
  free R s -> free R (re_sub r [] s).
Proof.
  intros Hj H0. apply (re_sub_free r [] (fun _ => True)); [auto| |exact I].
  intros pre s0 ps k _ E El out Hout Eo Hpre. cbn [app].
  apply free_app; [exact Hpre|exact Hout|].
  right. right. apply space_parts. specialize (Hj _ _ E). rewrite El in Hj.
  destruct (skipn (S k) s0) as [|z t] eqn:Es.
  - left. rewrite Eo. reflexivity.
  - right. cbn [junction] in Hj. unfold not_space in Hj.
    apply negb_false_iff in Hj. rewrite Eo. cbn [sub_from].
    rewrite (H0 z t Hj). exact Hj.
Qed.

(** The removal joins no character of [f] to one that can follow it. *)
Lemma re_sub_free_joins (left right : char -> bool) (r : regex) (s : str) :
  (forall c, in_classes f c = true -> left c = true) ->
  (forall c, in_classes middle c || p c = true -> right c = true) ->
  joins left right r s = false ->
  free R s -> free R (re_sub r [] s).
Proof.
  intros Hleft Hright.
  apply (re_sub_free r [] (fun t => joins left right r t = false)).
  - intros x y. induction x as [|c x IH]; [auto|].
    cbn [app joins]. intros H. apply orb_false_iff in H. tauto.
  - intros pre s0 ps k Hg E El out Hout Eo Hpre. cbn [app].
    apply free_app; [exact Hpre|exact Hout|].
    destruct pre as [|z pre _] using rev_ind; [left; reflexivity|].
    right. rewrite last_last.
    destruct (in_classes f z) eqn:Ez; [right|left; reflexivity].
    assert (Hz : starts_in right (re_sub r [] s0) = false).
    { clear -Hg Hleft Ez E. rewrite <- app_assoc in Hg. cbn [app] in Hg.
      induction pre as [|c pre IH].
      - cbn [app joins] in Hg. rewrite (Hleft z Ez), E in Hg.
        cbn [andb] in Hg. apply orb_false_iff in Hg. tauto.
      - cbn [app joins] in Hg. apply orb_false_iff in Hg. tauto. }
    assert (Eout : re_sub r [] s0 = out).
    { unfold re_sub. destruct s0 as [|c0 s0'];
        [pose proof (match_here_length _ _ _ E) as Hl; simpl in Hl; lia|].
      cbn [sub_from]. rewrite E, El. cbn [app]. rewrite sub_from_skip.
      rewrite Eo. reflexivity. }
    rewrite Eout in Hz. destruct out as [|c out']; [reflexivity|].
    cbn [starts_in] in *.
    destruct (in_classes middle c || p c) eqn:Ec; [|reflexivity].
    rewrite (Hright c Ec) in Hz. discriminate.
Qed.

Lemma strip_free (s : str) : free R s -> free R (strip s).
Proof.
  destruct (strip_infix s) as (pre & post & H). intros Hf.
  rewrite H in Hf. apply free_suffix in Hf. apply free_prefix in Hf. exact Hf.
Qed.

End Windows.

(** *** The two patterns *)

Lemma first_atom_no_space (k : N) (r : regex) (z : char) (t : str) :
  is_space k = false -> is_space z = true ->
  match_here (one (N.eqb k) :: r) (z :: t) = None.
Proof.
  intros Hk Hz. rewrite match_here_one.
  destruct (N.eqb k z) eqn:E; [|reflexivity].
  apply N.eqb_eq in E. subst z. congruence.
Qed.

Lemma ascii_word_no_space (c : char) : ascii_word c = true -> is_space c = false.
Proof.
  unfold ascii_word, is_space, in_range. intros H.
  rewrite !orb_true_iff, !andb_true_iff, !N.leb_le, N.eqb_eq in H.
  apply not_true_is_false. intros Hs.
  rewrite !orb_true_iff, !andb_true_iff, !N.leb_le, !N.eqb_eq in Hs. lia.
Qed.

Lemma url_classes (c : char) :
  in_classes (lits "http" ++ [opt (is_chr "s")] ++ lits "://") c = true ->
  url_prefix_char c = true.
Proof.
  unfold in_classes, url_prefix_char.
  cbv [lits lit map app list_ascii_of_string existsb one opt cls is_chr code].
  rewrite !orb_true_iff, !N.eqb_eq. intros H.
  repeat destruct H as [H|H]; try discriminate H; subst c; auto 12.
Qed.

Lemma url_prefix_no_space (c : char) : url_prefix_char c = true -> is_space c = false.
Proof.
  unfold url_prefix_char. cbv [lit map list_ascii_of_string existsb].
  rewrite !orb_true_iff, !N.eqb_eq. intros H.
  repeat destruct H as [H|H]; try discriminate H; subst c; reflexivity.
Qed.

Section CleanFacts.
Variable py : runtime.

Lemma word_no_space :
  (forall c, uni_alnum py c = true -> is_space c = false) ->
  forall c, is_word py c = true -> is_space c = false.
Proof.
  intros H c. unfold is_word. destruct (c <? 128)%N; [apply ascii_word_no_space|apply H].
Qed.

Lemma at_no_space (c : char) :
  in_classes [one (is_chr "@")] c = true -> is_space c = false.
Proof.
  unfold in_classes. cbn [existsb one cls]. rewrite orb_false_r.
  unfold is_chr. intros H. apply N.eqb_eq in H. subst c. reflexivity.
Qed.

Lemma at_class (c : char) :
  in_classes [one (is_chr "@")] c = true -> is_chr "@" c = true.
Proof. unfold in_classes. cbn [existsb one cls]. rewrite orb_false_r. auto. Qed.

Lemma after_at (c : char) :
  in_classes [] c || is_word py c = true -> is_word py c = true.
Proof. auto. Qed.

Lemma url_tail (t : str) (ps : list str) :
  match_here url_re t = Some ps ->
  junction not_space (skipn (length (concat ps)) t).
Proof.
  apply (match_here_tail (one (is_chr "@")) not_space (conj eq_refl eq_refl)
           (lits "http" ++ [opt (is_chr "s")] ++ lits "://")).
Qed.

Lemma telegram_tail (t : str) (ps : list str) :
  match_here telegram_re t = Some ps ->
  junction not_space (skipn (length (concat ps)) t).
Proof.
  apply (match_here_tail (one (is_chr "@")) not_space (conj eq_refl eq_refl)
           (lits "t.me/")).
Qed.

(** No mention is left unless a later step joins an [@] to a word
    character. *)
Lemma clean_text_no_mention (t : str) :
  (forall c, uni_alnum py c = true -> is_space c = false) ->
  joins (is_chr "@") (is_word py) markdown_link_re (after_mentions py t) = false ->
  joins (is_chr "@") (is_word py) dashes_re (after_telegram py t) = false ->
  joins (is_chr "@") (is_word py) equals_re (after_dashes py t) = false ->
  re_search (mention_re py) (clean_text py t) = None.
Proof.
  intros Hw H1 H2 H3. rewrite free_search.
  unfold clean_text, after_dashes, after_telegram, after_urls, after_links,
    after_mentions in *. cbv zeta.
  pose proof (word_no_space Hw) as Hp.
  pose proof (conj eq_refl eq_refl
              : rmin (one (is_chr "@")) = 1 /\ rmax (one (is_chr "@")) = Some 1) as H0.
  change (mention_re py) with ((one (is_chr "@") :: []) ++ [plus (is_word py)]).
  apply (strip_free _ _ _ H0).
  apply (re_sub_free_spaces _ _ _ H0 Hp at_no_space); [discriminate|reflexivity|].
  apply (re_sub_free_spaces _ _ _ H0 Hp at_no_space); [discriminate|reflexivity|].
  apply (re_sub_free_joins _ _ _ H0 (is_chr "@") (is_word py));
    [exact at_class|exact after_at|exact H3|].
  apply (re_sub_free_joins _ _ _ H0 (is_chr "@") (is_word py));
    [exact at_class|exact after_at|exact H2|].
  apply (re_sub_free_right _ _ _ H0 Hp at_no_space);
    [exact telegram_tail|intros z u Hz; apply first_atom_no_space; [reflexivity|exact Hz]|].
  apply (re_sub_free_right _ _ _ H0 Hp at_no_space);
    [exact url_tail|intros z u Hz; apply first_atom_no_space; [reflexivity|exact Hz]|].
  apply (re_sub_free_joins _ _ _ H0 (is_chr "@") (is_word py));
    [exact at_class|exact after_at|exact H1|].
  apply free_search. apply mention_step_no_match.
Qed.

Lemma not_space_no_space (c : char) : not_space c = true -> is_space c = false.
Proof. unfold not_space. apply negb_true_iff. Qed.

Lemma url_no_space (c : char) :
  in_classes (lits "http" ++ [opt (is_chr "s")] ++ lits "://") c = true ->
  is_space c = false.
Proof. intros H. apply url_prefix_no_space, url_classes, H. Qed.

Lemma after_url_prefix (c : char) :
  in_classes (tl (lits "http") ++ [opt (is_chr "s")] ++ lits "://") c
  || not_space c = true ->
  not_space c = true.
Proof.
  destruct (not_space c) eqn:E; [reflexivity|]. rewrite orb_false_r. intros H.
  assert (H' : in_classes (lits "http" ++ [opt (is_chr "s")] ++ lits "://") c = true).
  { unfold in_classes in *. cbn [lits lit map app list_ascii_of_string existsb tl] in *.
    rewrite H. apply orb_true_r. }
  apply url_no_space in H'. unfold not_space in E. rewrite H' in E. discriminate.
Qed.

(** No URL is left unless a later step joins a character of [https://]
    to a character that is no white space. *)
Lemma clean_text_no_url (t : str) :
  joins url_prefix_char not_space dashes_re (after_telegram py t) = false ->
  joins url_prefix_char not_space equals_re (after_dashes py t) = false ->
  re_search url_re (clean_text py t) = None.
Proof.
  intros H2 H3. rewrite free_search.
  unfold clean_text, after_dashes, after_telegram, after_urls, after_links,
    after_mentions in *. cbv zeta.
  pose proof (conj eq_refl eq_refl
              : rmin (one (N.eqb 104)) = 1 /\ rmax (one (N.eqb 104)) = Some 1) as H0.
  change url_re
    with ((one (N.eqb 104) :: tl (lits "http") ++ [opt (is_chr "s")] ++ lits "://")
          ++ [plus not_space]).
  apply (strip_free _ _ _ H0).
  apply (re_sub_free_spaces _ _ _ H0 not_space_no_space url_no_space);
    [discriminate|reflexivity|].
  apply (re_sub_free_spaces _ _ _ H0 not_space_no_space url_no_space);
    [discriminate|reflexivity|].
  apply (re_sub_free_joins _ _ _ H0 url_prefix_char not_space);
    [exact url_classes|exact after_url_prefix|exact H3|].
  apply (re_sub_free_joins _ _ _ H0 url_prefix_char not_space);
    [exact url_classes|exact after_url_prefix|exact H2|].
  apply (re_sub_free_right _ _ _ H0 not_space_no_space url_no_space);
    [exact telegram_tail|intros z u Hz; apply first_atom_no_space; [reflexivity|exact Hz]|].
  apply free_search. apply url_step_no_match.
Qed.

End CleanFacts.

(** C6, amended. No message of the output has in its text a code point
    of the emoji ranges.  A message comes from a block, and its text has
    no mention unless the removal of the markdown links, of the runs of
    dashes or of the runs of equals signs joins an [@] to a word
    character, and no URL unless the removal of the runs of dashes or of
    equals signs joins a character of [https://] to a character that is
    no white space (see the counterexample); the mention step and the
    URL step leave no match of their own pattern, and no other step puts
    one together.  The mention part takes from the runtime that no white
    space is alphanumeric. *)
Theorem C6_no_emoji_in_text : forall py : runtime,
  (forall blob m, In m (extract_messages py blob) ->
     Forall (fun c => is_emoji c = false) (text m)) /\
  (forall blob m, In m (extract_messages py blob) ->
     exists g block, process_block py g block = Some m) /\
  (forall g block m, process_block py g block = Some m ->
     (forall c, uni_alnum py c = true -> is_space c = false) ->
     joins (is_chr "@") (is_word py) markdown_link_re
       (after_mentions py (strip block)) = false ->
     joins (is_chr "@") (is_word py) dashes_re
       (after_telegram py (strip block)) = false ->
     joins (is_chr "@") (is_word py) equals_re
       (after_dashes py (strip block)) = false ->
     re_search (mention_re py) (text m) = None) /\
  (forall g block m, process_block py g block = Some m ->
     joins url_prefix_char not_space dashes_re
       (after_telegram py (strip block)) = false ->
     joins url_prefix_char not_space equals_re
       (after_dashes py (strip block)) = false ->
     re_search url_re (text m) = None) /\
  (forall t, re_search (mention_re py) (re_sub (mention_re py) [] t) = None) /\
  (forall t, re_search url_re (re_sub url_re [] t) = None).
Proof.
  intros py. split; [|split; [|split; [|split;
    [|split; [apply mention_step_no_match | apply url_step_no_match]]]]].
  - intros blob m Hin.
    destruct (extract_messages_In _ _ _ Hin) as (g & block & H).
    pose proof (process_block_Some _ _ _ _ H) as (Hm & _).
    cbv zeta in Hm. subst m. apply clean_text_no_emoji.
  - intros blob m Hin. apply (extract_messages_In _ _ _ Hin).
  - intros g block m H Hw H1 H2 H3.
    pose proof (process_block_Some _ _ _ _ H) as (Hm & _).
    cbv zeta in Hm. subst m. cbn [text].
    apply clean_text_no_mention; assumption.
  - intros g block m H H2 H3.
    pose proof (process_block_Some _ _ _ _ H) as (Hm & _).
    cbv zeta in Hm. subst m. cbn [text].
    apply clean_text_no_url; assumption.
Qed.

Lemma C6_no_emoji_in_text_witness :
  Forall (fun c => is_emoji c = false) (text round_trip_message) /\
  exists m,
    process_block ascii_runtime (lit "G") C6_unjoined_block = Some m /\
    text m = lit "mail @ home, see http: then " ++ repeat (code "n") 120 /\
    re_search (mention_re ascii_runtime) (text m) = None /\
    re_search url_re (text m) = None.
Proof.
  destruct (C6_no_emoji_in_text ascii_runtime) as (H1 & _ & H3 & H4 & _).
  split; [apply (H1 round_trip_blob); vm_compute; left; reflexivity|].
  eexists. split; [vm_compute; reflexivity|]. split; [reflexivity|]. split.
  - apply (H3 (lit "G") C6_unjoined_block); try (vm_compute; reflexivity).
    intros c Hc. discriminate Hc.
  - apply (H4 (lit "G") C6_unjoined_block); vm_compute; reflexivity.
Defined.

(** In the block of the counterexample the removal of the link joins the
    [@] to [channel], and the removal of the dashes joins [https:] to
    [//example.org]. *)
Example C6_block_joins :
  joins (is_chr "@") (is_word ascii_runtime) markdown_link_re
    (after_mentions ascii_runtime (strip C6_block)) = true /\
  joins url_prefix_char not_space dashes_re
    (after_telegram ascii_runtime (strip C6_block)) = true.
Proof. split; vm_compute; reflexivity. Qed.

(** * More of the code

    Properties of the same functions beyond the claims, and of the parts
    of [preprocess_messages] around the core. *)

(** ** The filters and the ends of a text *)

Lemma filter_terms_ascii :
  Forall (fun term => Forall (fun c => (c < 128)%N) term)
    (excluded_terms ++ promotional_phrases).
Proof.
  apply Forall_forall. intros term H. apply Forall_forall. intros c Hc.
  apply N.ltb_lt.
  assert (E : forallb (fun t => forallb (fun c => (c <? 128)%N) t)
                (excluded_terms ++ promotional_phrases) = true) by reflexivity.
  rewrite forallb_forall in E. specialize (E term H).
  rewrite forallb_forall in E. exact (E c Hc).
Qed.

(** X1. Both filters hold of the output in any letter case: the text of
    a message contains no excluded term and no promotional phrase,
    however its ASCII letters are cased. *)
Theorem X1_no_filtered_phrase :
  forall (py : runtime) (blob : str) (m : message),
  In m (extract_messages py blob) ->
  forall term w,
    In term (excluded_terms ++ promotional_phrases) ->
    map ascii_lower w = term ->
    contains w (text m) = false.
Proof.
  intros py blob m Hin term w Hterm Hw.
  destruct (extract_messages_In _ _ _ Hin) as (g & block & H).
  pose proof (process_block_Some _ _ _ _ H) as (Hm & _ & Hex & Hpromo & _).
  cbv zeta in Hm, Hex, Hpromo. subst m. cbn [text].
  apply not_true_is_false. intros Hc.
  apply (lower_contains py) in Hc.
  - rewrite Hw in Hc. apply in_app_or in Hterm. destruct Hterm as [Ht|Ht].
    + unfold contains_excluded_content in Hex.
      assert (existsb (fun t => contains t (lower py (clean_text py (strip block))))
                excluded_terms = true); [|congruence].
      apply existsb_exists. eauto.
    + assert (existsb (fun t => contains t (lower py (clean_text py (strip block))))
                promotional_phrases = true); [|congruence].
      apply existsb_exists. eauto.
  - pose proof filter_terms_ascii as F. rewrite Forall_forall in F.
    specialize (F term Hterm). rewrite <- Hw, Forall_map in F. exact F.
Qed.

Lemma X1_no_filtered_phrase_witness :
  contains (lit "Subscribe") (text round_trip_message) = false.
Proof.
  apply (X1_no_filtered_phrase ascii_runtime round_trip_blob round_trip_message)
    with (term := lit "subscribe").
  - vm_compute. left. reflexivity.
  - vm_compute. tauto.
  - reflexivity.
Defined.

(** *** The ends of a stripped text *)

Lemma strip_last (s : str) :
  match rev (strip s) with c :: _ => is_space c = false | [] => True end.
Proof.
  unfold strip, rstrip. rewrite rev_involutive. apply lstrip_head.
Qed.

Lemma strip_first (s : str) :
  match strip s with c :: _ => is_space c = false | [] => True end.
Proof.
  unfold strip, rstrip.
  pose proof (lstrip_head s) as Hh.
  destruct (lstrip_suffix (rev (lstrip s))) as [pre Hpre].
  apply (f_equal (@rev char)) in Hpre. rewrite rev_involutive, rev_app_distr in Hpre.
  destruct (rev (lstrip (rev (lstrip s)))) as [|c t]; [exact I|].
  rewrite Hpre in Hh. exact Hh.
Qed.

(** X2. The text of a message neither starts nor ends with white
    space. *)
Theorem X2_text_is_stripped :
  forall (py : runtime) (blob : str) (m : message) (c : char),
  In m (extract_messages py blob) ->
  hd_error (text m) = Some c \/ hd_error (rev (text m)) = Some c ->
  is_space c = false.
Proof.
  intros py blob m c Hin Hc.
  destruct (extract_messages_In _ _ _ Hin) as (g & block & H).
  pose proof (process_block_Some _ _ _ _ H) as (Hm & _).
  cbv zeta in Hm. subst m. cbn [text] in Hc. unfold clean_text in Hc.
  cbv zeta in Hc. destruct Hc as [Hc|Hc].
  - match type of Hc with hd_error (strip ?t) = _ => pose proof (strip_first t) as Hs;
      destruct (strip t); [discriminate|] end.
    injection Hc as <-. exact Hs.
  - match type of Hc with hd_error (rev (strip ?t)) = _ => pose proof (strip_last t) as Hs;
      destruct (rev (strip t)); [discriminate|] end.
    injection Hc as <-. exact Hs.
Qed.

Lemma X2_text_is_stripped_witness : is_space (code "x") = false.
Proof.
  apply (X2_text_is_stripped ascii_runtime round_trip_blob round_trip_message).
  - vm_compute. left. reflexivity.
  - left. reflexivity.
Defined.

(** ** What the cleaner does to runs *)

(** *** Patterns of one greedy run *)

Lemma match_here_run (p : char -> bool) (n : nat) (s : str) :
  match_here [at_least n p] s =
  if n <=? span p None s then Some [firstn (span p None s) s] else None.
Proof.
  cbn [match_here]. unfold counts. cbn [at_least rmin rmax cls greedy].
  set (k := span p None s).
  destruct (n <=? k) eqn:E.
  - apply Nat.leb_le in E. replace (S k - n) with (S (k - n)) by lia.
    rewrite seq_S, rev_app_distr. cbn [rev app first_some option_map skipn match_here].
    replace (n + (k - n)) with k by lia. reflexivity.
  - apply Nat.leb_gt in E. replace (S k - n) with 0 by lia. reflexivity.
Qed.

Lemma span_firstn_length (p : char -> bool) (s : str) :
  length (firstn (span p None s) s) = span p None s.
Proof.
  rewrite length_firstn. pose proof (span_le_length p None s). lia.
Qed.

Lemma span_firstn (p : char -> bool) (s : str) :
  forallb p (firstn (span p None s) s) = true.
Proof. apply (span_forallb p None s). apply le_n. Qed.

Lemma filter_out_run (p : char -> bool) (x t : str) :
  forallb p x = true ->
  filter (fun c => negb (p c)) (x ++ t) = filter (fun c => negb (p c)) t.
Proof.
  induction x as [|c x IH]; intros H; [reflexivity|].
  simpl in H. apply andb_true_iff in H. destruct H as [Hc Hx].
  simpl. rewrite Hc. simpl. apply IH, Hx.
Qed.

(** Removing the runs of a set is filtering the set out. *)
Lemma sub_plus_filter (p : char -> bool) (n : nat) :
  forall s, length s <= n ->
  sub_from [plus p] [] 0 s = filter (fun c => negb (p c)) s.
Proof.
  induction n as [|n IH]; intros [|c s] Hn; simpl in Hn; try lia; try reflexivity.
  cbn [sub_from]. change (plus p) with (at_least 1 p). rewrite match_here_run.
  destruct (1 <=? span p None (c :: s)) eqn:E.
  - cbn [concat]. rewrite app_nil_r, span_firstn_length.
    apply Nat.leb_le in E.
    destruct (span p None (c :: s)) as [|k] eqn:Ek; [lia|].
    cbn [app]. rewrite sub_from_skip.
    change (at_least 1 p) with (plus p). rewrite IH by (rewrite length_skipn; lia).
    pose proof (span_firstn p (c :: s)) as Hf. rewrite Ek in Hf.
    transitivity (filter (fun c => negb (p c))
                    (firstn (S k) (c :: s) ++ skipn (S k) (c :: s))).
    + rewrite filter_out_run by exact Hf. reflexivity.
    + rewrite firstn_skipn. reflexivity.
  - apply Nat.leb_gt in E. simpl in E. destruct (p c) eqn:Ec; [lia|].
    change (at_least 1 p) with (plus p). rewrite IH by lia.
    simpl. rewrite Ec. reflexivity.
Qed.

(** X3. [remove_emojis] removes the code points of the emoji ranges and
    nothing else, and keeps the order of the rest. *)
Theorem X3_remove_emojis_is_filter : forall text : str,
  remove_emojis text = filter (fun c => negb (is_emoji c)) text.
Proof.
  intros text. unfold remove_emojis, re_sub, emoji_pattern.
  apply (sub_plus_filter is_emoji (length text)). apply le_n.
Qed.

Lemma span_app_run (p : char -> bool) (x t : str) :
  forallb p x = true -> span p None (x ++ t) = length x + span p None t.
Proof.
  induction x as [|c x IH]; intros H; [reflexivity|].
  simpl in H. apply andb_true_iff in H. destruct H as [Hc Hx].
  simpl. rewrite Hc. f_equal. apply IH, Hx.
Qed.

Lemma span_junction (p : char -> bool) (s : str) :
  junction p s -> span p None s = 0.
Proof. destruct s as [|c s]; [reflexivity|]. simpl. intros ->. reflexivity. Qed.

Lemma forallb_skipn (p : char -> bool) (j : nat) (x : str) :
  forallb p x = true -> forallb p (skipn j x) = true.
Proof.
  intros H. rewrite forallb_forall in *. intros c Hc. apply H.
  rewrite <- (firstn_skipn j x). apply in_or_app. right. exact Hc.
Qed.

Lemma contains_skipn (needle : str) (j : nat) (s : str) :
  contains needle (skipn j s) = true -> contains needle s = true.
Proof.
  revert j. induction s as [|c s IH]; intros [|j] H; try exact H.
  cbn [skipn] in H. cbn [contains]. rewrite (IH j H). apply orb_true_r.
Qed.

Lemma contains_skip_run (p : char -> bool) (needle x o : str) :
  forallb p x = true -> needle <> [] ->
  forallb (fun c => negb (p c)) needle = true ->
  contains needle (x ++ o) = true -> contains needle o = true.
Proof.
  intros Hx Hne Hn. induction x as [|c x IH]; intros H; [exact H|].
  simpl in Hx. apply andb_true_iff in Hx. destruct Hx as [Hc Hx].
  cbn [app contains] in H. apply orb_true_iff in H. destruct H as [H|H].
  - exfalso. destruct needle as [|y needle]; [congruence|].
    simpl in H, Hn. apply andb_true_iff in H. destruct H as [H _].
    apply N.eqb_eq in H. subst y. rewrite Hc in Hn. discriminate.
  - apply IH; assumption.
Qed.

Section RunCollapse.

(** A run of [p] longer than [n] is replaced by [n] characters of [p]. *)
Variables (p : char -> bool) (n : nat) (repl : str).

Hypothesis repl_length : length repl = n.
Hypothesis repl_in_p : forallb p repl = true.

Let r : regex := [at_least (S n) p].

Lemma sub_run_short (s : str) :
  span p None s <= n ->
  span p None (sub_from r repl 0 s) = span p None s.
Proof.
  induction s as [|c s IH]; intros H; [reflexivity|].
  cbn [sub_from]. unfold r at 1. rewrite match_here_run.
  replace (S n <=? span p None (c :: s)) with false
    by (symmetry; apply Nat.leb_gt; lia).
  simpl in H |- *. destruct (p c); [|reflexivity].
  f_equal. apply IH. lia.
Qed.

(** After the substitution no run of [p] is longer than [n]. *)
Lemma sub_run_bound (m : nat) :
  forall s, length s <= m ->
  forall j, span p None (skipn j (sub_from r repl 0 s)) <= n.
Proof.
  induction m as [|m IH]; intros [|c s] Hm j; simpl in Hm; try lia;
    try (cbn [sub_from]; rewrite skipn_nil; simpl; lia).
  destruct (S n <=? span p None (c :: s)) eqn:E.
  - cbn [sub_from]. unfold r at 1. rewrite match_here_run, E.
    cbn [concat]. rewrite app_nil_r, span_firstn_length.
    apply Nat.leb_le in E.
    pose proof (span_stops p (c :: s)) as Hj.
    pose proof (span_le_length p None (c :: s)) as Hl.
    destruct (span p None (c :: s)) as [|k]; [lia|].
    rewrite sub_from_skip. cbn [skipn] in Hj. simpl in Hl.
    set (o := sub_from r repl 0 (skipn k s)).
    assert (Ho : span p None o = 0).
    { unfold o. rewrite sub_run_short; rewrite (span_junction p _ Hj); lia. }
    rewrite skipn_app, repl_length.
    destruct (Nat.le_gt_cases j n) as [L|G].
    + replace (j - n) with 0 by lia. cbn [skipn].
      rewrite span_app_run by (apply forallb_skipn, repl_in_p).
      rewrite Ho, length_skipn, repl_length. lia.
    + rewrite skipn_all2 by lia. cbn [app]. unfold o.
      apply IH. rewrite length_skipn. lia.
  - destruct j as [|j].
    + cbn [skipn]. apply Nat.leb_gt in E. rewrite sub_run_short; lia.
    + cbn [sub_from]. unfold r at 1. rewrite match_here_run, E.
      cbn [skipn]. apply IH. lia.
Qed.

(** What the substitution keeps of a text without [p]: nothing new. *)
Lemma sub_run_starts (needle : str) :
  1 <= n ->
  forallb (fun c => negb (p c)) needle = true ->
  forall s, starts_with needle (sub_from r repl 0 s) = true ->
            starts_with needle s = true.
Proof.
  intros Hn1. induction needle as [|x needle IH]; intros Hn s H; [reflexivity|].
  simpl in Hn. apply andb_true_iff in Hn. destruct Hn as [Hx Hn].
  destruct s as [|c s]; [discriminate H|].
  cbn [sub_from] in H. unfold r at 1 in H. rewrite match_here_run in H.
  destruct (S n <=? span p None (c :: s)) eqn:E.
  - exfalso. cbn [concat] in H. rewrite app_nil_r, span_firstn_length in H.
    apply Nat.leb_le in E.
    destruct (span p None (c :: s)) as [|k]; [lia|].
    destruct repl as [|y repl'].
    + simpl in repl_length. lia.
    + simpl in H, repl_in_p. apply andb_true_iff in H. destruct H as [H _].
      apply N.eqb_eq in H. subst y. destruct (p x); discriminate.
  - simpl in H |- *. apply andb_true_iff in H. destruct H as [-> H].
    simpl. apply IH; assumption.
Qed.

Lemma sub_run_contains (needle : str) :
  1 <= n -> needle <> [] ->
  forallb (fun c => negb (p c)) needle = true ->
  forall m s, length s <= m ->
  contains needle (sub_from r repl 0 s) = true -> contains needle s = true.
Proof.
  intros Hn1 Hne Hn. induction m as [|m IH]; intros [|c s] Hm H;
    simpl in Hm; try lia; try exact H.
  destruct (S n <=? span p None (c :: s)) eqn:E.
  - cbn [sub_from] in H. unfold r at 1 in H. rewrite match_here_run, E in H.
    cbn [concat] in H. rewrite app_nil_r, span_firstn_length in H.
    apply Nat.leb_le in E.
    pose proof (span_le_length p None (c :: s)) as Hl.
    destruct (span p None (c :: s)) as [|k]; [lia|].
    rewrite sub_from_skip in H. simpl in Hl.
    apply (contains_skip_run p) in H; [|exact repl_in_p|exact Hne|exact Hn].
    apply IH in H; [|rewrite length_skipn; lia].
    apply (contains_skipn needle (S k) (c :: s)). exact H.
  - assert (Eo : sub_from r repl 0 (c :: s) = c :: sub_from r repl 0 s)
      by (cbn [sub_from]; unfold r at 1; rewrite match_here_run, E; reflexivity).
    destruct (starts_with needle (sub_from r repl 0 (c :: s))) eqn:Es.
    + apply sub_run_starts in Es; [|exact Hn1|exact Hn].
      cbn [contains]. rewrite Es. reflexivity.
    + rewrite Eo in H, Es. cbn [contains] in H. rewrite Es in H.
      cbn [orb] in H. cbn [contains]. rewrite (IH s) by (exact H || lia).
      apply orb_true_r.
Qed.

End RunCollapse.

Lemma no_run_contains (p : char -> bool) (n : nat) (out x : str) :
  (forall j, span p None (skipn j out) <= n) ->
  forallb p x = true -> length x = S n -> contains x out = false.
Proof.
  intros H Hx Hl. apply not_true_is_false. intros Hc.
  apply contains_spec in Hc. destruct Hc as (a & b & ->).
  specialize (H (length a)). rewrite skipn_app, skipn_all, Nat.sub_diag in H.
  cbn [skipn app] in H. rewrite span_app_run in H by exact Hx. lia.
Qed.

Lemma contains_strip (needle s : str) :
  contains needle (strip s) = true -> contains needle s = true.
Proof.
  intros H. apply contains_spec in H. destruct H as (a & b & H).
  destruct (strip_infix s) as (pre & post & Hs). apply contains_spec.
  exists (pre ++ a), (b ++ post). rewrite Hs, H, <- !app_assoc. reflexivity.
Qed.

(** X4. The text of a message has no two spaces in a row and no three
    line feeds in a row. *)
Theorem X4_no_space_or_newline_runs :
  forall (py : runtime) (blob : str) (m : message),
  In m (extract_messages py blob) ->
  contains (lit "  ") (text m) = false /\
  contains [10; 10; 10]%N (text m) = false.
Proof.
  intros py blob m Hin.
  destruct (extract_messages_In _ _ _ Hin) as (g & block & H).
  pose proof (process_block_Some _ _ _ _ H) as (Hm & _).
  cbv zeta in Hm. subst m. cbn [text]. unfold clean_text. cbv zeta.
  split; apply not_true_is_false; intros Hc; apply contains_strip in Hc.
  - revert Hc. apply not_true_iff_false. unfold re_sub at 1.
    apply (no_run_contains (is_chr " ") 1); [|reflexivity|reflexivity].
    match goal with |- forall j, span _ None (skipn j (sub_from _ _ 0 ?t)) <= 1 =>
      apply (sub_run_bound (is_chr " ") 1 (lit " ") eq_refl eq_refl (length t) t (le_n _))
    end.
  - unfold re_sub at 1 in Hc.
    match type of Hc with contains _ (sub_from _ _ 0 ?t) = true =>
      apply (sub_run_contains (is_chr " ") 1 (lit " ") eq_refl eq_refl
               [10; 10; 10]%N (le_n _) ltac:(discriminate) eq_refl (length t) t (le_n _))
        in Hc
    end.
    revert Hc. apply not_true_iff_false. unfold re_sub at 1.
    apply (no_run_contains (N.eqb 10) 2); [|reflexivity|reflexivity].
    match goal with |- forall j, span _ None (skipn j (sub_from _ _ 0 ?t)) <= 2 =>
      apply (sub_run_bound (N.eqb 10) 2 [10; 10]%N eq_refl eq_refl (length t) t (le_n _))
    end.
Qed.

Lemma X4_no_space_or_newline_runs_witness :
  contains (lit "  ") (text round_trip_message) = false /\
  contains [10; 10; 10]%N (text round_trip_message) = false.
Proof.
  apply (X4_no_space_or_newline_runs ascii_runtime round_trip_blob).
  vm_compute. left. reflexivity.
Defined.

(** ** Timestamps and their order *)


(** X5. Every timestamp of the output is the ISO form, 19 characters,
    of a date and time that exists, and [fromisoformat] reads it back. *)
Theorem X5_timestamps_are_iso :
  forall (py : runtime) (blob : str) (m : message) (t : str),
  In m (extract_messages py blob) -> timestamp m = Some t ->
  exists d, valid_datetime d = true /\ t = isoformat d /\
            length t = 19 /\ fromisoformat t = Some d.
Proof.
  intros py blob m t Hin Ht.
  destruct (extract_messages_timestamp py blob m Hin) as [E|(d & Hd & E)];
    [congruence|].
  rewrite E in Ht. injection Ht as <-. exists d.
  repeat split; auto. apply fromisoformat_isoformat, Hd.
Qed.

Lemma X5_timestamps_are_iso_witness :
  exists d, valid_datetime d = true /\ lit "2024-01-01T10:00:00" = isoformat d /\
            length (lit "2024-01-01T10:00:00") = 19 /\
            fromisoformat (lit "2024-01-01T10:00:00") = Some d.
Proof.
  apply (X5_timestamps_are_iso ascii_runtime round_trip_blob round_trip_message).
  - vm_compute. left. reflexivity.
  - reflexivity.
Defined.

(** *** ISO strings sort as dates *)

Lemma digit_ltb (a b : Z) :
  (0 <= a <= 9)%Z -> (0 <= b <= 9)%Z ->
  (digit a <? digit b)%N = (a <? b)%Z /\ (digit a =? digit b)%N = (a =? b)%Z.
Proof.
  intros Ha Hb. unfold digit. split.
  - destruct (Z.ltb_spec a b); [apply N.ltb_lt | apply N.ltb_ge]; lia.
  - destruct (Z.eqb_spec a b); [apply N.eqb_eq | apply N.eqb_neq]; lia.
Qed.

Lemma zpad2_ltb (n n' : Z) (r r' : str) :
  (0 <= n <= 99)%Z -> (0 <= n' <= 99)%Z ->
  str_ltb (zpad2 n ++ r) (zpad2 n' ++ r') =
  ((n <? n')%Z || ((n =? n')%Z && str_ltb r r')).
Proof.
  intros Hn Hn'. unfold zpad2. cbn [app str_ltb].
  destruct (digit_ltb (n / 10) (n' / 10)) as [-> ->];
    [Z.div_mod_to_equations; lia..|].
  destruct (digit_ltb (n mod 10) (n' mod 10)) as [-> ->];
    [Z.div_mod_to_equations; lia..|].
  destruct (str_ltb r r');
    destruct (Z.ltb_spec (n / 10) (n' / 10)); destruct (Z.eqb_spec (n / 10) (n' / 10));
    destruct (Z.ltb_spec (n mod 10) (n' mod 10));
    destruct (Z.eqb_spec (n mod 10) (n' mod 10));
    destruct (Z.ltb_spec n n'); destruct (Z.eqb_spec n n');
    try reflexivity; exfalso; Z.div_mod_to_equations; lia.
Qed.

Lemma zpad4_split (y : Z) :
  (0 <= y <= 9999)%Z -> zpad4 y = zpad2 (y / 100) ++ zpad2 (y mod 100).
Proof.
  intros H. unfold zpad4, zpad2. cbn [app].
  replace (y / 100 / 10)%Z with (y / 1000)%Z by (Z.div_mod_to_equations; lia).
  replace (y mod 100 / 10)%Z with (y / 10 mod 10)%Z by (Z.div_mod_to_equations; lia).
  replace ((y mod 100) mod 10)%Z with (y mod 10)%Z by (Z.div_mod_to_equations; lia).
  reflexivity.
Qed.

Lemma zpad4_ltb (y y' : Z) (r r' : str) :
  (0 <= y <= 9999)%Z -> (0 <= y' <= 9999)%Z ->
  str_ltb (zpad4 y ++ r) (zpad4 y' ++ r') =
  ((y <? y')%Z || ((y =? y')%Z && str_ltb r r')).
Proof.
  intros Hy Hy'. rewrite !zpad4_split by assumption. rewrite <- !app_assoc.
  rewrite !zpad2_ltb by (Z.div_mod_to_equations; lia).
  destruct (str_ltb r r');
    destruct (Z.ltb_spec (y / 100) (y' / 100)); destruct (Z.eqb_spec (y / 100) (y' / 100));
    destruct (Z.ltb_spec (y mod 100) (y' mod 100));
    destruct (Z.eqb_spec (y mod 100) (y' mod 100));
    destruct (Z.ltb_spec y y'); destruct (Z.eqb_spec y y');
    try reflexivity; exfalso; Z.div_mod_to_equations; lia.
Qed.

Lemma str_ltb_same (c : char) (r r' : str) :
  str_ltb (c :: r) (c :: r') = str_ltb r r'.
Proof. simpl. rewrite N.ltb_irrefl, N.eqb_refl. reflexivity. Qed.

(** The order of the ISO strings is the order of the dates and times. *)
Lemma isoformat_ltb (a b : datetime) :
  valid_datetime a = true -> valid_datetime b = true ->
  str_ltb (isoformat a) (isoformat b) = dt_ltb a b.
Proof.
  intros Ha Hb. apply valid_datetime_spec in Ha, Hb.
  pose proof (days_in_month_le (year a) (month a)).
  pose proof (days_in_month_le (year b) (month b)).
  unfold isoformat, dt_ltb, dt_key.
  change (lit "-") with [45%N]. change (lit "T") with [84%N].
  change (lit ":") with [58%N]. cbn [app].
  rewrite <- (app_nil_r (zpad2 (second a))), <- (app_nil_r (zpad2 (second b))).
  rewrite zpad4_ltb by lia.
  repeat (rewrite str_ltb_same; rewrite zpad2_ltb by lia).
  cbn [lex_ltb str_ltb]. reflexivity.
Qed.

(** X6. Sorting by the timestamp strings is sorting by time: of two
    dated messages of the sorted output the later one in the list is not
    the earlier one in time. *)
Theorem X6_sort_is_chronological :
  forall (py : runtime) (blob : str) (i j : nat) (a b : message)
         (ta tb : str) (da db : datetime),
  let out := list_sort sort_key (extract_messages py blob) in
  i < j -> nth_error out i = Some a -> nth_error out j = Some b ->
  timestamp a = Some ta -> timestamp b = Some tb ->
  fromisoformat ta = Some da -> fromisoformat tb = Some db ->
  dt_ltb db da = false.
Proof.
  intros py blob i j a b ta tb da db out Hij Hi Hj Ha Hb Hda Hdb.
  pose proof (sorted_messages_written py blob) as Hw. fold out in Hw.
  rewrite Forall_forall in Hw.
  pose proof (Hw a (nth_error_In _ _ Hi)) as Wa.
  pose proof (Hw b (nth_error_In _ _ Hj)) as Wb.
  assert (Hle : key_le sort_key a b)
    by (eapply sorted_nth; [apply list_sort_sorted|exact Hij|exact Hi|exact Hj]).
  unfold key_le in Hle.
  destruct (sort_key_written a Wa) as [Ka _], (sort_key_written b Wb) as [Kb _].
  rewrite Ka, Kb, Ha, Hb in Hle.
  destruct Wa as [Wa|(da' & Va & Wa)]; [congruence|].
  destruct Wb as [Wb|(db' & Vb & Wb)]; [congruence|].
  rewrite Ha in Wa. rewrite Hb in Wb. injection Wa as ->. injection Wb as ->.
  rewrite fromisoformat_isoformat in Hda, Hdb by assumption.
  injection Hda as <-. injection Hdb as <-.
  rewrite isoformat_ltb in Hle by assumption. exact Hle.
Qed.

Lemma X6_sort_is_chronological_witness :
  dt_ltb (Datetime 2024 3 1 12 0 0) (Datetime 2024 1 15 8 30 0) = false.
Proof.
  eapply (X6_sort_is_chronological ascii_runtime two_dates_blob 0 1);
    [lia | vm_compute; reflexivity..].
Defined.

(** ** The names of the groups *)

Lemma split_from_nonempty (r : regex) (grp : option (nat * nat)) (s : str) :
  forall skip cur, split_from r grp skip cur s <> [].
Proof.
  induction s as [|c s IH]; intros skip cur; cbn [split_from]; [discriminate|].
  destruct skip; [|apply IH].
  destruct (match_here r (c :: s)); [|apply IH].
  destruct (length (concat l)); [apply IH | discriminate].
Qed.

(** The name a header match captures has no line feed. *)
Lemma group_name_dot (s : str) (ps : list str) :
  match_here group_re s = Some ps -> forallb dot (group_text 9 1 ps) = true.
Proof.
  intros H. apply match_here_fits in H.
  cbv [group_re lits lit map app list_ascii_of_string] in H.
  repeat match goal with
  | H : Forall2 fits (_ :: _) _ |- _ => inversion H; subst; clear H
  | H : Forall2 fits [] _ |- _ => inversion H; subst; clear H
  end.
  unfold group_text. cbn [skipn firstn concat]. rewrite app_nil_r.
  match goal with H : fits (plus_lazy dot) _ |- _ => exact (proj1 H) end.
Qed.

Section GroupNames.

Variable py : runtime.

Lemma group_loop_names (s : str) :
  forall skip cur m,
  In m (group_loop py (tl (split_from group_re (Some (9, 1)) skip cur s))) ->
  exists name, forallb dot name = true /\ group m = strip name.
Proof.
  induction s as [|c s IH]; intros skip cur m; cbn [split_from]; [intros []|].
  destruct skip as [|k]; [|apply IH].
  destruct (match_here group_re (c :: s)) as [ps|] eqn:E; [|apply IH].
  destruct (length (concat ps)) as [|k]; [apply IH|].
  cbn [app tl].
  pose proof (split_from_nonempty group_re (Some (9, 1)) s k []) as Hne.
  specialize (IH k [] m).
  destruct (split_from group_re (Some (9, 1)) k [] s) as [|content rest];
    [congruence|].
  cbn [group_loop tl] in *. rewrite in_app_iff. intros [H|H]; [|apply IH, H].
  apply block_loop_In in H. destruct H as (block & _ & H).
  apply process_block_Some in H. destruct H as (Hm & _). cbv zeta in Hm.
  exists (group_text 9 1 ps). split; [eapply group_name_dot, E|].
  subst m. reflexivity.
Qed.

End GroupNames.

(** X8. The group of a message is a header name as captured and
    stripped: it holds no line feed, and neither starts nor ends with
    white space. *)
Theorem X8_group_names :
  forall (py : runtime) (blob : str) (m : message),
  In m (extract_messages py blob) ->
  Forall (fun c => c <> 10%N) (group m) /\
  forall c, hd_error (group m) = Some c \/ hd_error (rev (group m)) = Some c ->
            is_space c = false.
Proof.
  intros py blob m Hin. unfold extract_messages, re_split in Hin.
  apply group_loop_names in Hin. destruct Hin as (name & Hdot & ->).
  split.
  - apply strip_Forall. rewrite forallb_forall in Hdot. apply Forall_forall.
    intros c Hc E. specialize (Hdot c Hc). subst c. discriminate.
  - pose proof (strip_first name) as Hf. pose proof (strip_last name) as Hl.
    intros c [H|H].
    + destruct (strip name); [discriminate|]. injection H as <-. exact Hf.
    + destruct (rev (strip name)); [discriminate|]. injection H as <-. exact Hl.
Qed.

Lemma X8_group_names_witness :
  Forall (fun c => c <> 10%N) (group round_trip_message) /\
  forall c, hd_error (group round_trip_message) = Some c \/
            hd_error (rev (group round_trip_message)) = Some c ->
            is_space c = false.
Proof.
  apply (X8_group_names ascii_runtime round_trip_blob).
  vm_compute. left. reflexivity.
Defined.

(** ** The table of groups *)

Lemma str_eqb_eq (a b : str) : str_eqb a b = true <-> a = b.
Proof.
  unfold str_eqb. destruct (list_eq_dec N.eq_dec a b); split; congruence.
Qed.

Lemma str_eqb_refl (a : str) : str_eqb a a = true.
Proof. apply str_eqb_eq. reflexivity. Qed.

Lemma str_eqb_sym (a b : str) : str_eqb a b = str_eqb b a.
Proof.
  destruct (str_eqb a b) eqn:E, (str_eqb b a) eqn:E'; try reflexivity.
  - apply str_eqb_eq in E. subst b. rewrite str_eqb_refl in E'. discriminate.
  - apply str_eqb_eq in E'. subst b. rewrite str_eqb_refl in E. discriminate.
Qed.

Lemma get_count_bump (k g : str) (groups : list (str * nat)) :
  get_count k (bump g groups) =
  get_count k groups + (if str_eqb g k then 1 else 0).
Proof.
  induction groups as [|[k' n] rest IH]; cbn [bump get_count].
  - rewrite (str_eqb_sym g k). destruct (str_eqb k g); reflexivity.
  - destruct (str_eqb k' g) eqn:Eg; cbn [get_count].
    + apply str_eqb_eq in Eg. subst k'. destruct (str_eqb g k); lia.
    + destruct (str_eqb k' k) eqn:Ek; [|exact IH].
      apply str_eqb_eq in Ek. subst k'. rewrite (str_eqb_sym g k), Eg. lia.
Qed.

Lemma keys_bump (k g : str) (groups : list (str * nat)) :
  In k (map fst (bump g groups)) <-> k = g \/ In k (map fst groups).
Proof.
  induction groups as [|[k' n] rest IH]; cbn [bump].
  - simpl. intuition.
  - destruct (str_eqb k' g) eqn:Eg; cbn [map fst In].
    + apply str_eqb_eq in Eg. subst k'. intuition.
    + rewrite IH. intuition.
Qed.

Lemma bump_ok (g : str) (groups : list (str * nat)) :
  table_ok groups -> table_ok (bump g groups).
Proof.
  unfold table_ok. induction groups as [|[k n] rest IH]; intros [Hn Hf].
  - split; repeat constructor. simpl. tauto.
  - cbn [bump]. inversion Hn as [|? ? Hk Hn']; subst.
    inversion Hf as [|? ? Hc Hf']; subst. cbn [snd] in Hc.
    destruct (str_eqb k g) eqn:Eg.
    + split.
      * cbn [map fst]. constructor; assumption.
      * constructor; [simpl; lia | exact Hf'].
    + destruct (IH (conj Hn' Hf')) as [IHn IHf]. split.
      * cbn [map fst]. constructor; [|exact IHn].
        rewrite keys_bump. intros [->|H]; [|contradiction].
        rewrite str_eqb_refl in Eg. discriminate.
      * constructor; [exact Hc | exact IHf].
Qed.

Lemma In_get_count (k : str) (n : nat) (groups : list (str * nat)) :
  table_ok groups ->
  (In (k, n) groups <-> get_count k groups = n /\ 1 <= n).
Proof.
  unfold table_ok. induction groups as [|[k' n'] rest IH]; intros [Hn Hf].
  - simpl. split; [tauto | lia].
  - inversion Hn as [|? ? Hk Hn']; subst.
    inversion Hf as [|? ? Hc Hf']; subst. cbn [snd] in Hc.
    specialize (IH (conj Hn' Hf')). cbn [In get_count].
    destruct (str_eqb k' k) eqn:Ek.
    + apply str_eqb_eq in Ek. subst k'. split.
      * intros [[= ->]|H]; [auto|]. exfalso. apply Hk.
        apply (in_map fst) in H. exact H.
      * intros [-> _]. left. reflexivity.
    + rewrite <- IH. split; [|tauto].
      intros [[= -> ->]|H]; [|exact H].
      rewrite str_eqb_refl in Ek. discriminate.
Qed.

Lemma sum_bump (g : str) (groups : list (str * nat)) :
  list_sum (map snd (bump g groups)) = S (list_sum (map snd groups)).
Proof.
  induction groups as [|[k n] rest IH]; cbn [bump]; [reflexivity|].
  unfold list_sum in *.
  destruct (str_eqb k g); cbn [map snd fold_right]; [|rewrite IH]; lia.
Qed.

Lemma count_groups_from (msgs : list message) :
  forall groups, table_ok groups ->
  let out := fold_left (fun groups msg => bump (group msg) groups) msgs groups in
  table_ok out /\
  (forall k, get_count k out =
             get_count k groups +
             length (filter (fun m => str_eqb (group m) k) msgs)) /\
  list_sum (map snd out) = list_sum (map snd groups) + length msgs.
Proof.
  induction msgs as [|m msgs IH]; intros groups Hok; cbn [fold_left].
  - cbn [filter length]. split; [exact Hok|]. split; [intros k|]; lia.
  - destruct (IH (bump (group m) groups) (bump_ok _ _ Hok)) as (H1 & H2 & H3).
    split; [exact H1|]. split.
    + intros k. rewrite H2, get_count_bump. cbn [filter].
      destruct (str_eqb (group m) k); cbn [length]; lia.
    + rewrite H3, sum_bump. cbn [length]. lia.
Qed.

(** X9. The table of groups has each group once, with the number of
    messages of that group, which is not zero; the counts add up to the
    number of messages. *)
Theorem X9_group_counts : forall messages : list message,
  NoDup (map fst (count_groups messages)) /\
  (forall g n, In (g, n) (count_groups messages) <->
     n = length (filter (fun m => str_eqb (group m) g) messages) /\ 1 <= n) /\
  list_sum (map snd (count_groups messages)) = length messages.
Proof.
  intros messages.
  assert (Hnil : table_ok []) by (split; constructor).
  destruct (count_groups_from messages [] Hnil) as (Hok & Hget & Hsum).
  fold (count_groups messages) in Hok, Hget, Hsum.
  split; [exact (proj1 Hok)|]. split; [|exact Hsum].
  intros g n. rewrite (In_get_count g n _ Hok), Hget. cbn [get_count].
  split; intros [H1 H2]; split; auto; lia.
Qed.

(** ** The lines of the report *)

Lemma insert_desc_perm (x : str * nat) (l : list (str * nat)) :
  Permutation (x :: l) (insert_desc x l).
Proof.
  induction l as [|y l IH]; cbn [insert_desc]; [reflexivity|].
  destruct (snd x <? snd y); [|reflexivity].
  rewrite perm_swap. constructor. exact IH.
Qed.

Lemma sorted_desc_perm (l : list (str * nat)) : Permutation l (sorted_desc l).
Proof.
  induction l as [|x l IH]; cbn [sorted_desc fold_right]; [constructor|].
  rewrite <- insert_desc_perm. constructor. exact IH.
Qed.

Lemma insert_desc_sorted (x : str * nat) (l : list (str * nat)) :
  StronglySorted count_ge l -> StronglySorted count_ge (insert_desc x l).
Proof.
  induction 1 as [|y l Hs IH Hy]; cbn [insert_desc].
  - constructor; constructor.
  - destruct (snd x <? snd y) eqn:E.
    + apply Nat.ltb_lt in E. constructor; [exact IH|].
      rewrite <- insert_desc_perm. constructor; [unfold count_ge; lia | exact Hy].
    + apply Nat.ltb_ge in E. constructor; [constructor; assumption|].
      constructor; [exact E|].
      eapply Forall_impl; [|exact Hy]. unfold count_ge. intros z Hz. lia.
Qed.

Lemma sorted_desc_sorted (l : list (str * nat)) :
  StronglySorted count_ge (sorted_desc l).
Proof.
  induction l as [|x l IH]; cbn [sorted_desc fold_right]; [constructor|].
  apply insert_desc_sorted, IH.
Qed.

(** Items of one count keep the order of the table. *)
Lemma insert_desc_stable (n : nat) (x : str * nat) (l : list (str * nat)) :
  filter (fun e => snd e =? n) (insert_desc x l) =
  filter (fun e => snd e =? n) (x :: l).
Proof.
  induction l as [|y l IH]; [reflexivity|].
  cbn [insert_desc]. destruct (snd x <? snd y) eqn:E; [|reflexivity].
  apply Nat.ltb_lt in E. cbn [filter] in *. rewrite IH.
  destruct (snd x =? n) eqn:Ex; [|reflexivity].
  destruct (snd y =? n) eqn:Ey; [|reflexivity].
  apply Nat.eqb_eq in Ex, Ey. lia.
Qed.

Lemma sorted_desc_stable (n : nat) (l : list (str * nat)) :
  filter (fun e => snd e =? n) (sorted_desc l) = filter (fun e => snd e =? n) l.
Proof.
  induction l as [|x l IH]; [reflexivity|].
  cbn [sorted_desc fold_right]. fold (sorted_desc l).
  rewrite insert_desc_stable. cbn [filter]. rewrite IH. reflexivity.
Qed.

Lemma sorted_app (R : str * nat -> str * nat -> Prop) (l1 l2 : list (str * nat)) :
  StronglySorted R (l1 ++ l2) ->
  StronglySorted R l1 /\ forall a b, In a l1 -> In b l2 -> R a b.
Proof.
  induction l1 as [|x l1 IH]; cbn [app]; intros H.
  - split; [constructor | intros a b []].
  - inversion H as [|? ? Hs Hx]; subst. destruct (IH Hs) as [H1 H2].
    rewrite Forall_app in Hx. destruct Hx as [Hx1 Hx2].
    split; [constructor; assumption|].
    intros a b [<-|Ha] Hb; [|auto].
    rewrite Forall_forall in Hx2. auto.
Qed.

Lemma filter_firstn (f : str * nat -> bool) (k : nat) (l : list (str * nat)) :
  filter f (firstn k l) =
  firstn (length (filter f (firstn k l))) (filter f l).
Proof.
  rewrite <- (firstn_skipn k l) at 3.
  rewrite filter_app, firstn_app, Nat.sub_diag, firstn_all. cbn [firstn].
  rewrite app_nil_r. reflexivity.
Qed.

(** X10. The report is the first ten items of the table at most, the
    greater counts first: every item left out has a count no greater than
    any item shown, and the items of one count are in the order of the
    table (of first appearance). *)
Theorem X10_group_report : forall messages : list message,
  let table := count_groups messages in
  let report := group_report messages in
  length report = Nat.min 10 (length table) /\
  StronglySorted count_ge report /\
  incl report table /\
  (forall e e', In e table -> ~ In e report -> In e' report -> snd e <= snd e') /\
  (forall n, filter (fun e => snd e =? n) report =
             firstn (length (filter (fun e => snd e =? n) report))
               (filter (fun e => snd e =? n) table)).
Proof.
  intros messages table report. unfold report, group_report. fold table.
  pose proof (sorted_desc_perm table) as Hperm.
  pose proof (sorted_desc_sorted table) as Hsorted.
  rewrite <- (firstn_skipn 10 (sorted_desc table)) in Hsorted.
  apply sorted_app in Hsorted. destruct Hsorted as [Hs Hle].
  split; [rewrite length_firstn, <- (Permutation_length Hperm); reflexivity|].
  split; [exact Hs|]. split; [|split].
  - intros e He. apply (Permutation_in _ (Permutation_sym Hperm)).
    rewrite <- (firstn_skipn 10 (sorted_desc table)). apply in_or_app. auto.
  - intros e e' He Hn He'.
    apply (Permutation_in _ Hperm) in He.
    rewrite <- (firstn_skipn 10 (sorted_desc table)) in He.
    apply in_app_or in He. destruct He as [He|He]; [contradiction|].
    exact (Hle e' e He' He).
  - intros n. rewrite <- (sorted_desc_stable n table).
    apply filter_firstn.
Qed.

(** ** Reading a stamp *)

Lemma span_exact (p : char -> bool) (x s : str) :
  forallb p x = true -> span p (Some (length x)) (x ++ s) = length x.
Proof.
  induction x as [|c x IH]; intros H.
  - destruct s as [|c s]; [reflexivity|]. simpl. destruct (p c); reflexivity.
  - simpl in H. apply andb_true_iff in H. destruct H as [Hc Hx].
    simpl. rewrite Hc. f_equal. apply IH, Hx.
Qed.

(** An atom of a fixed count takes exactly its characters. *)
Lemma match_here_exactly (p : char -> bool) (x s : str) (r : regex) :
  forallb p x = true ->
  match_here (exactly (length x) p :: r) (x ++ s) =
  option_map (cons x) (match_here r s).
Proof.
  intros H. cbn [match_here]. unfold counts. cbn [exactly rmin rmax cls greedy].
  rewrite span_exact by exact H.
  replace (S (length x) - length x) with 1 by lia.
  cbn [seq rev app first_some].
  rewrite firstn_app, firstn_all, Nat.sub_diag, skipn_app, skipn_all, Nat.sub_diag.
  cbn [firstn skipn app]. rewrite app_nil_r.
  destruct (match_here r s); reflexivity.
Qed.

Lemma match_here_mismatch (a : atom) (r : regex) (c : char) (s : str) :
  1 <= rmin a -> cls a c = false -> match_here (a :: r) (c :: s) = None.
Proof.
  intros Hmin Hc. cbn [match_here]. rewrite span_head by exact Hc.
  unfold counts. replace (1 - rmin a) with 0 by lia.
  destruct (greedy a); reflexivity.
Qed.

(** A search passes over the characters that cannot start a match. *)
Lemma re_search_after (a : atom) (r : regex) (pre s : str) (ps : list str) :
  1 <= rmin a -> Forall (fun c => cls a c = false) pre ->
  match_here (a :: r) s = Some ps ->
  re_search (a :: r) (pre ++ s) = Some (length pre, ps).
Proof.
  intros Hmin Hpre Hs. induction Hpre as [|c pre Hc _ IH].
  - destruct s; cbn [app re_search]; rewrite Hs; reflexivity.
  - cbn [app re_search length]. rewrite match_here_mismatch by assumption.
    rewrite IH. reflexivity.
Qed.

Lemma among_Some (lo hi v : Z) :
  (lo <= v <= hi)%Z -> among lo hi (Some v) = Some v.
Proof.
  intros H. unfold among.
  replace ((lo <=? v)%Z && (v <=? hi)%Z) with true; [reflexivity|].
  symmetry. apply andb_true_iff. rewrite !Z.leb_le. exact H.
Qed.

Lemma if_same (A : Type) (b : bool) (x : A) : (if b then x else x) = x.
Proof. destruct b; reflexivity. Qed.

Section StampFacts.

Variable py : runtime.

Lemma digit_value_digit (x : Z) :
  (0 <= x <= 9)%Z -> digit_value py (digit x) = Some x.
Proof.
  intros H. unfold digit_value.
  replace (digit x <? 128)%N with true
    by (symmetry; apply N.ltb_lt; unfold digit; lia).
  apply ascii_value_digit, H.
Qed.

Lemma is_digit_digit (x : Z) : (0 <= x <= 9)%Z -> is_digit py (digit x) = true.
Proof. intros H. unfold is_digit. rewrite digit_value_digit by exact H. reflexivity. Qed.

Lemma is_digit_zpad2 (n : Z) :
  (0 <= n <= 99)%Z -> forallb (is_digit py) (zpad2 n) = true.
Proof.
  intros H. unfold zpad2. cbn [forallb].
  rewrite !is_digit_digit by (Z.div_mod_to_equations; lia). reflexivity.
Qed.

Lemma is_digit_zpad4 (n : Z) :
  (0 <= n <= 9999)%Z -> forallb (is_digit py) (zpad4 n) = true.
Proof.
  intros H. unfold zpad4. cbn [forallb].
  rewrite !is_digit_digit by (Z.div_mod_to_equations; lia). reflexivity.
Qed.

Lemma strptime_stamp (d : datetime) :
  valid_datetime d = true -> strptime py (stamp d) = Some d.
Proof.
  intros Hv. pose proof Hv as H. apply valid_datetime_spec in H.
  destruct d as [y m dd h n s]. cbn [year month day hour minute second] in H.
  pose proof (days_in_month_le y m).
  unfold stamp, zpad4, zpad2. cbn [year month day hour minute second].
  change (lit "-") with [45%N]. change (lit " ") with [32%N].
  change (lit ":") with [58%N]. cbn [app]. unfold strptime.
  rewrite !digit_value_digit by (Z.div_mod_to_equations; lia).
  rewrite !ascii_value_digit by (Z.div_mod_to_equations; lia).
  rewrite !if_same.
  change ((45 =? 45)%N && (45 =? 45)%N && is_space 32%N && (58 =? 58)%N && (58 =? 58)%N)
    with true. cbv iota.
  rewrite (among_Some 0 3), (among_Some 0 2), (among_Some 0 5), (among_Some 0 6)
    by (Z.div_mod_to_equations; lia).
  unfold four. cbn [two].
  rewrite (among_Some 1 12), (among_Some 1 31), (among_Some 0 23), (among_Some 0 61)
    by (Z.div_mod_to_equations; lia).
  replace (Datetime _ _ _ _ _ _) with (Datetime y m dd h n s).
  - unfold checked. rewrite Hv. reflexivity.
  - f_equal; Z.div_mod_to_equations; lia.
Qed.

Lemma match_here_fixed (p : char -> bool) (n : nat) (x s : str) (r : regex) :
  length x = n -> forallb p x = true ->
  match_here (Atom p n (Some n) true :: r) (x ++ s) =
  option_map (cons x) (match_here r s).
Proof. intros <- H. apply (match_here_exactly p x s r H). Qed.

Lemma match_here_stamp (d : datetime) (post : str) :
  valid_datetime d = true ->
  match_here (timestamp_re py) (lit "[" ++ stamp d ++ lit "]" ++ post) =
  Some [lit "["; zpad4 (year d); lit "-"; zpad2 (month d); lit "-";
        zpad2 (day d); lit " "; zpad2 (hour d); lit ":"; zpad2 (minute d);
        lit ":"; zpad2 (second d); lit "]"].
Proof.
  intros Hv. apply valid_datetime_spec in Hv.
  pose proof (days_in_month_le (year d) (month d)).
  unfold timestamp_re, stamp, one, exactly. rewrite <- !app_assoc.
  repeat first
    [ rewrite (match_here_fixed (is_digit py) 4 (zpad4 _))
        by (reflexivity || apply is_digit_zpad4; lia)
    | rewrite (match_here_fixed (is_digit py) 2 (zpad2 _))
        by (reflexivity || apply is_digit_zpad2; lia)
    | rewrite (match_here_fixed _ 1 (lit _)) by reflexivity ].
  reflexivity.
Qed.

End StampFacts.

(** X11. [parse_timestamp] reads a stamp back: when the first bracket of
    a text opens the stamp ["[YYYY-MM-DD HH:MM:SS]"] of a date and time
    that exists, the result is that date and time, whatever follows. *)
Theorem X11_parse_timestamp_reads_stamp :
  forall (py : runtime) (d : datetime) (pre post : str),
  valid_datetime d = true ->
  Forall (fun c => c <> code "[") pre ->
  parse_timestamp py (pre ++ lit "[" ++ stamp d ++ lit "]" ++ post) = Some d.
Proof.
  intros py d pre post Hv Hpre. unfold parse_timestamp.
  assert (Hpre' : Forall (fun c => cls (one (is_chr "[")) c = false) pre)
    by (eapply Forall_impl; [|exact Hpre]; intros c Hc; apply N.eqb_neq, Hc).
  pose proof (re_search_after (one (is_chr "[")) (tl (timestamp_re py)) pre _ _
                (le_n 1) Hpre' (match_here_stamp py d post Hv)) as Hs.
  change (one (is_chr "[") :: tl (timestamp_re py)) with (timestamp_re py) in Hs.
  rewrite Hs.
  unfold group_text. cbn [skipn firstn concat]. rewrite app_nil_r.
  apply strptime_stamp, Hv.
Qed.

Lemma X11_parse_timestamp_reads_stamp_witness :
  parse_timestamp ascii_runtime
    (lit "posted " ++ lit "[" ++ stamp (Datetime 2024 2 29 23 59 59) ++
     lit "]" ++ lit " [2025-01-01 00:00:00]") =
  Some (Datetime 2024 2 29 23 59 59).
Proof.
  apply (X11_parse_timestamp_reads_stamp ascii_runtime).
  - reflexivity.
  - repeat constructor; discriminate.
Defined.

(** ** The envelope *)

Section EnvelopeFacts.
Variable json_loads : str -> option json.

Lemma from_body_found (body old v : json) :
  from_body json_loads body old = Some v ->
  in_body json_loads body v \/ (truthy body = false /\ v = old) \/ v = JNull.
Proof.
  unfold from_body. destruct (truthy body) eqn:Eb; [|intros [= <-]; auto].
  destruct body as [| | | |s|elements|items]; cbn [and_then get];
    try discriminate.
  - destruct (json_loads s) as [body_data|] eqn:El; cbn [and_then]; [|discriminate].
    destruct body_data; cbn [get]; try discriminate.
    destruct (lookup (lit "news_content") items) as [x|] eqn:E; intros [= <-]; auto.
    left. split; [destruct s; [discriminate|discriminate]|].
    exists items. auto.
  - destruct (lookup (lit "news_content") items) as [x|] eqn:E; intros [= <-]; auto.
Qed.

Lemma from_body_in (body old v : json) :
  in_body json_loads body v -> from_body json_loads body old = Some v.
Proof.
  unfold from_body. destruct body as [| | | |s|elements|items]; cbn [in_body];
    try contradiction.
  - intros (Hs & items & El & Hv). destruct s; [contradiction|].
    cbn [truthy]. rewrite El. cbn [and_then get]. rewrite Hv. reflexivity.
  - intros Hv. destruct items as [|it items]; [discriminate|].
    cbn [truthy and_then get]. rewrite Hv. reflexivity.
Qed.

Lemma through_result_found (x old v : json) :
  through_result json_loads x old = Some v ->
  in_result json_loads x v \/ v = old \/ v = JNull.
Proof.
  unfold through_result. destruct x as [| | | | | |items]; cbn [get and_then];
    try discriminate.
  destruct (lookup (lit "result") items) as [r|] eqn:Er.
  - destruct r as [| | | | | |inner]; cbn [get and_then]; try discriminate.
    destruct (lookup (lit "body") inner) as [body|] eqn:Eb.
    + intros H. destruct (from_body_found _ _ _ H) as [Hin|[[_ ->]| ->]]; auto.
      left. exists items, inner, body. auto.
    + cbn [from_body truthy]. intros [= <-]. auto.
  - cbn [lookup from_body truthy]. intros [= <-]. auto.
Qed.

Lemma through_result_in (x old v : json) :
  in_result json_loads x v -> through_result json_loads x old = Some v.
Proof.
  intros (items & inner & body & -> & Er & Eb & Hin).
  unfold through_result. cbn [get and_then]. rewrite Er. cbn [get and_then].
  rewrite Eb. apply from_body_in, Hin.
Qed.

Lemma structure_1_dict (items : list (str * json)) (old : json) :
  structure_1 json_loads (JDict items) old =
  match lookup (lit "result") items with
  | Some _ => through_result json_loads (JDict items) old
  | None => Some old
  end.
Proof. reflexivity. Qed.

Lemma in_result_has_key (x v : json) :
  in_result json_loads x v ->
  exists items r, x = JDict items /\ lookup (lit "result") items = Some r.
Proof. intros (items & inner & body & -> & Er & _). eauto. Qed.

(** The first attempt on a dict, the second on a list. *)
Lemma attempt_dict (items : list (str * json)) :
  let v := except (structure_1 json_loads (JDict items) JNull) JNull in
  (truthy v = true -> in_result json_loads (JDict items) v) /\
  (forall w, in_result json_loads (JDict items) w -> v = w).
Proof.
  cbv zeta. rewrite structure_1_dict. split.
  - destruct (lookup (lit "result") items) eqn:Er; [|discriminate].
    destruct (through_result json_loads (JDict items) JNull) as [v|] eqn:E; [|discriminate].
    cbn [except]. intros Ht.
    destruct (through_result_found _ _ _ E) as [H|[->| ->]]; [exact H|discriminate..].
  - intros w Hw. destruct (in_result_has_key _ _ Hw) as (items' & r & [= <-] & Er).
    rewrite Er, (through_result_in _ JNull _ Hw). reflexivity.
Qed.

Lemma attempt_list (first : json) (rest : list json) :
  let v := except (structure_2 json_loads (JList (first :: rest)) JNull) JNull in
  (truthy v = true -> in_result json_loads first v) /\
  (forall w, in_result json_loads first w -> v = w).
Proof.
  cbv zeta. change (structure_2 json_loads (JList (first :: rest)) JNull)
    with (through_result json_loads first JNull). split.
  - destruct (through_result json_loads first JNull) as [v|] eqn:E; [|discriminate].
    cbn [except]. intros Ht.
    destruct (through_result_found _ _ _ E) as [H|[->| ->]]; [exact H|discriminate..].
  - intros w Hw. rewrite (through_result_in _ JNull _ Hw). reflexivity.
Qed.

Lemma find_dict (items : list (str * json)) :
  find_news_content json_loads (JDict items) =
  let v := except (structure_1 json_loads (JDict items) JNull) JNull in
  if truthy v then v
  else match lookup (lit "news_content") items with
       | Some x => x
       | None => JNull
       end.
Proof.
  unfold find_news_content. cbv zeta.
  destruct (truthy (except (structure_1 json_loads (JDict items) JNull) JNull)) eqn:E;
    cbn [negb structure_2 structure_3 except get].
  - rewrite E. reflexivity.
  - rewrite E. reflexivity.
Qed.

Lemma find_list (first : json) (rest : list json) :
  find_news_content json_loads (JList (first :: rest)) =
  except (structure_2 json_loads (JList (first :: rest)) JNull) JNull.
Proof.
  unfold find_news_content. cbv zeta. cbn [structure_1 except truthy negb].
  destruct (truthy (except (structure_2 json_loads (JList (first :: rest)) JNull) JNull));
    reflexivity.
Qed.

End EnvelopeFacts.

(** X12. Where the text comes from: a value that passes the test of
    line 182 was read at [raw_data['result']['body']['news_content']], at
    [raw_data[0]['result']['body']['news_content']] (the body a dict, or
    a text that [json.loads] turns into one), or at
    [raw_data['news_content']]. *)
Theorem X12_content_comes_from_the_envelope :
  forall (json_loads : str -> option json) (raw_data : json),
  truthy (find_news_content json_loads raw_data) = true ->
  in_result json_loads raw_data (find_news_content json_loads raw_data) \/
  (exists first rest, raw_data = JList (first :: rest) /\
     in_result json_loads first (find_news_content json_loads raw_data)) \/
  (exists items, raw_data = JDict items /\
     lookup (lit "news_content") items =
     Some (find_news_content json_loads raw_data)).
Proof.
  intros json_loads raw_data Ht.
  destruct raw_data as [| | | | |elements|items]; try discriminate Ht.
  - destruct elements as [|first rest]; [discriminate Ht|].
    right. left. exists first, rest. split; [reflexivity|].
    rewrite find_list in *. apply (proj1 (attempt_list json_loads first rest)), Ht.
  - rewrite find_dict in *. cbv zeta in *.
    destruct (truthy (except (structure_1 json_loads (JDict items) JNull) JNull)) eqn:E.
    + left. apply (proj1 (attempt_dict json_loads items)), E.
    + right. right. exists items. split; [reflexivity|].
      destruct (lookup (lit "news_content") items); [reflexivity|discriminate Ht].
Qed.

Lemma X12_content_comes_from_the_envelope_witness :
  in_result (fun _ => None) (lambda_response (content_dict "text"))
    (find_news_content (fun _ => None) (lambda_response (content_dict "text"))) \/
  (exists first rest, lambda_response (content_dict "text") = JList (first :: rest) /\
     in_result (fun _ => None) first
       (find_news_content (fun _ => None) (lambda_response (content_dict "text")))) \/
  (exists items, lambda_response (content_dict "text") = JDict items /\
     lookup (lit "news_content") items =
     Some (find_news_content (fun _ => None) (lambda_response (content_dict "text")))).
Proof.
  apply (X12_content_comes_from_the_envelope (fun _ => None)
           (lambda_response (content_dict "text"))).
  reflexivity.
Defined.

(** X13. The response of the Lambda wins: a value under
    [result], [body], [news_content] that passes the test is the one
    taken, for a dict and for a list that starts with it, whatever else
    the dict holds at [news_content] and whatever follows in the list. *)
Theorem X13_result_body_is_read_first :
  forall (json_loads : str -> option json) (x v : json) (rest : list json),
  in_result json_loads x v -> truthy v = true ->
  find_news_content json_loads x = v /\
  find_news_content json_loads (JList (x :: rest)) = v.
Proof.
  intros json_loads x v rest Hin Ht. split.
  - destruct (in_result_has_key _ _ _ Hin) as (items & r & -> & _).
    rewrite find_dict. cbv zeta.
    rewrite (proj2 (attempt_dict json_loads items) v Hin), Ht. reflexivity.
  - rewrite find_list. apply (proj2 (attempt_list json_loads x rest) v Hin).
Qed.

Lemma X13_result_body_is_read_first_witness :
  find_news_content (loads_one (lit "{}") (content_dict "parsed"))
    (JDict [(lit "news_content", JStr (lit "top"));
            (lit "result", JDict [(lit "body", JStr (lit "{}"))])]) =
  JStr (lit "parsed") /\
  find_news_content (loads_one (lit "{}") (content_dict "parsed"))
    (JList [JDict [(lit "news_content", JStr (lit "top"));
                   (lit "result", JDict [(lit "body", JStr (lit "{}"))])];
            JNull]) =
  JStr (lit "parsed").
Proof.
  apply (X13_result_body_is_read_first (loads_one (lit "{}") (content_dict "parsed"))).
  - exists [(lit "news_content", JStr (lit "top"));
            (lit "result", JDict [(lit "body", JStr (lit "{}"))])],
           [(lit "body", JStr (lit "{}"))], (JStr (lit "{}")).
    repeat split; try reflexivity; try discriminate.
    exists [(lit "news_content", JStr (lit "parsed"))]. split; reflexivity.
  - reflexivity.
Defined.

(** X14. Without such a value a dict gives what it holds at
    [news_content] itself, and a list gives nothing: the key
    [news_content] of its first element is not read. *)
Theorem X14_top_level_key_only_of_a_dict :
  forall (json_loads : str -> option json) (x : json),
  (forall v, in_result json_loads x v -> truthy v = false) ->
  (forall items, x = JDict items ->
     find_news_content json_loads x =
     match lookup (lit "news_content") items with
     | Some v => v
     | None => JNull
     end) /\
  (forall rest, truthy (find_news_content json_loads (JList (x :: rest))) = false).
Proof.
  intros json_loads x Hno. split.
  - intros items ->. rewrite find_dict. cbv zeta.
    destruct (truthy (except (structure_1 json_loads (JDict items) JNull) JNull)) eqn:E;
      [|reflexivity].
    rewrite (Hno _ (proj1 (attempt_dict json_loads items) E)) in E. discriminate.
  - intros rest. rewrite find_list.
    destruct (truthy (except (structure_2 json_loads (JList (x :: rest)) JNull) JNull)) eqn:E;
      [|reflexivity].
    rewrite (Hno _ (proj1 (attempt_list json_loads x rest) E)) in E. discriminate.
Qed.

Lemma X14_top_level_key_only_of_a_dict_witness :
  (forall items, content_dict "text" = JDict items ->
     find_news_content (fun _ => None) (content_dict "text") =
     match lookup (lit "news_content") items with
     | Some v => v
     | None => JNull
     end) /\
  (forall rest,
     truthy (find_news_content (fun _ => None)
               (JList (content_dict "text" :: rest))) = false).
Proof.
  apply (X14_top_level_key_only_of_a_dict (fun _ => None) (content_dict "text")).
  intros v (items & inner & body & E & Er & _).
  injection E as <-. discriminate Er.
Defined.

(** ** What can be written *)

Lemma encodable_app (a b : str) :
  encodable (a ++ b) = encodable a && encodable b.
Proof. apply forallb_app. Qed.

Lemma digit_encodable (n : Z) :
  (0 <= n <= 9)%Z -> is_surrogate (digit n) = false.
Proof.
  intros H. unfold is_surrogate, digit, in_range.
  apply andb_false_intro1. apply N.leb_gt. lia.
Qed.

Lemma zpad2_encodable (n : Z) : (0 <= n <= 99)%Z -> encodable (zpad2 n) = true.
Proof.
  intros H. unfold zpad2, encodable. cbn [forallb].
  rewrite !digit_encodable by (Z.div_mod_to_equations; lia). reflexivity.
Qed.

Lemma zpad4_encodable (n : Z) : (0 <= n <= 9999)%Z -> encodable (zpad4 n) = true.
Proof.
  intros H. unfold zpad4, encodable. cbn [forallb].
  rewrite !digit_encodable by (Z.div_mod_to_equations; lia). reflexivity.
Qed.

Lemma isoformat_encodable (d : datetime) :
  valid_datetime d = true -> encodable (isoformat d) = true.
Proof.
  intros Hv. apply valid_datetime_spec in Hv.
  pose proof (days_in_month_le (year d) (month d)).
  unfold isoformat. rewrite !encodable_app.
  rewrite zpad4_encodable, !zpad2_encodable by lia. reflexivity.
Qed.

Lemma strftime_encodable (py : runtime) (d : datetime) :
  (forall y, (1 <= y <= 9999)%Z -> encodable (strftime_Y py y) = true) ->
  valid_datetime d = true -> encodable (strftime py d) = true.
Proof.
  intros Hy Hv. apply valid_datetime_spec in Hv.
  pose proof (days_in_month_le (year d) (month d)).
  unfold strftime. rewrite !encodable_app.
  rewrite Hy, !zpad2_encodable by lia. reflexivity.
Qed.

(** The surrogates lie in one of the ranges of [remove_emojis]. *)
Lemma surrogate_is_emoji (c : char) : is_surrogate c = true -> is_emoji c = true.
Proof.
  unfold is_surrogate, is_emoji, in_range. rewrite andb_true_iff, !N.leb_le.
  intros [H1 H2].
  replace ((0x24C2 <=? c)%N && (c <=? 0x1F251)%N) with true
    by (symmetry; apply andb_true_iff; rewrite !N.leb_le; lia).
  rewrite !orb_true_r. reflexivity.
Qed.

Lemma no_emoji_encodable (t : str) :
  Forall (fun c => is_emoji c = false) t -> encodable t = true.
Proof.
  intros H. apply forallb_forall. intros c Hc.
  rewrite Forall_forall in H. specialize (H c Hc).
  destruct (is_surrogate c) eqn:E; [|reflexivity].
  apply surrogate_is_emoji in E. congruence.
Qed.

Lemma message_text_encodable (py : runtime) (blob : str) (m : message) :
  In m (extract_messages py blob) -> encodable (text m) = true.
Proof.
  intros Hin. destruct (extract_messages_In _ _ _ Hin) as (g & block & H).
  pose proof (process_block_Some _ _ _ _ H) as (Hm & _).
  cbv zeta in Hm. subst m. apply no_emoji_encodable, clean_text_no_emoji.
Qed.

Lemma message_timestamp_encodable (py : runtime) (blob : str) (m : message) :
  In m (extract_messages py blob) ->
  match timestamp m with Some t => encodable t | None => true end = true.
Proof.
  intros Hin. destruct (extract_messages_timestamp py blob m Hin) as [->|(d & Hv & ->)];
    [reflexivity|]. apply isoformat_encodable, Hv.
Qed.

Lemma window_encodable (py : runtime) (msgs : list message) (w : time_window) :
  (forall y, (1 <= y <= 9999)%Z -> encodable (strftime_Y py y) = true) ->
  Forall (fun m => written_timestamp (timestamp m)) msgs ->
  calculate_time_window py msgs = Ok w ->
  encodable (start w) = true /\ encodable (end_ w) = true.
Proof.
  intros Hy Hw. destruct (timestamps_of_written msgs Hw) as (ds & Hds & Hv & _).
  unfold calculate_time_window. rewrite Hds. cbn [bind].
  destruct ds as [|d ds]; intros [= <-]; cbn [start end_]; [split; reflexivity|].
  rewrite Forall_forall in Hv.
  split; apply strftime_encodable; try exact Hy; apply Hv.
  - apply min_from_spec.
  - apply max_from_spec.
Qed.

(** The run on a text always comes to [json.dump]. *)
Lemma preprocess_messages_document (py : runtime) (now s : str) :
  exists w,
    calculate_time_window py (list_sort sort_key (extract_messages py s)) = Ok w /\
    preprocess_messages py now s =
    (Some {| total_messages := length (list_sort sort_key (extract_messages py s));
             window := w;
             processed_at := now;
             messages := list_sort sort_key (extract_messages py s) |},
     match duration_hours w with
     | Some _ => Ok tt
     | None => Raise (KeyError "duration_hours")
     end).
Proof.
  unfold preprocess_messages.
  destruct (timestamps_of_written _ (sorted_messages_written py s)) as (ds & Hds & _).
  destruct (calculate_time_window py (list_sort sort_key (extract_messages py s)))
    as [w|e] eqn:E.
  - exists w. split; reflexivity.
  - unfold calculate_time_window in E. rewrite Hds in E. cbn [bind] in E.
    destruct ds; discriminate E.
Qed.

(** Of the strings of the document only the names of the groups can hold
    a surrogate. *)
Lemma writable_groups (py : runtime) (now s : str) (doc : output_document) :
  encodable now = true ->
  (forall y, (1 <= y <= 9999)%Z -> encodable (strftime_Y py y) = true) ->
  fst (preprocess_messages py now s) = Some doc ->
  writable doc = true <->
  forall m, In m (extract_messages py s) -> encodable (group m) = true.
Proof.
  intros Hnow Hy Hdoc.
  destruct (preprocess_messages_document py now s) as (w & Hw & E).
  rewrite E in Hdoc. cbn [fst] in Hdoc. injection Hdoc as <-.
  destruct (window_encodable py _ w Hy (sorted_messages_written py s) Hw) as [Hs He].
  unfold writable. cbn [messages window processed_at].
  rewrite Hs, He, Hnow, !andb_true_r, forallb_forall.
  assert (Hperm : forall m, In m (list_sort sort_key (extract_messages py s)) <->
                            In m (extract_messages py s)).
  { intros m. split; apply Permutation_in;
      [symmetry|]; apply list_sort_perm. }
  split; intros H m Hm.
  - specialize (H m (proj2 (Hperm m) Hm)).
    rewrite !andb_true_iff in H. tauto.
  - apply Hperm in Hm.
    rewrite (message_timestamp_encodable py s m Hm), (H m Hm),
      (message_text_encodable py s m Hm). reflexivity.
Qed.

(** ** The whole run *)

Lemma find_news_content_empty_list (json_loads : str -> option json) :
  find_news_content json_loads (JList []) = JNull.
Proof. reflexivity. Qed.

Lemma ending_of_caught (r : result unit) :
  ending_of r <> Fails IndexError /\ ending_of r <> Fails TypeError /\
  ending_of r <> Fails UnicodeEncodeError.
Proof. destruct r; repeat split; discriminate. Qed.

(** X7. The document of a run.  Whatever the text, the lines from the
    extraction to [json.dump] build a document with all the extracted
    messages, sorted, their number, the time given as [now] and the
    window of [calculate_time_window]; the window has a duration exactly
    when some extracted message is dated. *)
Theorem X7_document_of_a_run :
  forall (py : runtime) (now news_content : str),
  exists doc,
    fst (preprocess_messages py now news_content) = Some doc /\
    messages doc = list_sort sort_key (extract_messages py news_content) /\
    Permutation (extract_messages py news_content) (messages doc) /\
    total_messages doc = length (extract_messages py news_content) /\
    processed_at doc = now /\
    calculate_time_window py (messages doc) = Ok (window doc) /\
    (duration_hours (window doc) <> None <->
     exists m, In m (extract_messages py news_content) /\ timestamp m <> None).
Proof.
  intros py now nc.
  destruct (preprocess_messages_document py now nc) as (w & Hw & E).
  pose proof (preprocess_messages_end py now nc) as [Hnone Hsome].
  rewrite E in Hnone, Hsome. cbn [snd] in Hnone, Hsome.
  eexists. split; [rewrite E; reflexivity|]. cbn [messages total_messages
    processed_at window].
  split; [reflexivity|]. split; [apply list_sort_perm|].
  split; [symmetry; apply Permutation_length, list_sort_perm|].
  split; [reflexivity|]. split; [exact Hw|]. split.
  - intros Hd.
    destruct (existsb (fun m => match timestamp m with Some _ => true | None => false end)
                (extract_messages py nc)) eqn:Ex.
    + apply existsb_exists in Ex. destruct Ex as (m & Hm & Ht).
      exists m. split; [exact Hm|]. destruct (timestamp m); [discriminate|discriminate Ht].
    + exfalso. apply Hd.
      assert (Hall : forall m, In m (extract_messages py nc) -> timestamp m = None).
      { intros m Hm. destruct (timestamp m) eqn:Et; [|reflexivity].
        assert (Ht : existsb (fun m => match timestamp m with Some _ => true | None => false end)
                       (extract_messages py nc) = true); [|congruence].
        apply existsb_exists. exists m. rewrite Et. auto. }
      specialize (Hnone Hall). destruct (duration_hours w); [discriminate Hnone|reflexivity].
  - intros Hex. specialize (Hsome Hex).
    destruct (duration_hours w); [discriminate|discriminate Hsome].
Qed.

(** X15. How the run can end.  A document comes to [json.dump] only when
    the envelope held a string that is not empty, and it is the document
    of that string; the run fails with IndexError exactly on the empty
    list, and with TypeError exactly when the value found is no string. *)
Theorem X15_endings_of_the_run :
  forall (json_loads : str -> option json) (py : runtime) (now : str)
         (raw_data : json),
  (forall doc,
     fst (preprocess_messages_from json_loads py now raw_data) = Some doc ->
     exists s, find_news_content json_loads raw_data = JStr s /\ s <> [] /\
               fst (preprocess_messages py now s) = Some doc) /\
  (snd (preprocess_messages_from json_loads py now raw_data) = Fails IndexError <->
   raw_data = JList []) /\
  (snd (preprocess_messages_from json_loads py now raw_data) = Fails TypeError <->
   truthy (find_news_content json_loads raw_data) = true /\
   forall s, find_news_content json_loads raw_data <> JStr s).
Proof.
  intros json_loads py now raw_data. unfold preprocess_messages_from. cbv zeta.
  destruct (truthy (find_news_content json_loads raw_data)) eqn:Et; cbn [negb].
  - assert (Hraw : raw_data <> JList []).
    { intros ->. rewrite find_news_content_empty_list in Et. discriminate. }
    destruct (find_news_content json_loads raw_data) as [| | | |s| |] eqn:Ef;
      try (split; [discriminate|split; split;
             [discriminate|contradiction|split; [reflexivity|discriminate]|reflexivity]]).
    destruct (preprocess_messages py now s) as [[doc|] r] eqn:Ep; cbn [fst snd].
    + split; [|split; split].
      * intros doc' [= <-]. exists s. split; [reflexivity|].
        split; [destruct s; [discriminate Et|discriminate]|rewrite Ep; reflexivity].
      * destruct (writable doc); [|discriminate].
        intros H. destruct (ending_of_caught r) as (H1 & _). contradiction.
      * contradiction.
      * destruct (writable doc); [|discriminate].
        intros H. destruct (ending_of_caught r) as (_ & H1 & _). contradiction.
      * intros [_ H]. destruct (H s eq_refl).
    + split; [discriminate|split; split].
      * intros H. destruct (ending_of_caught r) as (H1 & _). contradiction.
      * contradiction.
      * intros H. destruct (ending_of_caught r) as (_ & H1 & _). contradiction.
      * intros [_ H]. destruct (H s eq_refl).
  - split; [|split; split].
    + destruct raw_data as [| | | |s|[|x l]|]; discriminate.
    + destruct raw_data as [| | | |s|[|x l]|]; try discriminate;
        [destruct (encodable (firstn 500 s)); discriminate|reflexivity].
    + intros ->. reflexivity.
    + destruct raw_data as [| | | |s|[|x l]|]; try discriminate.
      destruct (encodable (firstn 500 s)); discriminate.
    + intros [H _]. discriminate H.
Qed.

(** X16. Writing the file.  The document of a text is always built; the
    write fails, with UnicodeEncodeError, exactly when the name of the
    group of some message holds a surrogate, which UTF-8 cannot encode
    (the texts never hold one: the cleaner removed them with the emoji).
    When it does not fail the run ends as the report ends: with
    KeyError if no message is dated, normally otherwise. *)
Theorem X16_write_fails_on_a_surrogate :
  forall (json_loads : str -> option json) (py : runtime) (now : str)
         (raw_data : json) (s : str),
  find_news_content json_loads raw_data = JStr s -> s <> [] ->
  encodable now = true ->
  (forall y, (1 <= y <= 9999)%Z -> encodable (strftime_Y py y) = true) ->
  (exists doc,
     fst (preprocess_messages_from json_loads py now raw_data) = Some doc /\
     messages doc = list_sort sort_key (extract_messages py s)) /\
  (snd (preprocess_messages_from json_loads py now raw_data) = Fails UnicodeEncodeError <->
   exists m, In m (extract_messages py s) /\ encodable (group m) = false) /\
  ((forall m, In m (extract_messages py s) -> encodable (group m) = true) ->
   ((exists m, In m (extract_messages py s) /\ timestamp m <> None) ->
    snd (preprocess_messages_from json_loads py now raw_data) = Returns) /\
   ((forall m, In m (extract_messages py s) -> timestamp m = None) ->
    snd (preprocess_messages_from json_loads py now raw_data) =
    Fails (Uncaught (KeyError "duration_hours")))).
Proof.
  intros json_loads py now raw_data s Hf Hs Hnow Hy.
  unfold preprocess_messages_from. cbv zeta. rewrite Hf.
  destruct s as [|c s]; [contradiction|]. cbn [truthy negb].
  pose proof (writable_groups py now (c :: s)) as Hw.
  pose proof (preprocess_messages_end py now (c :: s)) as [Hnone Hsome].
  destruct (preprocess_messages_document py now (c :: s)) as (w & _ & E).
  rewrite E in *. cbn [fst snd] in *.
  specialize (Hw _ Hnow Hy eq_refl).
  set (doc := {| total_messages := _ |}) in *.
  split; [exists doc; split; reflexivity|].
  destruct (writable doc) eqn:Ew.
  - split; [split|].
    + intros H. destruct (ending_of_caught
        (match duration_hours w with Some _ => Ok tt | None => Raise (KeyError "duration_hours") end))
        as (_ & _ & H1). contradiction.
    + intros (m & Hm & Hg). rewrite (proj1 Hw eq_refl m Hm) in Hg. discriminate.
    + intros _. split; intros H.
      * rewrite (Hsome H). reflexivity.
      * rewrite (Hnone H). reflexivity.
  - split; [split; [intros _|reflexivity]|].
    + destruct (existsb (fun m => negb (encodable (group m)))
                  (extract_messages py (c :: s))) eqn:Ex.
      * apply existsb_exists in Ex. destruct Ex as (m & Hm & Hg).
        exists m. split; [exact Hm|]. destruct (encodable (group m)); [discriminate|reflexivity].
      * exfalso.
        assert (H : false = true); [|discriminate H].
        apply Hw. intros m Hm.
        destruct (encodable (group m)) eqn:Eg; [reflexivity|].
        assert (Ht : existsb (fun m => negb (encodable (group m)))
                       (extract_messages py (c :: s)) = true); [|congruence].
        apply existsb_exists. exists m. rewrite Eg. auto.
    + intros H. apply Hw in H. discriminate H.
Qed.

Lemma X16_write_fails_on_a_surrogate_witness :
  (exists doc,
     fst (preprocess_messages_from (fun _ => None) ascii_runtime (lit "now")
            round_trip_raw) = Some doc /\
     messages doc =
     list_sort sort_key (extract_messages ascii_runtime round_trip_blob)) /\
  (snd (preprocess_messages_from (fun _ => None) ascii_runtime (lit "now")
          round_trip_raw) = Fails UnicodeEncodeError <->
   exists m, In m (extract_messages ascii_runtime round_trip_blob) /\
             encodable (group m) = false) /\
  ((forall m, In m (extract_messages ascii_runtime round_trip_blob) ->
      encodable (group m) = true) ->
   ((exists m, In m (extract_messages ascii_runtime round_trip_blob) /\
               timestamp m <> None) ->
    snd (preprocess_messages_from (fun _ => None) ascii_runtime (lit "now")
           round_trip_raw) = Returns) /\
   ((forall m, In m (extract_messages ascii_runtime round_trip_blob) ->
       timestamp m = None) ->
    snd (preprocess_messages_from (fun _ => None) ascii_runtime (lit "now")
           round_trip_raw) = Fails (Uncaught (KeyError "duration_hours")))).
Proof.
  apply (X16_write_fails_on_a_surrogate (fun _ => None) ascii_runtime (lit "now")
           round_trip_raw round_trip_blob).
  - reflexivity.
  - discriminate.
  - reflexivity.
  - intros y Hy. apply zpad4_encodable. lia.
Defined.

(** The blob of the round trip with a surrogate in the name of its group:
    the document is built and the write fails. *)
Example surrogate_group_fails :
  extract_messages ascii_runtime surrogate_blob =
  [{| timestamp := Some (lit "2024-01-01T10:00:00");
      group := lit "A" ++ [0xD800%N];
      text := text round_trip_message;
      original_length := original_length round_trip_message |}] /\
  snd (preprocess_messages_from (fun _ => None) ascii_runtime (lit "now")
         (JDict [(lit "news_content", JStr surrogate_blob)])) =
  Fails UnicodeEncodeError.
Proof. split; vm_compute; reflexivity. Qed.
